(** * Repl.js: the playground's root component, as a state machine

    A shallow embedding of [js/repl/Repl.js].  The component is a
    React class: one [state] object, an instance field
    [_numLoadingPlugins], and a handful of methods that run to completion
    on the browser's single thread.  We model

    - JavaScript values as an inductive [Val], with the [PluginState]
      objects (the only objects the component mutates in place) living in
      a store and referred to by location, so that the aliasing between
      [this.state], destructured locals and closures is the real one;
    - [this.state] as a finite map from property names to values
      ([setState] merges a partial object into it);
    - each method as a computation in a state-and-exception monad over
      the [World] (component, store, pending script loads, the debounce
      timer, local storage, the URL, and a trace of calls made to the
      external collaborators);
    - the browser's event loop as a list of [Event]s: time passing, the
      debounce timer's callback running, a script load completing, and
      the user acting on the editor or on the options panel.

    The events are those of a component whose Babel is loaded.  The
    constructor and the callback [_setupBabel] hands to [loadBabel] are
    embedded on their own, after the event loop; an [Activation] is that
    callback or an event. *)

From Stdlib Require Import Ascii DecimalString.
From stdpp Require Import base strings gmap list pretty.

Open Scope string_scope.
Open Scope list_scope.
Set Warnings "-register-all".

(** ** Values *)

Definition loc := nat.

(** [VObject] is a plain data object (an env config, a plugin config, a
    persisted configuration ...): the component never assigns to a
    property of one, it builds a new object instead, so they are kept by
    value, as the list of their own enumerable properties in enumeration
    order.  [VPluginMap] is a [PluginStateMap]: an object whose property
    values are references to [PluginState] objects.  [VPluginState] is
    such a reference. *)
Inductive Val : Type :=
| VUndefined
| VNull
| VBool (b : bool)
| VNumber (n : Z)
| VString (s : string)
| VObject (props : list (string * Val))
| VPluginMap (entries : list (string * loc))
| VPluginState (l : loc).

(** The [PluginState] type of [./types]. *)
Record PluginState := mkPluginState {
  config : Val;
  didError : bool;
  isEnabled : bool;
  isLoaded : bool;
  isLoading : bool;
  plugin : Val;
}.

Definition Heap := loc -> PluginState.

Definition heap_set (h : Heap) (l : loc) (p : PluginState) : Heap :=
  fun l' => if Nat.eqb l' l then p else h l'.

Definition with_isEnabled (b : bool) (p : PluginState) : PluginState :=
  {| config := config p; didError := didError p; isEnabled := b;
     isLoaded := isLoaded p; isLoading := isLoading p; plugin := plugin p |}.

(** ** The fragment of JavaScript the component uses *)

(** How an evaluation ends abruptly: a [TypeError] raised by the engine,
    a value thrown by evaluated code, or a step the embedding does not
    cover. *)
Inductive Exn :=
| TypeError (what : string)
| Thrown (v : Val)
| Unmodelled (what : string).

(** What a [catch (error)] clause binds. *)
Definition caught (e : Exn) : option Val :=
  match e with
  | TypeError what => Some (VObject [("name", VString "TypeError"); ("message", VString what)])
  | Thrown v => Some v
  | Unmodelled _ => None
  end.

Inductive Outcome (A : Type) :=
| Ok (a : A)
| Throw (e : Exn).
Arguments Ok {A} a.
Arguments Throw {A} e.

(** ToBoolean. *)
Definition truthy (v : Val) : bool :=
  match v with
  | VUndefined | VNull => false
  | VBool b => b
  | VNumber n => negb (Z.eqb n 0)
  | VString s => negb (String.eqb s "")
  | VObject _ | VPluginMap _ | VPluginState _ => true
  end.

Definition nullish (v : Val) : bool :=
  match v with
  | VUndefined | VNull => true
  | _ => false
  end.

Fixpoint assoc {A : Type} (k : string) (l : list (string * A)) : option A :=
  match l with
  | [] => None
  | (k', a) :: l' => if String.eqb k' k then Some a else assoc k l'
  end.

Definition string_chars (s : string) : list (string * Val) :=
  map (fun i : nat =>
         (pretty i,
          match String.get i s with
          | Some c => VString (String c EmptyString)
          | None => VUndefined
          end))
      (seq 0 (String.length s)).

(** Own enumerable properties, in enumeration order. *)
Definition own_props (h : Heap) (v : Val) : list (string * Val) :=
  match v with
  | VObject props => props
  | VPluginMap entries => map (fun e : string * loc => (fst e, VPluginState (snd e))) entries
  | VPluginState l =>
      let p := h l in
      [("config", config p); ("didError", VBool (didError p));
       ("isEnabled", VBool (isEnabled p)); ("isLoaded", VBool (isLoaded p));
       ("isLoading", VBool (isLoading p)); ("plugin", plugin p)]
  | VString s => string_chars s
  | VUndefined | VNull | VBool _ | VNumber _ => []
  end.

(** Own properties that a [for-in] or [Object.keys] does not list. *)
Definition hidden_props (v : Val) : list (string * Val) :=
  match v with
  | VString s => [("length", VNumber (Z.of_nat (String.length s)))]
  | _ => []
  end.

(** [v[k]] and [v.k].  No name the component reads is a property of
    [Object.prototype] or of a primitive's prototype, so a name that is
    not an own property reads as [undefined]. *)
Definition getProp (h : Heap) (v : Val) (k : string) : Outcome Val :=
  if nullish v then Throw (TypeError ("cannot read property " +:+ k))
  else Ok (match assoc k (own_props h v ++ hidden_props v) with
           | Some x => x
           | None => VUndefined
           end).

(** [v.hasOwnProperty(k)]: the method is [Object.prototype]'s unless [v]
    has an own property of that name, which no value of the model can
    call. *)
Definition hasOwnProperty (h : Heap) (v : Val) (k : string) : Outcome bool :=
  if nullish v then Throw (TypeError "cannot read property hasOwnProperty")
  else match assoc "hasOwnProperty" (own_props h v ++ hidden_props v) with
       | Some _ => Throw (TypeError "hasOwnProperty is not a function")
       | None => Ok (match assoc k (own_props h v ++ hidden_props v) with
                     | Some _ => true
                     | None => false
                     end)
       end.

(** [Object.keys(v)]. *)
Definition Object_keys (h : Heap) (v : Val) : Outcome (list string) :=
  if nullish v then Throw (TypeError "cannot convert undefined or null to object")
  else Ok (map fst (own_props h v)).

(** The names a [for (const key in v)] visits. *)
Definition for_in_keys (h : Heap) (v : Val) : list string :=
  map fst (own_props h v).

(** An element of an array under [Array.prototype.join]. *)
Definition join_element (v : Val) : string :=
  match v with
  | VUndefined | VNull => ""
  | VBool true => "true"
  | VBool false => "false"
  | VNumber n => pretty n
  | VString s => s
  | VObject _ | VPluginMap _ | VPluginState _ => "[object Object]"
  end.

Definition Array_join (sep : string) (a : list Val) : string :=
  String.concat sep (map join_element a).

(** An array index: the canonical decimal form of an integer below
    [2^32 - 1].  Such property names are enumerated first, in ascending
    order. *)
Definition array_index (k : string) : option N :=
  match NilEmpty.uint_of_string k with
  | Some u =>
      let n := N.of_uint u in
      if String.eqb (pretty n) k && N.ltb n 4294967295 then Some n else None
  | None => None
  end.

Definition enumerated_before (k k' : string) : bool :=
  match array_index k, array_index k' with
  | Some n, Some n' => N.ltb n n'
  | Some _, None => true
  | None, _ => false
  end.

Fixpoint replace_prop (k : string) (v : Val) (props : list (string * Val)) :=
  match props with
  | [] => []
  | (k', v') :: rest =>
      if String.eqb k' k then (k, v) :: rest else (k', v') :: replace_prop k v rest
  end.

Fixpoint add_prop (k : string) (v : Val) (props : list (string * Val)) :=
  match props with
  | [] => [(k, v)]
  | (k', v') :: rest =>
      if enumerated_before k k' then (k, v) :: props else (k', v') :: add_prop k v rest
  end.

(** [{...props, [k]: v}] *)
Definition define_prop (k : string) (v : Val) (props : list (string * Val)) :=
  match assoc k props with
  | Some _ => replace_prop k v props
  | None => add_prop k v props
  end.

(** JavaScript's [a && b] yields [a] when it is falsy and evaluates [b]
    only otherwise. *)
Definition and_then (a : Val) (b : Outcome Val) : Outcome Val :=
  if truthy a then b else Ok a.

Definition js_not (v : Val) : Val := VBool (negb (truthy v)).

Definition obind {A B : Type} (m : Outcome A) (k : A -> Outcome B) : Outcome B :=
  match m with
  | Ok a => k a
  | Throw e => Throw e
  end.

Notation "'let?' x ':=' m 'in' k" := (obind m (fun x => k))
  (at level 10, x name, m at level 100, k at level 200).

Fixpoint filterO {A : Type} (f : A -> Outcome bool) (l : list A) : Outcome (list A) :=
  match l with
  | [] => Ok []
  | a :: l' =>
      let? keep := f a in
      let? rest := filterO f l' in
      Ok (if keep then a :: rest else rest)
  end.

Fixpoint mapO {A B : Type} (f : A -> Outcome B) (l : list A) : Outcome (list B) :=
  match l with
  | [] => Ok []
  | a :: l' =>
      let? b := f a in
      let? rest := mapO f l' in
      Ok (b :: rest)
  end.

(** ** What the component hands to its collaborators *)

Record Targets := mkTargets {
  t_browsers : option (list string);
  t_electron : option Val;
  t_node : option Val;
}.

(** The options of the env preset.  [onPresetBuild] is either [null]
    ([false]) or the closure of [_compile] that stores
    [getDebugInfoFromEnvResult(result)] into the local
    [envPresetDebugInfo] ([true]). *)
Record EnvOptions := mkEnvOptions {
  onPresetBuild : bool;
  targets : Targets;
  useBuiltIns : Val;
}.

Inductive PresetEntry :=
| Preset (name : Val)
| PresetWithOptions (name : string) (options : EnvOptions).

Record CompileConfig := mkCompileConfig {
  evaluate : Val;
  presets : list PresetEntry;
  prettify : Val;
  sourceMap : Val;
}.

(** The closures handed to [loadPlugin], with what they capture. *)
Inductive LoadCallback :=
| PluginLoaded (plugins : Val)
| PolyfillLoaded
| EnvPresetLoaded (envPresetState : Val).

Record PendingLoad := mkPendingLoad {
  target : loc;
  callback : LoadCallback;
}.

Inductive Effect :=
| CallCompile (code : Val) (config : CompileConfig)
| CallScopedEval (compiled sourceMap : Val)
| CallLoadPlugin (l : loc)
| CallRegisterPreset (name : string) (preset : Val).

(** ** The world *)

Record World := mkWorld {
  state : gmap string Val;
  heap : Heap;
  _numLoadingPlugins : Z;
  (** script loads in flight *)
  loading : list PendingLoad;
  (** the debounced [_compileToState]: the argument and the time of its
      last call, while an invocation is owed *)
  timer : option (Val * nat);
  (** milliseconds *)
  now : nat;
  localStorage : gmap string Val;
  query : option Val;
  trace : list Effect;
}.

Definition set_state (s : gmap string Val) (w : World) : World :=
  mkWorld s (heap w) (_numLoadingPlugins w) (loading w) (timer w) (now w)
          (localStorage w) (query w) (trace w).
Definition set_heap (h : Heap) (w : World) : World :=
  mkWorld (state w) h (_numLoadingPlugins w) (loading w) (timer w) (now w)
          (localStorage w) (query w) (trace w).
Definition set_numLoadingPlugins (n : Z) (w : World) : World :=
  mkWorld (state w) (heap w) n (loading w) (timer w) (now w)
          (localStorage w) (query w) (trace w).
Definition set_loading (l : list PendingLoad) (w : World) : World :=
  mkWorld (state w) (heap w) (_numLoadingPlugins w) l (timer w) (now w)
          (localStorage w) (query w) (trace w).
Definition set_timer (t : option (Val * nat)) (w : World) : World :=
  mkWorld (state w) (heap w) (_numLoadingPlugins w) (loading w) t (now w)
          (localStorage w) (query w) (trace w).
Definition set_now (t : nat) (w : World) : World :=
  mkWorld (state w) (heap w) (_numLoadingPlugins w) (loading w) (timer w) t
          (localStorage w) (query w) (trace w).
Definition set_localStorage (m : gmap string Val) (w : World) : World :=
  mkWorld (state w) (heap w) (_numLoadingPlugins w) (loading w) (timer w) (now w)
          m (query w) (trace w).
Definition set_query (q : option Val) (w : World) : World :=
  mkWorld (state w) (heap w) (_numLoadingPlugins w) (loading w) (timer w) (now w)
          (localStorage w) q (trace w).
Definition set_trace (t : list Effect) (w : World) : World :=
  mkWorld (state w) (heap w) (_numLoadingPlugins w) (loading w) (timer w) (now w)
          (localStorage w) (query w) t.

(** Computations: they may throw, and what they did before throwing
    stays done. *)
Definition M (A : Type) := World -> Outcome A * World.

Definition ret {A : Type} (a : A) : M A := fun w => (Ok a, w).
Definition throw {A : Type} (e : Exn) : M A := fun w => (Throw e, w).
Definition bind {A B : Type} (m : M A) (k : A -> M B) : M B :=
  fun w => match m w with
           | (Ok a, w') => k a w'
           | (Throw e, w') => (Throw e, w')
           end.

Notation "'let*' x ':=' m 'in' k" := (bind m (fun x => k))
  (at level 10, x name, m at level 100, k at level 200).
Notation "m ';;' k" := (bind m (fun _ => k))
  (at level 100, k at level 200, right associativity).

Definition try_catch {A : Type} (body : M A) (handler : Val -> M A) : M A :=
  fun w => match body w with
           | (Ok a, w') => (Ok a, w')
           | (Throw e, w') =>
               match caught e with
               | Some error => handler error w'
               | None => (Throw e, w')
               end
           end.

Definition getState : M (gmap string Val) := fun w => (Ok (state w), w).
Definition read {A : Type} (f : Heap -> Outcome A) : M A := fun w => (f (heap w), w).
Definition update (f : World -> World) : M unit := fun w => (Ok tt, f w).
Definition emit (e : Effect) : M unit := update (fun w => set_trace (trace w ++ [e]) w).
Definition when (b : bool) (m : M unit) : M unit := if b then m else ret tt.

Fixpoint forM (l : list string) (body : string -> M unit) : M unit :=
  match l with
  | [] => ret tt
  | k :: l' => body k ;; forM l' body
  end.

(** [this.state.k]. *)
Definition field (s : gmap string Val) (k : string) : Val :=
  default VUndefined (s !! k).

(** [state.hasOwnProperty(name)] on the state object. *)
Definition state_hasOwnProperty (s : gmap string Val) (name : string) : Outcome bool :=
  match s !! "hasOwnProperty" with
  | Some _ => Throw (TypeError "hasOwnProperty is not a function")
  | None => Ok (bool_decide (is_Some (s !! name)))
  end.

(** [setState(partial, callback)] and [setState(updater, callback)]: the
    partial state is merged over the current one, then the callback runs.
    An updater that returns [undefined] changes nothing. *)
Definition setState (partial : gmap string Val) (cb : M unit) : M unit :=
  update (fun w => set_state (partial ∪ state w) w) ;; cb.

Definition setState_with (updater : gmap string Val -> M (option (gmap string Val)))
    (cb : M unit) : M unit :=
  let* s := getState in
  let* partial := updater s in
  match partial with
  | Some p => update (fun w => set_state (p ∪ state w) w)
  | None => ret tt
  end ;;
  cb.

(** [x.isEnabled = b] in strict code. *)
Definition assign_isEnabled (x : Val) (b : bool) : M unit :=
  match x with
  | VPluginState l =>
      update (fun w => set_heap (heap_set (heap w) l (with_isEnabled b (heap w l))) w)
  | VUndefined | VNull => throw (TypeError "cannot set property isEnabled")
  | VBool _ | VNumber _ | VString _ =>
      throw (TypeError "cannot create property isEnabled on a primitive")
  | VObject _ | VPluginMap _ =>
      throw (Unmodelled "assignment to a property of a plain data object")
  end.

(** ** The component *)

Definition DEBOUNCE_DELAY : nat := 500.

(** *** Collaborators

    [./compile], [./scopedEval], [./loadPlugin], [./replUtils],
    [./StorageService] and [./UriUtils] are imported by [Repl.js] and are
    not part of it. *)

(** Modelled from the spec: the object that [compile(code, config)] of
    [./compile] returns; the source of [./compile] is not available.  The
    compiler is a black box that yields the transformed output, a compile
    error, an evaluation error and a source map: the fields of [State]
    that the constructor leaves [null] for "the compile helper" to
    fill. *)
Record CompileResult := mkCompileResult {
  result_compiled : Val;
  result_compileError : Val;
  result_evalError : Val;
  result_sourceMap : Val;
}.

Definition result_object (r : CompileResult) : gmap string Val :=
  <["compiled" := result_compiled r]>
    (<["compileError" := result_compileError r]>
       (<["evalError" := result_evalError r]>
          (<["sourceMap" := result_sourceMap r]> ∅))).

Class Collaborators := {
  (** [compile(code, config)] *)
  compile : Val -> CompileConfig -> CompileResult;
  (** the results the env preset passes to its [onPresetBuild] option in
      the course of [compile(code, config)], in order, when that option is
      a function *)
  presetBuilds : Val -> CompileConfig -> list Val;
  getDebugInfoFromEnvResult : Val -> Val;
  envConfigToTargetsString : Val -> Val;
  (** [scopedEval(compiled, sourceMap)]: [Some e] when it throws [e] *)
  scopedEval : Val -> Val -> option Val;
  (** [value.split(",").map(value => value.trim()).filter(value => value)]
      on a string *)
  browserTargets : string -> list string;
  (** what [loadPlugin] writes into the [PluginState] it is given when
      the load starts, and when it completes *)
  loadPlugin_begin : PluginState -> PluginState;
  loadPlugin_end : bool -> PluginState -> PluginState;
}.

Section Repl.

Context {collaborators : Collaborators}.

(** Modelled from the spec: [loadPlugin(state, callback)] of
    [./loadPlugin], whose source is not available.  The spec speaks of
    background loading of modules and of asynchronous module-load
    completions: a call starts the load of the module of the
    [PluginState] it is given and returns; the load completes later, as
    an event of its own, and the callback is run then, once, with
    whether it succeeded. *)
Definition loadPlugin (pluginState : Val) (cb : LoadCallback) : M unit :=
  match pluginState with
  | VPluginState l =>
      emit (CallLoadPlugin l) ;;
      update (fun w => set_heap (heap_set (heap w) l (loadPlugin_begin (heap w l))) w) ;;
      update (fun w => set_loading (loading w ++ [mkPendingLoad l cb]) w)
  | _ => throw (Unmodelled "loadPlugin on a value that is not a PluginState")
  end.

(** Modelled from the spec: [StorageService.set(key, value)] of
    [./StorageService], whose source is not available: persistence to
    local storage, under a key. *)
Definition StorageService_set (key : string) (value : Val) : M unit :=
  update (fun w => set_localStorage (<[key := value]> (localStorage w)) w).

(** Modelled from the spec: [UriUtils.updateQuery(value)] of
    [./UriUtils], whose source is not available: persistence to the
    query string of the URL. *)
Definition UriUtils_updateQuery (value : Val) : M unit :=
  update (fun w => set_query (Some value) w).

(** *** [_presetsToArray] *)

Definition _presetsToArray (state : gmap string Val) (h : Heap) : Outcome (list Val) :=
  let presets := field state "presets" in
  let? keys := Object_keys h presets in
  let? enabled :=
    filterO (fun key =>
               let? p := getProp h presets key in
               let? e := getProp h p "isEnabled" in
               let? c := and_then e (let? p' := getProp h presets key in
                                     getProp h p' "isLoaded") in
               Ok (truthy c))
            keys in
  mapO (fun key =>
          let? p := getProp h presets key in
          let? c := getProp h p "config" in
          getProp h c "label")
       enabled.

(** *** [_compile] *)

(** The [targets] of the env preset's options. *)
Definition env_targets (envConfig : Val) (h : Heap) : Outcome Targets :=
  let? browsers := getProp h envConfig "browsers" in
  let? tb :=
    if truthy browsers then
      match browsers with
      | VString s => Ok (Some (browserTargets s))
      | _ => Throw (TypeError "envConfig.browsers.split is not a function")
      end
    else Ok None in
  let? isElectronEnabled := getProp h envConfig "isElectronEnabled" in
  let? te :=
    if truthy isElectronEnabled
    then let? v := getProp h envConfig "electron" in Ok (Some v)
    else Ok None in
  let? isNodeEnabled := getProp h envConfig "isNodeEnabled" in
  let? tn :=
    if truthy isNodeEnabled
    then let? v := getProp h envConfig "node" in Ok (Some v)
    else Ok None in
  Ok (mkTargets tb te tn).

(** Everything [_compile] does up to the call of [compile]: the second
    argument of that call. *)
Definition _compile_config (state : gmap string Val) (h : Heap) : Outcome CompileConfig :=
  let envConfig := field state "envConfig" in
  let runtimePolyfillState := field state "runtimePolyfillState" in
  let? labels := _presetsToArray state h in
  let presetsArray := map Preset labels in
  let? babili := getProp h (field state "plugins") "babili-standalone" in
  let? babiliEnabled := getProp h babili "isEnabled" in
  let? babiliOn := and_then babiliEnabled (getProp h babili "isLoaded") in
  let presetsArray :=
    if truthy babiliOn then presetsArray ++ [Preset (VString "babili")] else presetsArray in
  let? envEnabled := getProp h envConfig "isEnvPresetEnabled" in
  let? envOn := and_then envEnabled (getProp h (field state "envPresetState") "isLoaded") in
  let? presetsArray :=
    if truthy envOn then
      let? tg := env_targets envConfig h in
      let options :=
        {| onPresetBuild := truthy (field state "debugEnvPreset");
           targets := tg;
           useBuiltIns :=
             (let notEvaluate := js_not (field state "evaluate") in
              if truthy notEvaluate then field state "builtIns" else notEvaluate) |} in
      Ok (presetsArray ++ [PresetWithOptions "env" options])
    else Ok presetsArray in
  let? polyfillEnabled := getProp h runtimePolyfillState "isEnabled" in
  let? ev := and_then polyfillEnabled (getProp h runtimePolyfillState "isLoaded") in
  let? prettier := getProp h (field state "plugins") "prettier" in
  let? prettierEnabled := getProp h prettier "isEnabled" in
  let? sm := getProp h runtimePolyfillState "isEnabled" in
  Ok {| evaluate := ev; presets := presetsArray;
        prettify := prettierEnabled; sourceMap := sm |}.

(** Whether [config] carries the [onPresetBuild] closure. *)
Definition has_onPresetBuild (config : CompileConfig) : bool :=
  existsb (fun e => match e with
                    | PresetWithOptions _ o => onPresetBuild o
                    | Preset _ => false
                    end)
          (presets config).

(** The local [envPresetDebugInfo] once [compile] has returned: [null],
    overwritten by the closure each time the preset called it. *)
Definition debugInfo_after (code : Val) (config : CompileConfig) : Val :=
  if has_onPresetBuild config
  then fold_left (fun _ result => getDebugInfoFromEnvResult result)
                 (presetBuilds code config) VNull
  else VNull.

Definition _compile (code : Val) (state : gmap string Val) : M (gmap string Val) :=
  let* config := read (_compile_config state) in
  emit (CallCompile code config) ;;
  ret (<["envPresetDebugInfo" := debugInfo_after code config]>
         (result_object (compile code config))).

(** *** [_persistState] *)

(** The [state] object [_persistState] builds. *)
Definition persisted_configuration (st : gmap string Val) (h : Heap) : Outcome Val :=
  let envConfig := field st "envConfig" in
  let plugins := field st "plugins" in
  let? presetsArray := _presetsToArray st h in
  let? babili := getProp h (field st "plugins") "babili-standalone" in
  let? babiliEnabled := getProp h babili "isEnabled" in
  let presetsArray :=
    if truthy babiliEnabled then presetsArray ++ [VString "babili"] else presetsArray in
  let? envEnabled := getProp h envConfig "isEnvPresetEnabled" in
  let presetsArray :=
    if truthy envEnabled then presetsArray ++ [VString "env"] else presetsArray in
  let? babili' := getProp h plugins "babili-standalone" in
  let? p_babili := getProp h babili' "isEnabled" in
  let? p_browsers := getProp h envConfig "browsers" in
  let? p_build := getProp h (field st "babel") "build" in
  let? p_circleciRepo := getProp h (field st "babel") "circleciRepo" in
  let? p_evaluate := getProp h (field st "runtimePolyfillState") "isEnabled" in
  let? prettier := getProp h plugins "prettier" in
  let? p_prettier := getProp h prettier "isEnabled" in
  let? p_version := getProp h (field st "babel") "version" in
  Ok (VObject
        [("babili", p_babili);
         ("browsers", p_browsers);
         ("build", p_build);
         ("builtIns", field st "builtIns");
         ("circleciRepo", p_circleciRepo);
         ("code", field st "code");
         ("debug", field st "debugEnvPreset");
         ("evaluate", p_evaluate);
         ("lineWrap", field st "lineWrap");
         ("presets", VString (Array_join "," presetsArray));
         ("prettier", p_prettier);
         ("showSidebar", field st "isSidebarExpanded");
         ("targets", envConfigToTargetsString envConfig);
         ("version", p_version)]).

Definition _persistState : M unit :=
  let* st := getState in
  let* configuration := read (persisted_configuration st) in
  StorageService_set "replState" configuration ;;
  UriUtils_updateQuery configuration.

(** *** [_compileToState] and [_updateCode] *)

(** The function [_compileToState] debounces. *)
Definition compileToState_body (code : Val) : M unit :=
  setState_with (fun st => let* partial := _compile code st in ret (Some partial))
                _persistState.

(** [lodash.debounce(f, DEBOUNCE_DELAY)] with its default options: a call
    only notes its argument and the time; [f] is invoked with the last
    argument once [DEBOUNCE_DELAY] ms have passed since the last call,
    when the timer's callback next runs. *)
Definition _compileToState (code : Val) : M unit :=
  update (fun w => set_timer (Some (code, now w)) w).

(** The callback of the debounce's timer, whenever the browser runs it. *)
Definition timerExpired : M unit :=
  fun w =>
    match timer w with
    | Some (code, lastCallTime) =>
        if Nat.leb DEBOUNCE_DELAY (now w - lastCallTime)
        then (update (set_timer None) ;; compileToState_body code) w
        else (Ok tt, w)
    | None => (Ok tt, w)
    end.

(** [_updateCode]: the editor's [onChange]. *)
Definition _updateCode (code : Val) : M unit :=
  setState {[ "code" := code ]} (ret tt) ;;
  _compileToState code.

(** *** [_checkForUnloadedPlugins] *)

(** The callback of a plugin load started by the loop. *)
Definition on_plugin_loaded (plugins : Val) (success : bool) : M unit :=
  update (fun w => set_numLoadingPlugins (_numLoadingPlugins w - 1) w) ;;
  when (negb success)
       (setState_with (fun _ => ret (Some {[ "plugins" := plugins ]})) (ret tt)) ;;
  let* n := (fun w => (Ok (_numLoadingPlugins w), w)) in
  when (Z.eqb n 0)
       (let* st := getState in _updateCode (field st "code")).

(** The callback of the runtime polyfill's load. *)
Definition on_polyfill_loaded : M unit :=
  let* st := getState in
  if negb (truthy (field st "compiled")) then ret tt
  else
    let* evalError :=
      try_catch
        (let* st' := getState in
         emit (CallScopedEval (field st' "compiled") (field st' "sourceMap")) ;;
         match scopedEval (field st' "compiled") (field st' "sourceMap") with
         | Some error => throw (Thrown error)
         | None => ret VNull
         end)
        (fun error => ret error) in
    setState {[ "evalError" := evalError ]} (ret tt).

(** The callback of the env preset's load. *)
Definition on_envPreset_loaded (envPresetState : Val) : M unit :=
  let* p := read (fun h => getProp h envPresetState "plugin") in
  let* d := read (fun h => getProp h p "default") in
  emit (CallRegisterPreset "env" d) ;;
  let* st := getState in
  _updateCode (field st "code").

Definition run_callback (cb : LoadCallback) (success : bool) : M unit :=
  match cb with
  | PluginLoaded plugins => on_plugin_loaded plugins success
  | PolyfillLoaded => on_polyfill_loaded
  | EnvPresetLoaded envPresetState => on_envPreset_loaded envPresetState
  end.

(** [plugin.isEnabled && !plugin.isLoaded && !plugin.isLoading]. *)
Definition needs_loading (plugin : Val) (h : Heap) : Outcome Val :=
  let? e := getProp h plugin "isEnabled" in
  let? c := and_then e (let? l := getProp h plugin "isLoaded" in Ok (js_not l)) in
  and_then c (let? g := getProp h plugin "isLoading" in Ok (js_not g)).

(** One iteration of the loop over [plugins]. *)
Definition check_plugin (plugins : Val) (key : string) : M unit :=
  let* plugin := read (fun h => getProp h plugins key) in
  let* c := read (needs_loading plugin) in
  when (truthy c)
       (update (fun w => set_numLoadingPlugins (_numLoadingPlugins w + 1) w) ;;
        loadPlugin plugin (PluginLoaded plugins)).

Definition check_plugins (plugins : Val) : M unit :=
  let* keys := read (fun h => Ok (for_in_keys h plugins)) in
  forM keys (check_plugin plugins).

Definition check_polyfill (runtimePolyfillState : Val) : M unit :=
  let* c := read (fun h =>
                    let? e := getProp h runtimePolyfillState "isEnabled" in
                    and_then e (let? l := getProp h runtimePolyfillState "isLoaded" in
                                Ok (js_not l))) in
  when (truthy c) (loadPlugin runtimePolyfillState PolyfillLoaded).

Definition check_envPreset (envConfig envPresetState : Val) : M unit :=
  let* c := read (fun h =>
                    let? e := getProp h envConfig "isEnvPresetEnabled" in
                    and_then e (let? l := getProp h envPresetState "isLoaded" in
                                Ok (js_not l))) in
  when (truthy c) (loadPlugin envPresetState (EnvPresetLoaded envPresetState)).

Definition _checkForUnloadedPlugins : M unit :=
  let* st := getState in
  let envConfig := field st "envConfig" in
  let envPresetState := field st "envPresetState" in
  let plugins := field st "plugins" in
  let runtimePolyfillState := field st "runtimePolyfillState" in
  check_plugins plugins ;;
  check_polyfill runtimePolyfillState ;;
  check_envPreset envConfig envPresetState.

(** *** The handlers passed to the options panel *)

Definition _presetsUpdatedSetStateCallback : M unit :=
  _checkForUnloadedPlugins ;;
  let* st := getState in
  _updateCode (field st "code").

Definition _onEnvPresetSettingChange (name : string) (value : Val) : M unit :=
  setState_with
    (fun st =>
       let* spread := read (fun h => Ok (own_props h (field st "envConfig"))) in
       ret (Some {[ "envConfig" := VObject (define_prop name value spread) ]}))
    _presetsUpdatedSetStateCallback.

Definition _onIsSidebarExpandedChange (isExpanded : bool) : M unit :=
  setState {[ "isSidebarExpanded" := VBool isExpanded ]} _persistState.

(** The updater [_onSettingChange] passes to [setState]. *)
Definition settingChange_updater (name : string) (isEnabled : bool)
    (st : gmap string Val) : M (option (gmap string Val)) :=
  let plugins := field st "plugins" in
  let presets := field st "presets" in
  let runtimePolyfillState := field st "runtimePolyfillState" in
  if String.eqb name "babel-polyfill" then
    assign_isEnabled runtimePolyfillState isEnabled ;;
    ret (Some {[ "runtimePolyfillState" := runtimePolyfillState ]})
  else
    let* isStateKey := read (fun _ => state_hasOwnProperty st name) in
    if isStateKey then ret (Some {[ name := VBool isEnabled ]})
    else
      let* isPlugin := read (fun h => hasOwnProperty h plugins name) in
      if isPlugin then
        let* p := read (fun h => getProp h plugins name) in
        assign_isEnabled p isEnabled ;;
        ret (Some {[ "plugins" := plugins ]})
      else
        let* isPreset := read (fun h => hasOwnProperty h presets name) in
        if isPreset then
          let* p := read (fun h => getProp h presets name) in
          assign_isEnabled p isEnabled ;;
          ret (Some {[ "presets" := presets ]})
        else ret None.

Definition _onSettingChange (name : string) (isEnabled : bool) : M unit :=
  setState_with (settingChange_updater name isEnabled) _presetsUpdatedSetStateCallback.

(** *** [render] *)

Record ReplOptionsProps := mkReplOptionsProps {
  ro_builtIns : Val;
  ro_debugEnvPreset : Val;
  ro_envConfig : Val;
  ro_envPresetState : Val;
  ro_isExpanded : Val;
  ro_lineWrap : Val;
  ro_pluginState : Val;
  ro_presetState : Val;
  ro_runtimePolyfillState : Val;
}.

Record PanelProps := mkPanelProps {
  panel_code : Val;
  panel_error : Val;
  panel_info : Val;
  (** whether [onChange] is [_updateCode] *)
  panel_onChange : bool;
  panel_lineWrapping : Val;
  panel_placeholder : string;
}.

Inductive View :=
| Loader (message : Val) (animation : bool)
| Panels (options : ReplOptionsProps) (input output : PanelProps).

Definition render (st : gmap string Val) (h : Heap) : Outcome View :=
  let? isLoaded := getProp h (field st "babel") "isLoaded" in
  if negb (truthy isLoaded) then
    let? didError := getProp h (field st "babel") "didError" in
    let? message :=
      if truthy didError then
        let? errorMessage := getProp h (field st "babel") "errorMessage" in
        Ok (if truthy errorMessage then errorMessage
            else VString "An error occurred while loading Babel :(")
      else Ok (VString "Loading Babel...") in
    let? isLoading := getProp h (field st "babel") "isLoading" in
    Ok (Loader message (truthy isLoading))
  else
    Ok (Panels
          {| ro_builtIns := field st "builtIns";
             ro_debugEnvPreset := field st "debugEnvPreset";
             ro_envConfig := field st "envConfig";
             ro_envPresetState := field st "envPresetState";
             ro_isExpanded := field st "isSidebarExpanded";
             ro_lineWrap := field st "lineWrap";
             ro_pluginState := field st "plugins";
             ro_presetState := field st "presets";
             ro_runtimePolyfillState := field st "runtimePolyfillState" |}
          {| panel_code := field st "code";
             panel_error := field st "compileError";
             panel_info := VUndefined;
             panel_onChange := true;
             panel_lineWrapping := field st "lineWrap";
             panel_placeholder := "Write code here" |}
          {| panel_code := field st "compiled";
             panel_error := field st "evalError";
             panel_info := if truthy (field st "debugEnvPreset")
                           then field st "envPresetDebugInfo" else VNull;
             panel_onChange := false;
             panel_lineWrapping := field st "lineWrap";
             panel_placeholder := "Compiled output will be shown here" |}).

(** *** The event loop *)

Inductive Event :=
| Elapse (ms : nat)
| TimerFired
| LoadCompleted (i : nat) (success : bool)
| EditorChange (code : string)
| SettingChange (name : string) (isEnabled : bool)
| EnvPresetSettingChange (name : string) (value : Val)
| SidebarExpandedChange (isExpanded : bool).

(** The [i]-th load in flight completes: [loadPlugin] finishes its own
    bookkeeping on the [PluginState], then runs the callback. *)
Definition loadCompleted (i : nat) (success : bool) : M unit :=
  fun w =>
    match loading w !! i with
    | Some pending =>
        (update (fun w => set_loading (delete i (loading w)) w) ;;
         update (fun w => set_heap (heap_set (heap w) (target pending)
                                     (loadPlugin_end success (heap w (target pending)))) w) ;;
         run_callback (callback pending) success) w
    | None => (Ok tt, w)
    end.

Definition handle (e : Event) : M unit :=
  match e with
  | Elapse ms => update (fun w => set_now (now w + ms) w)
  | TimerFired => timerExpired
  | LoadCompleted i success => loadCompleted i success
  | EditorChange code => _updateCode (VString code)
  | SettingChange name isEnabled => _onSettingChange name isEnabled
  | EnvPresetSettingChange name value => _onEnvPresetSettingChange name value
  | SidebarExpandedChange isExpanded => _onIsSidebarExpandedChange isExpanded
  end.

(** An exception that escapes a handler is reported by the browser and
    the loop goes on. *)
Definition step (w : World) (e : Event) : World := snd (handle e w).

Definition run (events : list Event) (w : World) : World := fold_left step events w.

(** The calls to [compile] in a trace. *)
Definition compiled_codes (t : list Effect) : list Val :=
  omap (fun e => match e with CallCompile code _ => Some code | _ => None end) t.

End Repl.

(** ** States that inhabit the [State] type *)

(** The objects a well-typed state refers to. *)
Record Shape := mkShape {
  sh_plugins : list (string * loc);
  sh_presets : list (string * loc);
  sh_envConfig : list (string * Val);
  sh_babel : list (string * Val);
  sh_envPresetState : loc;
  sh_runtimePolyfillState : loc;
  sh_babili : loc;
  sh_prettier : loc;
}.

Definition prop (props : list (string * Val)) (k : string) : Val :=
  default VUndefined (assoc k props).

(** [st] has the fields of [State] with values of their types:
    [plugins] and [presets] are [PluginStateMap]s, [plugins] has the two
    plugins the component names, the two [PluginState] fields are
    [PluginState]s, every [PluginState] is an object of its own, and
    [envConfig.browsers] is a string. *)
Record Typed (S : Shape) (st : gmap string Val) (h : Heap) : Prop := mkTyped {
  ty_plugins : field st "plugins" = VPluginMap (sh_plugins S);
  ty_presets : field st "presets" = VPluginMap (sh_presets S);
  ty_envConfig : field st "envConfig" = VObject (sh_envConfig S);
  ty_babel : field st "babel" = VObject (sh_babel S);
  ty_envPresetState : field st "envPresetState" = VPluginState (sh_envPresetState S);
  ty_runtimePolyfillState :
    field st "runtimePolyfillState" = VPluginState (sh_runtimePolyfillState S);
  ty_babili : assoc "babili-standalone" (sh_plugins S) = Some (sh_babili S);
  ty_prettier : assoc "prettier" (sh_plugins S) = Some (sh_prettier S);
  ty_plugin_keys : NoDup (map fst (sh_plugins S));
  ty_preset_keys : NoDup (map fst (sh_presets S));
  ty_objects :
    NoDup (sh_runtimePolyfillState S :: sh_envPresetState S
             :: map snd (sh_plugins S) ++ map snd (sh_presets S));
  ty_configs : forall k l, In (k, l) (sh_presets S) -> nullish (config (h l)) = false;
  ty_browsers : exists s, prop (sh_envConfig S) "browsers" = VString s;
}.

Definition enabled_loaded (p : PluginState) : bool := isEnabled p && isLoaded p.

(** [plugin.isEnabled && !plugin.isLoaded && !plugin.isLoading] on a
    [PluginState]. *)
Definition wants_load (p : PluginState) : bool :=
  isEnabled p && negb (isLoaded p) && negb (isLoading p).

(** [presets[key].config.label] *)
Definition label_of (h : Heap) (l : loc) : Val :=
  prop (own_props h (config (h l)) ++ hidden_props (config (h l))) "label".

Definition selected_labels (h : Heap) (entries : list (string * loc)) : list Val :=
  map (fun e => label_of h (snd e))
      (List.filter (fun e => enabled_loaded (h (snd e))) entries).

(** The plugin loads in flight. *)
Definition is_plugin_load (p : PendingLoad) : bool :=
  match callback p with
  | PluginLoaded _ => true
  | _ => false
  end.

Definition plugin_loads (l : list PendingLoad) : list PendingLoad :=
  List.filter is_plugin_load l.

(** ** Start-up: the constructor and the loading of Babel *)

(** [s.split(sep)] for a separator of one character. *)
Fixpoint String_split (sep : Ascii.ascii) (s : string) : list string :=
  match s with
  | EmptyString => [EmptyString]
  | String c s' =>
      if Ascii.eqb c sep then EmptyString :: String_split sep s'
      else match String_split sep s' with
           | piece :: pieces => String c piece :: pieces
           | [] => [String c EmptyString]
           end
  end.

(** The template literal of the constructor's [reduce]. *)
Definition preset_key (key : string) : string := "babel-preset-" +:+ key.

(** [./replUtils] and [./PluginConfig] are imported by [Repl.js] and are
    not part of it.  By the [State] type, [configToState] yields a
    [PluginState] and [configArrayToStateMap] a [PluginStateMap]; the
    latter is given here with the [PluginState] of each key. *)
Class ReplUtils := {
  persistedStateToEnvConfig : Val -> Val;
  persistedStateToBabelState : Val -> Val;
  configToState : Val -> Val -> PluginState;
  configArrayToStateMap : Val -> Val -> list (string * PluginState);
  envPresetConfig : Val;
  pluginConfigs : Val;
  presetPluginConfigs : Val;
  runtimePolyfillConfig : Val;
}.

(** Modelled from the spec: the [PluginState] objects that
    [configToState] and [configArrayToStateMap] of [./replUtils] return,
    whose sources are not available.  The component owns all playground
    state: each [PluginState] is taken to be a new object, stored at the
    next free location. *)
Fixpoint allocate (next : loc) (objects : list (string * PluginState)) (h : Heap)
    : list (string * loc) * Heap :=
  match objects with
  | [] => ([], h)
  | (key, p) :: rest =>
      let (entries, h') := allocate (Datatypes.S next) rest (heap_set h next p) in
      ((key, next) :: entries, h')
  end.

Section Startup.

Context {collaborators : Collaborators} {replUtils : ReplUtils}.

(** The [defaultPresets] of the constructor. *)
Definition defaultPresets (persistedState : Val) (h : Heap) : Outcome (list (string * Val)) :=
  let? presets := getProp h persistedState "presets" in
  match (if truthy presets then presets else VString "es2015,react,stage-2") with
  | VString s =>
      Ok (fold_left (fun reduced key => define_prop (preset_key key) (VBool true) reduced)
                    (String_split ","%char s) [])
  | _ => Throw (TypeError "split is not a function")
  end.

(** The constructor, given what [loadPersistedState()] returned and the
    page the component is created in, of which the store, the clock,
    local storage and the URL matter.  The call of [loadBabel] that
    [_setupBabel] makes is not recorded; the callback it is given is
    [on_babel_loaded]. *)
Definition constructor (persistedState : Val) (page : World) : Outcome World :=
  let h := heap page in
  let? babili := getProp h persistedState "babili" in
  let? prettier := getProp h persistedState "prettier" in
  let defaultPlugins := VObject [("babili-standalone", babili); ("prettier", prettier)] in
  let? defaults := defaultPresets persistedState h in
  let envConfig := persistedStateToEnvConfig persistedState in
  let babel := persistedStateToBabelState persistedState in
  let? builtIns := getProp h persistedState "builtIns" in
  let? code := getProp h persistedState "code" in
  let? debug := getProp h persistedState "debug" in
  let? isEnvPresetEnabled := getProp h envConfig "isEnvPresetEnabled" in
  let envPresetState := configToState envPresetConfig isEnvPresetEnabled in
  let? showSidebar := getProp h persistedState "showSidebar" in
  let? lineWrap := getProp h persistedState "lineWrap" in
  let plugins := configArrayToStateMap pluginConfigs defaultPlugins in
  let presets := configArrayToStateMap presetPluginConfigs (VObject defaults) in
  let? evaluate := getProp h persistedState "evaluate" in
  let runtimePolyfillState := configToState runtimePolyfillConfig evaluate in
  let h1 := heap_set h 0 envPresetState in
  let (pluginEntries, h2) := allocate 1 plugins h1 in
  let (presetEntries, h3) := allocate (1 + length plugins) presets h2 in
  let polyfill := 1 + length plugins + length presets in
  let h4 := heap_set h3 polyfill runtimePolyfillState in
  Ok (mkWorld
        (list_to_map
           [("babel", babel);
            ("builtIns", builtIns);
            ("code", code);
            ("compiled", VNull);
            ("compileError", VNull);
            ("debugEnvPreset", debug);
            ("envConfig", envConfig);
            ("envPresetDebugInfo", VNull);
            ("envPresetState", VPluginState 0);
            ("evalError", VNull);
            ("isSidebarExpanded", showSidebar);
            ("lineWrap", lineWrap);
            ("plugins", VPluginMap pluginEntries);
            ("presets", VPluginMap presetEntries);
            ("runtimePolyfillState", VPluginState polyfill);
            ("sourceMap", VNull)])
        h4 0 [] None (now page) (localStorage page) (query page) (trace page)).

(** The callback [_setupBabel] hands to [loadBabel]: [setState] with the
    updater that spreads [babelState] and, when Babel is loaded, the
    result of [_compile], and with the callback that then checks for
    unloaded plugins.  [babelState] is the value [loadBabel] passes;
    what [loadBabel] itself writes into the [BabelState] it was given is
    its own business and is not part of this callback. *)
Definition on_babel_loaded (babelState : Val) : M unit :=
  setState_with
    (fun st =>
       let* spread := read (fun h => Ok (own_props h babelState)) in
       let* isLoaded := read (fun h => getProp h babelState "isLoaded") in
       let* compiled :=
         if truthy isLoaded then _compile (field st "code") st else ret ∅ in
       ret (Some (compiled ∪ list_to_map spread)))
    (let* isLoaded := read (fun h => getProp h babelState "isLoaded") in
     when (truthy isLoaded) _checkForUnloadedPlugins).

(** What runs code of the component once it is constructed: the
    callback of Babel's load, and the events. *)
Inductive Activation :=
| BabelLoaded (babelState : Val)
| Handled (e : Event).

Definition activate (a : Activation) : M unit :=
  match a with
  | BabelLoaded babelState => on_babel_loaded babelState
  | Handled e => handle e
  end.

Definition proceed (w : World) (a : Activation) : World := snd (activate a w).

Definition history (activations : list Activation) (w : World) : World :=
  fold_left proceed activations w.

End Startup.

(** ** Vocabulary of the specification *)

(** The env preset's entry in the [presets] handed to [compile]. *)
Definition env_entry (st : gmap string Val) (tg : Targets) : PresetEntry :=
  PresetWithOptions "env"
    {| onPresetBuild := truthy (field st "debugEnvPreset");
       targets := tg;
       useBuiltIns := if truthy (field st "evaluate") then VBool false
                      else field st "builtIns" |}.

Section Specification.

Context {collaborators : Collaborators}.

(** The world once [loadPlugin(l, cb)] has returned. *)
Definition started (l : loc) (cb : LoadCallback) (w : World) : World :=
  set_loading (loading w ++ [mkPendingLoad l cb])
    (set_heap (heap_set (heap w) l (loadPlugin_begin (heap w l)))
       (set_trace (trace w ++ [CallLoadPlugin l]) w)).

(** One iteration of the loop over [plugins], on the [PluginState] [l]. *)
Definition visit (plugins : Val) (w : World) (l : loc) : World :=
  if wants_load (heap w l)
  then started l (PluginLoaded plugins)
         (set_numLoadingPlugins (_numLoadingPlugins w + 1) w)
  else w.

(** The plugins of [ls] the loop starts loading, from the store [h]. *)
Definition to_load (h : Heap) (ls : list loc) : list loc :=
  List.filter (fun l => wants_load (h l)) ls.

(** [runtimePolyfillState.isEnabled && !runtimePolyfillState.isLoaded] *)
Definition polyfill_wanted (p : PluginState) : bool :=
  isEnabled p && negb (isLoaded p).

(** [envConfig.isEnvPresetEnabled && !envPresetState.isLoaded] *)
Definition envPreset_wanted (envConfig : list (string * Val)) (p : PluginState) : bool :=
  truthy (prop envConfig "isEnvPresetEnabled") && negb (isLoaded p).

(** The loads [_checkForUnloadedPlugins] starts from a well-typed world,
    in order. *)
Definition pass_loads (S : Shape) (h : Heap) : list PendingLoad :=
  map (fun l => mkPendingLoad l (PluginLoaded (VPluginMap (sh_plugins S))))
      (to_load h (map snd (sh_plugins S)))
  ++ (if polyfill_wanted (h (sh_runtimePolyfillState S))
      then [mkPendingLoad (sh_runtimePolyfillState S) PolyfillLoaded] else [])
  ++ (if envPreset_wanted (sh_envConfig S) (h (sh_envPresetState S))
      then [mkPendingLoad (sh_envPresetState S)
                          (EnvPresetLoaded (VPluginState (sh_envPresetState S)))]
      else []).

(** The world after [_checkForUnloadedPlugins], from a well-typed one. *)
Definition after_pass (S : Shape) (w : World) : World :=
  let w1 := fold_left (visit (VPluginMap (sh_plugins S))) (map snd (sh_plugins S)) w in
  let w2 := if polyfill_wanted (heap w (sh_runtimePolyfillState S))
            then started (sh_runtimePolyfillState S) PolyfillLoaded w1 else w1 in
  if envPreset_wanted (sh_envConfig S) (heap w (sh_envPresetState S))
  then started (sh_envPresetState S) (EnvPresetLoaded (VPluginState (sh_envPresetState S))) w2
  else w2.

(** [_onSettingChange] without the callback it passes to [setState]. *)
Definition change_setting (name : string) (isEnabled : bool) : M unit :=
  setState_with (settingChange_updater name isEnabled) (ret tt).

(** The world once the runtime polyfill's callback has evaluated the
    compiled code. *)
Definition evaluated (w : World) : World :=
  let compiled := field (state w) "compiled" in
  let sourceMap := field (state w) "sourceMap" in
  set_state (<["evalError" := match scopedEval compiled sourceMap with
                              | Some error => error
                              | None => VNull
                              end]> (state w))
            (set_trace (trace w ++ [CallScopedEval compiled sourceMap]) w).

(** The world in which the callback of the [i]-th load in flight is
    run: the load is no longer pending and [loadPlugin] has finished its
    own bookkeeping on the [PluginState]. *)
Definition load_ended (i : nat) (success : bool) (pending : PendingLoad) (w : World)
    : World :=
  set_heap (heap_set (heap w) (target pending)
                     (loadPlugin_end success (heap w (target pending))))
           (set_loading (delete i (loading w)) w).

(** The world once [_updateCode(code)] has returned. *)
Definition code_updated (code : Val) (w : World) : World :=
  set_timer (Some (code, now w)) (set_state (<["code" := code]> (state w)) w).

(** The world once [_persistState] has written [configuration]. *)
Definition persisted (configuration : Val) (w : World) : World :=
  set_query (Some configuration)
    (set_localStorage (<["replState" := configuration]> (localStorage w)) w).

(** Events that call nothing of the component but the debounce timer:
    time passing, and the timer's callback being run. *)
Definition quiet (e : Event) : bool :=
  match e with
  | Elapse _ | TimerFired => true
  | _ => false
  end.

(** The time that passes in the course of [events], in ms. *)
Fixpoint elapsed (events : list Event) : nat :=
  match events with
  | [] => 0
  | Elapse ms :: events' => ms + elapsed events'
  | _ :: events' => elapsed events'
  end.

(** A pause in typing shorter than the debounce delay. *)
Definition short_pause (pause : list Event) : Prop :=
  forallb quiet pause = true /\ elapsed pause < DEBOUNCE_DELAY.

(** A burst of edits: each is an edit of the code followed by a short
    pause. *)
Definition burst_events (burst : list (string * list Event)) : list Event :=
  flat_map (fun edit => EditorChange (fst edit) :: snd edit) burst.

(** The world once the debounced function has run on [code], from a
    world where [compile] was handed [config] and [_persistState] built
    [configuration]. *)
Definition recompiled (code : Val) (config : CompileConfig) (configuration : Val)
    (w : World) : World :=
  persisted configuration
    (set_state ((<["envPresetDebugInfo" := debugInfo_after code config]>
                   (result_object (compile code config))) ∪ state w)
       (set_trace (trace w ++ [CallCompile code config]) w)).

(** The world in which the callback of a plugin load decides whether to
    recompile: [loadPlugin] has finished its own bookkeeping, the counter
    is decremented and, when the load failed, [plugins] is set again. *)
Definition plugin_completed (i : nat) (success : bool) (pending : PendingLoad)
    (plugins : Val) (w : World) : World :=
  let w1 :=
    set_numLoadingPlugins (_numLoadingPlugins w - 1)
      (set_heap (heap_set (heap w) (target pending)
                          (loadPlugin_end success (heap w (target pending))))
         (set_loading (delete i (loading w)) w)) in
  if success then w1 else set_state (<["plugins" := plugins]> (state w1)) w1.

(** A value the loop over [plugins] can be given: a [PluginStateMap], or
    the boolean a setting change may have put in its place. *)
Definition plugins_ok (v : Val) : Prop :=
  match v with
  | VPluginMap _ | VBool _ => True
  | _ => False
  end.

Definition closure_ok (p : PendingLoad) : Prop :=
  match callback p with
  | PluginLoaded plugins => plugins_ok plugins
  | _ => True
  end.

(** The counter counts the plugin loads in flight. *)
Record Consistent (w : World) : Prop := mkConsistent {
  counter_counts : _numLoadingPlugins w = Z.of_nat (length (plugin_loads (loading w)));
  plugins_field : plugins_ok (field (state w) "plugins");
  closures : Forall closure_ok (loading w);
}.

(** The fields of the state that hold objects. *)
Definition object_fields : list string :=
  ["plugins"; "presets"; "envConfig"; "babel"; "envPresetState"; "runtimePolyfillState"].

(** [m] keeps [P]: it holds of the world [m] leaves, returning or
    throwing, when it holds of the world it starts in. *)
Definition keeps (P : World -> Prop) {A : Type} (m : M A) : Prop :=
  forall w, P w -> P (snd (m w)).

(** The state has no [evaluate] field. *)
Definition NoEvaluate (w : World) : Prop := state w !! "evaluate" = None.

End Specification.


(** ** Vocabulary of the further properties *)

(** The fields of the [State] type. *)
Definition State_fields : list string :=
  ["babel"; "builtIns"; "code"; "compiled"; "compileError"; "debugEnvPreset";
   "envConfig"; "envPresetDebugInfo"; "envPresetState"; "evalError";
   "isSidebarExpanded"; "lineWrap"; "plugins"; "presets"; "runtimePolyfillState";
   "sourceMap"].

(** The fields [_compile] returns. *)
Definition compiled_fields : list string :=
  ["compiled"; "compileError"; "evalError"; "sourceMap"; "envPresetDebugInfo"].

(** The fields the handlers name in a [setState]. *)
Definition written_fields : list string :=
  ["code"; "isSidebarExpanded"; "envConfig"; "plugins"; "presets"; "runtimePolyfillState"]
  ++ compiled_fields.

(** Local storage and the URL hold the same configuration. *)
Definition InSync (w : World) : Prop := localStorage w !! "replState" = query w.

(** Whether [c] occurs in [s]. *)
Fixpoint has_char (c : Ascii.ascii) (s : string) : bool :=
  match s with
  | EmptyString => false
  | String c' s' => Ascii.eqb c' c || has_char c s'
  end.

(** The presets the constructor enables when nothing is persisted. *)
Definition fallback_presets : list (string * Val) :=
  [("babel-preset-es2015", VBool true); ("babel-preset-react", VBool true);
   ("babel-preset-stage-2", VBool true)].

(** The names [_persistState] joins into the [presets] field, from a
    well-typed state. *)
Definition persisted_names (S : Shape) (h : Heap) : list string :=
  map join_element (selected_labels h (sh_presets S))
  ++ (if isEnabled (h (sh_babili S)) then ["babili"] else [])
  ++ (if truthy (prop (sh_envConfig S) "isEnvPresetEnabled") then ["env"] else []).

(** The entries of a [PluginStateMap] whose labels [_presetsToArray]
    returns once the [PluginState] at [l] has been given [isEnabled = b]. *)
Definition selected_after (h : Heap) (l : loc) (b : bool) (entries : list (string * loc))
    : list (string * loc) :=
  List.filter (fun e => if Nat.eqb (snd e) l then b && isLoaded (h l)
                        else enabled_loaded (h (snd e)))
              entries.

(** [v] has no own property [name]. *)
Definition lacks (name : string) (v : Val) : Prop :=
  forall h, assoc name (own_props h v) = None.

(** The [babelState] handed to the callback of Babel's load has no own
    property named [plugins] or [evaluate], as the [BabelState] type
    has none. *)
Definition plain_babelState (a : Activation) : Prop :=
  match a with
  | BabelLoaded babelState => lacks "plugins" babelState /\ lacks "evaluate" babelState
  | Handled _ => True
  end.

(** *** What an event may write *)

Inductive Write :=
| WState (partial : gmap string Val)
| WEnabled (l : loc) (b : bool)
| WBegin (l : loc)
| WEnd (l : loc) (success : bool)
| WCounter (n : Z)
| WLoading (ls : list PendingLoad)
| WTimer (t : option (Val * nat))
| WNow (n : nat)
| WPersist (configuration : Val)
| WTrace (effect : Effect).

Definition is_elapse (e : Event) : bool :=
  match e with Elapse _ => true | _ => false end.
Definition is_timer (e : Event) : bool :=
  match e with TimerFired => true | _ => false end.
Definition is_load (e : Event) : bool :=
  match e with LoadCompleted _ _ => true | _ => false end.
Definition is_edit (e : Event) : bool :=
  match e with EditorChange _ => true | _ => false end.
Definition is_setting (e : Event) : bool :=
  match e with SettingChange _ _ => true | _ => false end.
Definition is_envSetting (e : Event) : bool :=
  match e with EnvPresetSettingChange _ _ => true | _ => false end.
Definition is_sidebar (e : Event) : bool :=
  match e with SidebarExpandedChange _ => true | _ => false end.

(** The calls an event may make. *)
Definition may_call (e : Event) (effect : Effect) : bool :=
  match effect with
  | CallCompile _ _ => is_timer e
  | CallScopedEval _ _ => is_load e
  | CallLoadPlugin _ => is_setting e || is_envSetting e
  | CallRegisterPreset _ _ => is_load e
  end.

(** The writes an event may make, in the world it makes them in. *)
Definition may_write (e : Event) (w : World) (x : Write) : Prop :=
  match x with
  | WState partial =>
      forall k, is_Some (partial !! k) -> In k written_fields \/ is_Some (state w !! k)
  | WEnabled _ _ => is_setting e = true
  | WBegin _ => is_setting e || is_envSetting e = true
  | WEnd _ _ => is_load e = true
  | WCounter _ => is_setting e || is_envSetting e || is_load e = true
  | WLoading _ => is_setting e || is_envSetting e || is_load e = true
  | WTimer _ => is_elapse e || is_sidebar e = false
  | WNow n => is_elapse e = true /\ now w <= n
  | WPersist _ => is_timer e || is_sidebar e = true
  | WTrace effect => may_call e effect = true
  end.

Section Footprint.

Context {collaborators : Collaborators}.

Definition write (x : Write) (w : World) : World :=
  match x with
  | WState partial => set_state (partial ∪ state w) w
  | WEnabled l b => set_heap (heap_set (heap w) l (with_isEnabled b (heap w l))) w
  | WBegin l => set_heap (heap_set (heap w) l (loadPlugin_begin (heap w l))) w
  | WEnd l success => set_heap (heap_set (heap w) l (loadPlugin_end success (heap w l))) w
  | WCounter n => set_numLoadingPlugins n w
  | WLoading ls => set_loading ls w
  | WTimer t => set_timer t w
  | WNow n => set_now n w
  | WPersist configuration => persisted configuration w
  | WTrace effect => set_trace (trace w ++ [effect]) w
  end.

(** [P] survives every write [e] may make. *)
Definition survives (e : Event) (P : World -> Prop) : Prop :=
  forall w x, may_write e w x -> P w -> P (write x w).

End Footprint.

(** ** A concrete playground

    Babel is loaded; the presets es2015 and react are enabled and baked
    in, stage-2 is disabled; the babili plugin is enabled and still to
    load, as are the runtime polyfill and the env preset; nothing is
    compiled yet. *)

Definition example_collaborators : Collaborators :=
  {| compile := fun _ _ => mkCompileResult (VString "compiled") VNull VNull VNull;
     presetBuilds := fun _ _ => [VString "targets: ie 11"];
     getDebugInfoFromEnvResult := fun result => result;
     envConfigToTargetsString := fun _ => VString "";
     scopedEval := fun _ _ => Some (VString "ReferenceError");
     browserTargets := fun s => [s];
     loadPlugin_begin := fun p =>
       mkPluginState (config p) false (isEnabled p) (isLoaded p) true (plugin p);
     loadPlugin_end := fun success p =>
       mkPluginState (config p) (negb success) (isEnabled p) success false
                     (VObject [("default", VString "module")]) |}.

Definition example_pluginState (label : string) (enabled loaded : bool) : PluginState :=
  mkPluginState (VObject [("label", VString label)]) false enabled loaded false VNull.

Definition example_heap : Heap :=
  fun l =>
    match l with
    | 0 => example_pluginState "Minify (Babili)" true false
    | 1 => example_pluginState "Prettify" false false
    | 2 => example_pluginState "es2015" true true
    | 3 => example_pluginState "react" true true
    | 4 => example_pluginState "stage-2" false true
    | 5 => example_pluginState "Evaluate" true false
    | _ => example_pluginState "Env Preset" true false
    end.

Definition example_plugins : list (string * loc) :=
  [("babili-standalone", 0); ("prettier", 1)].

Definition example_presets : list (string * loc) :=
  [("babel-preset-es2015", 2); ("babel-preset-react", 3); ("babel-preset-stage-2", 4)].

Definition example_envConfig : list (string * Val) :=
  [("browsers", VString "ie 11"); ("electron", VString "1.5");
   ("isEnvPresetEnabled", VBool true); ("isElectronEnabled", VBool false);
   ("isNodeEnabled", VBool false); ("node", VString "7.4")].

Definition example_babel : list (string * Val) :=
  [("build", VString ""); ("circleciRepo", VString ""); ("didError", VBool false);
   ("isLoaded", VBool true); ("isLoading", VBool false); ("version", VString "6.26.0")].

Definition example_state : gmap string Val :=
  list_to_map
    [("babel", VObject example_babel);
     ("builtIns", VBool true);
     ("code", VString "const f = x => x");
     ("compiled", VNull);
     ("compileError", VNull);
     ("debugEnvPreset", VBool true);
     ("envConfig", VObject example_envConfig);
     ("envPresetDebugInfo", VNull);
     ("envPresetState", VPluginState 6);
     ("evalError", VNull);
     ("isSidebarExpanded", VBool true);
     ("lineWrap", VBool false);
     ("plugins", VPluginMap example_plugins);
     ("presets", VPluginMap example_presets);
     ("runtimePolyfillState", VPluginState 5);
     ("sourceMap", VNull)].

Definition example_shape : Shape :=
  {| sh_plugins := example_plugins;
     sh_presets := example_presets;
     sh_envConfig := example_envConfig;
     sh_babel := example_babel;
     sh_envPresetState := 6;
     sh_runtimePolyfillState := 5;
     sh_babili := 0;
     sh_prettier := 1 |}.

Definition example_world : World :=
  mkWorld example_state example_heap 0 [] None 0 ∅ None [].

(** The same playground once every module is loaded. *)
Definition loaded_heap : Heap :=
  fun l =>
    let p := example_heap l in
    mkPluginState (config p) false (isEnabled p) true false
                  (VObject [("default", VString "module")]).

Definition loaded_world : World :=
  mkWorld example_state loaded_heap 0 [] None 0 ∅ None [].

(** The helpers of [./replUtils] for the same playground: a
    [PluginState] per config, enabled when the defaults say so; the
    presets are baked into Babel, everything else is still to load. *)
Definition example_stateMap (loaded : bool) (configs defaults : Val)
    : list (string * PluginState) :=
  match configs, defaults with
  | VObject configs, VObject defaults =>
      map (fun c => (fst c, mkPluginState (snd c) false (truthy (prop defaults (fst c)))
                                          loaded false VNull))
          configs
  | _, _ => []
  end.

Definition example_replUtils : ReplUtils :=
  {| persistedStateToEnvConfig := fun _ => VObject example_envConfig;
     persistedStateToBabelState := fun _ =>
       VObject [("build", VString ""); ("circleciRepo", VString "");
                ("didError", VBool false); ("isLoaded", VBool false);
                ("isLoading", VBool true); ("version", VString "6.26.0")];
     configToState := fun config isEnabled =>
       mkPluginState config false (truthy isEnabled) false false VNull;
     configArrayToStateMap := fun configs defaults =>
       match configs with
       | VObject (("babili-standalone", _) :: _) => example_stateMap false configs defaults
       | _ => example_stateMap true configs defaults
       end;
     envPresetConfig := VObject [("label", VString "Env Preset")];
     pluginConfigs :=
       VObject [("babili-standalone", VObject [("label", VString "Minify (Babili)")]);
                ("prettier", VObject [("label", VString "Prettify")])];
     presetPluginConfigs :=
       VObject [("babel-preset-es2015", VObject [("label", VString "es2015")]);
                ("babel-preset-react", VObject [("label", VString "react")]);
                ("babel-preset-stage-2", VObject [("label", VString "stage-2")])];
     runtimePolyfillConfig := VObject [("label", VString "Evaluate")] |}.

(** What a first visit finds persisted, and what a visit finds after the
    playground above has persisted its state. *)
Definition example_firstVisit : Val :=
  VObject [("babili", VBool false); ("builtIns", VBool false); ("code", VString "");
           ("debug", VBool false); ("evaluate", VBool false); ("lineWrap", VBool false);
           ("prettier", VBool false); ("showSidebar", VBool true)].

Definition example_persistedState : Val :=
  VObject [("babili", VBool true); ("browsers", VString "ie 11"); ("build", VString "");
           ("builtIns", VBool true); ("circleciRepo", VString "");
           ("code", VString "const f = x => x"); ("debug", VBool true);
           ("evaluate", VBool true); ("lineWrap", VBool false);
           ("presets", VString "es2015,react,babili,env"); ("prettier", VBool false);
           ("showSidebar", VBool true); ("targets", VString "");
           ("version", VString "6.26.0")].

(** The page before the component exists. *)
Definition example_page : World :=
  mkWorld ∅ (fun _ => example_pluginState "" false false) 0 [] None 0 ∅ None [].

(** A playground with nothing switched on. *)
Definition bare_heap : Heap := fun _ => example_pluginState "" false true.

Definition bare_envConfig : list (string * Val) :=
  [("browsers", VString ""); ("isEnvPresetEnabled", VBool false)].

Definition bare_state : gmap string Val :=
  <["envConfig" := VObject bare_envConfig]> example_state.

Definition bare_shape : Shape :=
  {| sh_plugins := example_plugins;
     sh_presets := example_presets;
     sh_envConfig := bare_envConfig;
     sh_babel := example_babel;
     sh_envPresetState := 6;
     sh_runtimePolyfillState := 5;
     sh_babili := 0;
     sh_prettier := 1 |}.

(** The playground once [plugins] holds a boolean and a compilation is
    due. *)
Definition clobbered_world : World :=
  mkWorld (<["plugins" := VBool true]> example_state) example_heap 0 []
          (Some (VString "x", 0)) 500 ∅ None [].

(** ** Properties *)

Section Properties.

Context {collaborators : Collaborators}.

Local Arguments getProp : simpl never.
Local Arguments hasOwnProperty : simpl never.
Local Arguments loadPlugin : simpl never.
Local Arguments _persistState : simpl never.
Local Arguments _compile : simpl never.
Local Arguments _compile_config : simpl never.
Local Arguments persisted_configuration : simpl never.
Local Arguments compileToState_body : simpl never.
Local Arguments timerExpired : simpl never.
Local Arguments _updateCode : simpl never.
Local Arguments _checkForUnloadedPlugins : simpl never.
Local Arguments on_polyfill_loaded : simpl never.
Local Arguments run : simpl never.
Local Arguments step : simpl never.

(** *** Reading typed values *)

Lemma assoc_app_nil {A : Type} (k : string) (l : list (string * A)) :
  assoc k (l ++ []) = assoc k l.
Proof. by rewrite app_nil_r. Qed.

Lemma assoc_entries (k : string) (entries : list (string * loc)) :
  assoc k (map (fun e : string * loc => (fst e, VPluginState (snd e))) entries)
  = VPluginState <$> assoc k entries.
Proof.
  induction entries as [|[k' l] entries IH]; simpl; [done|].
  destruct (String.eqb k' k); [done|apply IH].
Qed.

Lemma assoc_In {A : Type} (k : string) (a : A) (l : list (string * A)) :
  NoDup (map fst l) -> In (k, a) l -> assoc k l = Some a.
Proof.
  induction l as [|[k' a'] l IH]; simpl; [done|].
  rewrite NoDup_cons. intros [Hk Hl] [Heq|Hin].
  - inversion Heq; subst. by rewrite String.eqb_refl.
  - destruct (String.eqb_spec k' k) as [->|_]; [|by apply IH].
    exfalso. apply Hk. apply list_elem_of_In.
    change k with (fst (k, a)). by apply in_map.
Qed.

Lemma assoc_Some_In {A : Type} (k : string) (a : A) (l : list (string * A)) :
  assoc k l = Some a -> In (k, a) l.
Proof.
  induction l as [|[k' a'] l IH]; simpl; [done|].
  destruct (String.eqb_spec k' k) as [->|_].
  - intros [= ->]. by left.
  - intros H. right. by apply IH.
Qed.

Lemma getProp_entry (h : Heap) (entries : list (string * loc)) (k : string) (l : loc) :
  assoc k entries = Some l ->
  getProp h (VPluginMap entries) k = Ok (VPluginState l).
Proof.
  intros H. unfold getProp. simpl. by rewrite app_nil_r, assoc_entries, H.
Qed.

Lemma getProp_object (h : Heap) (props : list (string * Val)) (k : string) :
  getProp h (VObject props) k = Ok (prop props k).
Proof. unfold getProp, prop. simpl. by rewrite app_nil_r. Qed.

Lemma getProp_isEnabled (h : Heap) (l : loc) :
  getProp h (VPluginState l) "isEnabled" = Ok (VBool (isEnabled (h l))).
Proof. reflexivity. Qed.

Lemma getProp_isLoaded (h : Heap) (l : loc) :
  getProp h (VPluginState l) "isLoaded" = Ok (VBool (isLoaded (h l))).
Proof. reflexivity. Qed.

Lemma getProp_isLoading (h : Heap) (l : loc) :
  getProp h (VPluginState l) "isLoading" = Ok (VBool (isLoading (h l))).
Proof. reflexivity. Qed.

Lemma getProp_config (h : Heap) (l : loc) :
  getProp h (VPluginState l) "config" = Ok (config (h l)).
Proof. reflexivity. Qed.

Lemma getProp_label (h : Heap) (l : loc) :
  nullish (config (h l)) = false ->
  getProp h (config (h l)) "label" = Ok (label_of h l).
Proof. intros H. unfold getProp, label_of, prop. by rewrite H. Qed.

Lemma filterO_ok {A : Type} (f : A -> Outcome bool) (g : A -> bool) (l : list A) :
  (forall a, In a l -> f a = Ok (g a)) -> filterO f l = Ok (List.filter g l).
Proof.
  induction l as [|a l IH]; simpl; intros H; [done|].
  rewrite (H a) by auto. simpl. rewrite IH by auto. simpl. by destruct (g a).
Qed.

Lemma mapO_ok {A B : Type} (f : A -> Outcome B) (g : A -> B) (l : list A) :
  (forall a, In a l -> f a = Ok (g a)) -> mapO f l = Ok (map g l).
Proof.
  induction l as [|a l IH]; simpl; intros H; [done|].
  rewrite (H a) by auto. simpl. by rewrite IH by auto.
Qed.

Lemma filter_keys {A : Type} (g : A -> bool) (d : A) (l : list (string * A)) :
  NoDup (map fst l) ->
  List.filter (fun k => g (default d (assoc k l))) (map fst l)
  = map fst (List.filter (fun e => g (snd e)) l).
Proof.
  intros Hnd.
  assert (Hsub : forall e, In e l -> In e l) by auto.
  revert Hsub. generalize l at 1 4 5 as todo.
  induction todo as [|[k a] todo IH]; simpl; intros Hsub; [done|].
  rewrite (assoc_In k a l) by auto. simpl.
  destruct (g a); simpl; rewrite IH by auto; done.
Qed.

Lemma map_keys {A B : Type} (g : A -> B) (d : A) (l sub : list (string * A)) :
  NoDup (map fst l) -> (forall e, In e sub -> In e l) ->
  map (fun k => g (default d (assoc k l))) (map fst sub) = map (fun e => g (snd e)) sub.
Proof.
  intros Hnd. induction sub as [|[k a] sub IH]; simpl; intros Hsub; [done|].
  rewrite (assoc_In k a l) by auto. simpl. by rewrite IH by auto.
Qed.

Lemma presetsToArray_typed (st : gmap string Val) (h : Heap) (entries : list (string * loc)) :
  field st "presets" = VPluginMap entries ->
  NoDup (map fst entries) ->
  (forall k l, In (k, l) entries -> nullish (config (h l)) = false) ->
  _presetsToArray st h = Ok (selected_labels h entries).
Proof.
  intros Hp Hnd Hcfg. unfold _presetsToArray. rewrite Hp.
  unfold Object_keys. cbn. rewrite map_map. cbn.
  change (map (fun x : string * loc => x.1) entries) with (map fst entries).
  rewrite (filterO_ok _ (fun k => enabled_loaded (h (default 0 (assoc k entries))))).
  2:{ intros k Hk. apply in_map_iff in Hk as [[k' l] [<- Hin]]. cbn.
      rewrite (getProp_entry h entries k' l) by (by apply assoc_In). cbn.
      rewrite getProp_isEnabled. cbn. rewrite (assoc_In k' l) by done. cbn.
      unfold and_then, enabled_loaded. cbn. destruct (isEnabled (h l)); cbn; [|done].
      rewrite getProp_isLoaded. by destruct (isLoaded (h l)). }
  cbn. rewrite (filter_keys (fun l => enabled_loaded (h l)) 0) by done.
  rewrite (mapO_ok _ (fun k => label_of h (default 0 (assoc k entries)))).
  2:{ intros k Hk. apply in_map_iff in Hk as [[k' l] [<- Hin]]. cbn.
      apply filter_In in Hin as [Hin _].
      rewrite (getProp_entry h entries k' l) by (by apply assoc_In). cbn.
      rewrite (assoc_In k' l) by done. cbn.
      apply getProp_label. by apply (Hcfg k'). }
  unfold selected_labels. f_equal.
  apply (map_keys (label_of h) 0); [done|].
  intros e He. by apply filter_In in He as [? _].
Qed.

Lemma env_targets_typed (h : Heap) (ec : list (string * Val)) (s : string) :
  prop ec "browsers" = VString s ->
  exists tg, env_targets (VObject ec) h = Ok tg.
Proof.
  intros Hb. unfold env_targets. rewrite !getProp_object, Hb. cbn.
  destruct (negb (String.eqb s "")); cbn;
    destruct (truthy (prop ec "isElectronEnabled")); cbn;
    destruct (truthy (prop ec "isNodeEnabled")); cbn; eauto.
Qed.

Lemma compile_config_typed (S : Shape) (st : gmap string Val) (h : Heap) :
  Typed S st h ->
  exists tg,
    _compile_config st h =
    Ok {| evaluate := VBool (enabled_loaded (h (sh_runtimePolyfillState S)));
          presets :=
            (map Preset (selected_labels h (sh_presets S))
             ++ (if enabled_loaded (h (sh_babili S)) then [Preset (VString "babili")] else []))
            ++ (if truthy (prop (sh_envConfig S) "isEnvPresetEnabled")
                   && isLoaded (h (sh_envPresetState S))
                then [env_entry st tg] else []);
          prettify := VBool (isEnabled (h (sh_prettier S)));
          sourceMap := VBool (isEnabled (h (sh_runtimePolyfillState S))) |}.
Proof.
  intros T. destruct (ty_browsers _ _ _ T) as [s Hs].
  destruct (env_targets_typed h _ _ Hs) as [tg Htg]. exists tg.
  unfold _compile_config.
  rewrite (presetsToArray_typed st h (sh_presets S))
    by (first [apply T | apply (ty_configs _ _ _ T)]).
  rewrite (ty_plugins _ _ _ T), (ty_envConfig _ _ _ T), (ty_envPresetState _ _ _ T),
    (ty_runtimePolyfillState _ _ _ T).
  cbn. rewrite !(getProp_entry h _ _ _ (ty_babili _ _ _ T)),
    !(getProp_entry h _ _ _ (ty_prettier _ _ _ T)).
  cbn. rewrite !getProp_isEnabled. cbn.
  rewrite !getProp_object. cbn. rewrite Htg.
  unfold and_then, enabled_loaded, env_entry, js_not. cbn.
  rewrite ?getProp_isLoaded, ?getProp_isEnabled. cbn.
  destruct (truthy (prop (sh_envConfig S) "isEnvPresetEnabled")) eqn:Henv;
    destruct (isEnabled (h (sh_babili S))), (isLoaded (h (sh_babili S))),
      (isLoaded (h (sh_envPresetState S))),
      (isEnabled (h (sh_runtimePolyfillState S))),
      (isLoaded (h (sh_runtimePolyfillState S))),
      (truthy (field st "evaluate"));
    cbn; rewrite ?Henv; cbn; rewrite ?app_nil_r; reflexivity.
Qed.

(** The array [_persistState] joins. *)
Definition persisted_presets (S : Shape) (h : Heap) : list Val :=
  (selected_labels h (sh_presets S)
   ++ (if isEnabled (h (sh_babili S)) then [VString "babili"] else []))
  ++ (if truthy (prop (sh_envConfig S) "isEnvPresetEnabled") then [VString "env"] else []).

Lemma persisted_configuration_typed (S : Shape) (st : gmap string Val) (h : Heap) :
  Typed S st h ->
  persisted_configuration st h =
  Ok (VObject
        [("babili", VBool (isEnabled (h (sh_babili S))));
         ("browsers", prop (sh_envConfig S) "browsers");
         ("build", prop (sh_babel S) "build");
         ("builtIns", field st "builtIns");
         ("circleciRepo", prop (sh_babel S) "circleciRepo");
         ("code", field st "code");
         ("debug", field st "debugEnvPreset");
         ("evaluate", VBool (isEnabled (h (sh_runtimePolyfillState S))));
         ("lineWrap", field st "lineWrap");
         ("presets", VString (Array_join "," (persisted_presets S h)));
         ("prettier", VBool (isEnabled (h (sh_prettier S))));
         ("showSidebar", field st "isSidebarExpanded");
         ("targets", envConfigToTargetsString (VObject (sh_envConfig S)));
         ("version", prop (sh_babel S) "version")]).
Proof.
  intros T. unfold persisted_configuration.
  rewrite (presetsToArray_typed st h (sh_presets S))
    by (first [apply T | apply (ty_configs _ _ _ T)]).
  rewrite (ty_plugins _ _ _ T), (ty_envConfig _ _ _ T), (ty_babel _ _ _ T),
    (ty_runtimePolyfillState _ _ _ T).
  cbn. rewrite !(getProp_entry h _ _ _ (ty_babili _ _ _ T)),
    !(getProp_entry h _ _ _ (ty_prettier _ _ _ T)).
  cbn. rewrite !getProp_isEnabled. cbn.
  rewrite !getProp_object. cbn.
  unfold persisted_presets.
  destruct (isEnabled (h (sh_babili S))),
    (truthy (prop (sh_envConfig S) "isEnvPresetEnabled")); cbn;
    rewrite ?app_nil_r; reflexivity.
Qed.

(** *** Inverting a computation that returned *)

Lemma obind_Ok {A B : Type} (m : Outcome A) (k : A -> Outcome B) (b : B) :
  obind m k = Ok b -> exists a, m = Ok a /\ k a = Ok b.
Proof. destruct m as [a|e]; cbn; [eauto|discriminate]. Qed.

Ltac invert_obind H :=
  let a := fresh "v" in
  let Ha := fresh "E" in
  apply obind_Ok in H as (a & Ha & H); cbn beta in H.

(** What [_compile] hands to [compile], whatever the state holds: the
    names of presets, then the env entry when the env preset is enabled
    and loaded. *)
Lemma compile_config_inv (st : gmap string Val) (h : Heap) (cfg : CompileConfig) :
  _compile_config st h = Ok cfg ->
  exists (names : list Val) (envEnabled envOn polyfillEnabled : Val) (tg : Targets),
    getProp h (field st "envConfig") "isEnvPresetEnabled" = Ok envEnabled
    /\ and_then envEnabled (getProp h (field st "envPresetState") "isLoaded") = Ok envOn
    /\ presets cfg = map Preset names ++ (if truthy envOn then [env_entry st tg] else [])
    /\ getProp h (field st "runtimePolyfillState") "isEnabled" = Ok polyfillEnabled
    /\ and_then polyfillEnabled (getProp h (field st "runtimePolyfillState") "isLoaded")
       = Ok (evaluate cfg).
Proof.
  unfold _compile_config. intros H.
  invert_obind H. invert_obind H. invert_obind H. invert_obind H.
  invert_obind H. invert_obind H. invert_obind H. invert_obind H.
  invert_obind H. invert_obind H. invert_obind H. invert_obind H.
  injection H as <-. cbn.
  exists (if truthy v2 then v ++ [VString "babili"] else v), v3, v4, v6.
  destruct (truthy v4) eqn:Hon.
  - invert_obind E5. injection E5 as <-. exists v11.
    repeat split; try done.
    unfold env_entry, js_not. destruct (truthy v2); cbn; rewrite ?map_app; cbn;
      destruct (truthy (field st "evaluate")); reflexivity.
  - injection E5 as <-. exists (mkTargets None None None).
    repeat split; try done.
    destruct (truthy v2); cbn; rewrite ?map_app, ?app_nil_r; reflexivity.
Qed.

Lemma has_onPresetBuild_names (names : list Val) (rest : list PresetEntry) :
  existsb (fun e => match e with
                    | PresetWithOptions _ o => onPresetBuild o
                    | Preset _ => false
                    end) (map Preset names ++ rest)
  = existsb (fun e => match e with
                      | PresetWithOptions _ o => onPresetBuild o
                      | Preset _ => false
                      end) rest.
Proof. induction names; cbn; auto. Qed.

Lemma In_names (names : list Val) (rest : list PresetEntry) (name : string) (o : EnvOptions) :
  In (PresetWithOptions name o) (map Preset names ++ rest) ->
  In (PresetWithOptions name o) rest.
Proof.
  intros H. apply in_app_or in H as [H|H]; [|done].
  apply in_map_iff in H as (? & ? & ?). discriminate.
Qed.

Lemma fold_last_result (results : list Val) (init : Val) :
  fold_left (fun (_ : Val) result => getDebugInfoFromEnvResult result) results init = init
  \/ exists result, In result results
       /\ fold_left (fun (_ : Val) result => getDebugInfoFromEnvResult result) results init
          = getDebugInfoFromEnvResult result.
Proof.
  revert init. induction results as [|r results IH]; intros init; cbn; [by left|].
  destruct (IH (getDebugInfoFromEnvResult r)) as [H|(r' & Hin & H)].
  - right. exists r. split; [by left|done].
  - right. exists r'. split; [by right|done].
Qed.

Lemma compile_returns (code : Val) (st : gmap string Val) (w : World)
    (partial : gmap string Val) (w' : World) :
  _compile code st w = (Ok partial, w') ->
  exists cfg,
    _compile_config st (heap w) = Ok cfg
    /\ w' = set_trace (trace w ++ [CallCompile code cfg]) w
    /\ partial = <["envPresetDebugInfo" := debugInfo_after code cfg]>
                   (result_object (compile code cfg)).
Proof.
  unfold _compile, bind, read, emit, update, ret. cbn.
  destruct (_compile_config st (heap w)) as [cfg|e]; [|discriminate].
  intros [= <- <-]. by exists cfg.
Qed.

Lemma compile_throws (code : Val) (st : gmap string Val) (w : World) (e : Exn) (w' : World) :
  _compile code st w = (Throw e, w') -> w' = w.
Proof.
  unfold _compile, bind, read, emit, update, ret. cbn.
  destruct (_compile_config st (heap w)) as [cfg|e']; [discriminate|].
  by intros [= _ <-].
Qed.

(** *** The pass over the unloaded plugins *)

Lemma loadPlugin_started (l : loc) (cb : LoadCallback) (w : World) :
  loadPlugin (VPluginState l) cb w = (Ok tt, started l cb w).
Proof. reflexivity. Qed.

Lemma needs_loading_typed (h : Heap) (l : loc) :
  needs_loading (VPluginState l) h = Ok (VBool (wants_load (h l))).
Proof.
  unfold needs_loading, wants_load, and_then, js_not.
  rewrite getProp_isEnabled. cbn. rewrite getProp_isLoaded, getProp_isLoading. cbn.
  destruct (isEnabled (h l)); cbn; [|done].
  destruct (isLoaded (h l)); cbn; done.
Qed.

Lemma check_plugin_entry (entries : list (string * loc)) (key : string) (l : loc) (w : World) :
  assoc key entries = Some l ->
  check_plugin (VPluginMap entries) key w = (Ok tt, visit (VPluginMap entries) w l).
Proof.
  intros H. unfold check_plugin, bind, read, when, visit.
  rewrite (getProp_entry _ _ _ _ H), needs_loading_typed. cbn.
  destruct (wants_load (heap w l)); reflexivity.
Qed.

Lemma forM_entries (entries todo : list (string * loc)) (w : World) :
  NoDup (map fst entries) -> (forall e, In e todo -> In e entries) ->
  forM (map fst todo) (check_plugin (VPluginMap entries)) w
  = (Ok tt, fold_left (visit (VPluginMap entries)) (map snd todo) w).
Proof.
  intros Hnd. revert w. induction todo as [|[k l] todo IH]; intros w Hsub; cbn; [done|].
  unfold bind.
  rewrite (check_plugin_entry entries k l) by (apply assoc_In; [done|apply Hsub; by left]).
  apply IH. intros e He. apply Hsub. by right.
Qed.

Lemma check_plugins_typed (entries : list (string * loc)) (w : World) :
  NoDup (map fst entries) ->
  check_plugins (VPluginMap entries) w
  = (Ok tt, fold_left (visit (VPluginMap entries)) (map snd entries) w).
Proof.
  intros Hnd. unfold check_plugins, bind, read, for_in_keys. cbn.
  rewrite map_map. cbn. apply forM_entries; auto.
Qed.

Lemma heap_set_same (h : Heap) (l : loc) (p : PluginState) : heap_set h l p l = p.
Proof. unfold heap_set. by rewrite Nat.eqb_refl. Qed.

Lemma heap_set_other (h : Heap) (l l' : loc) (p : PluginState) :
  l' <> l -> heap_set h l p l' = h l'.
Proof. intros H. unfold heap_set. by apply Nat.eqb_neq in H as ->. Qed.

(** The loop, on [PluginState]s that are objects of their own. *)
Lemma visit_all (plugins : Val) (ls : list loc) (w : World) :
  NoDup ls ->
  let w' := fold_left (visit plugins) ls w in
  loading w' = loading w ++ map (fun l => mkPendingLoad l (PluginLoaded plugins))
                                (to_load (heap w) ls)
  /\ _numLoadingPlugins w' = (_numLoadingPlugins w + Z.of_nat (length (to_load (heap w) ls)))%Z
  /\ trace w' = trace w ++ map CallLoadPlugin (to_load (heap w) ls)
  /\ (forall l, ~ In l ls -> heap w' l = heap w l)
  /\ (forall l, In l ls ->
        heap w' l = if wants_load (heap w l) then loadPlugin_begin (heap w l) else heap w l)
  /\ state w' = state w /\ timer w' = timer w /\ now w' = now w
  /\ localStorage w' = localStorage w /\ query w' = query w.
Proof.
  revert w. induction ls as [|l ls IH]; intros w Hnd; cbn.
  { rewrite !app_nil_r. repeat split; try done. lia. }
  apply NoDup_cons in Hnd as [Hl Hnd]. rewrite list_elem_of_In in Hl.
  destruct (IH (visit plugins w l) Hnd) as (Hld & Hn & Htr & Hout & Hin & Hst & Htm & Hnow & Hls & Hq).
  assert (Hagree : forall l', l' <> l -> heap (visit plugins w l) l' = heap w l').
  { intros l' Hne. unfold visit. destruct (wants_load (heap w l)); [|done].
    cbn. by apply heap_set_other. }
  assert (Hsame : to_load (heap (visit plugins w l)) ls = to_load (heap w) ls).
  { unfold to_load. apply filter_ext_in. intros l' Hl'. rewrite Hagree; [done|].
    intros ->. done. }
  rewrite Hsame in *.
  assert (Hhere : heap (visit plugins w l) l
                  = if wants_load (heap w l) then loadPlugin_begin (heap w l) else heap w l).
  { unfold visit. destruct (wants_load (heap w l)); [|done]. cbn. apply heap_set_same. }
  repeat split.
  - rewrite Hld. unfold visit. destruct (wants_load (heap w l)); cbn; [|done].
    by rewrite <- app_assoc.
  - rewrite Hn. unfold visit. destruct (wants_load (heap w l)); cbn -[Z.of_nat Z.add];
      unfold to_load; lia.
  - rewrite Htr. unfold visit. destruct (wants_load (heap w l)); cbn; [|done].
    by rewrite <- app_assoc.
  - intros l' Hl'. cbn in Hl'. rewrite Hout by tauto. apply Hagree. intros ->. tauto.
  - intros l' [<-|Hl'].
    + by rewrite Hout.
    + rewrite Hin by done. rewrite Hagree; [done|]. by intros ->.
  - rewrite Hst. unfold visit. by destruct (wants_load (heap w l)).
  - rewrite Htm. unfold visit. by destruct (wants_load (heap w l)).
  - rewrite Hnow. unfold visit. by destruct (wants_load (heap w l)).
  - rewrite Hls. unfold visit. by destruct (wants_load (heap w l)).
  - rewrite Hq. unfold visit. by destruct (wants_load (heap w l)).
Qed.

Lemma Typed_objects (S : Shape) (st : gmap string Val) (h : Heap) :
  Typed S st h ->
  NoDup (map snd (sh_plugins S))
  /\ ~ In (sh_runtimePolyfillState S) (map snd (sh_plugins S))
  /\ ~ In (sh_envPresetState S) (map snd (sh_plugins S))
  /\ sh_envPresetState S <> sh_runtimePolyfillState S.
Proof.
  intros T. pose proof (ty_objects _ _ _ T) as H.
  apply NoDup_cons in H as [H1 H]. apply NoDup_cons in H as [H2 H].
  apply NoDup_app in H as (H & _ & _).
  rewrite not_elem_of_cons, not_elem_of_app in H1.
  rewrite not_elem_of_app in H2.
  rewrite <- !list_elem_of_In. intuition congruence.
Qed.

Lemma pass_typed (S : Shape) (w : World) :
  Typed S (state w) (heap w) ->
  _checkForUnloadedPlugins w = (Ok tt, after_pass S w).
Proof.
  intros T. destruct (Typed_objects _ _ _ T) as (Hnd & Hr & He & Hne).
  unfold _checkForUnloadedPlugins, bind, getState, after_pass.
  rewrite (ty_plugins _ _ _ T), (ty_envConfig _ _ _ T), (ty_envPresetState _ _ _ T),
    (ty_runtimePolyfillState _ _ _ T).
  rewrite check_plugins_typed by apply T.
  destruct (visit_all (VPluginMap (sh_plugins S)) (map snd (sh_plugins S)) w Hnd)
    as (_ & _ & _ & Hout & _).
  set (w1 := fold_left _ _ w) in *.
  unfold check_polyfill, bind, read, and_then, js_not, when.
  rewrite getProp_isEnabled. cbn. rewrite getProp_isLoaded. cbn.
  rewrite (Hout _ Hr). unfold polyfill_wanted.
  assert (Hw2 : forall w2, heap w2 (sh_envPresetState S) = heap w (sh_envPresetState S) ->
    check_envPreset (VObject (sh_envConfig S)) (VPluginState (sh_envPresetState S)) w2
    = (Ok tt, if envPreset_wanted (sh_envConfig S) (heap w (sh_envPresetState S))
              then started (sh_envPresetState S)
                     (EnvPresetLoaded (VPluginState (sh_envPresetState S))) w2
              else w2)).
  { intros w2 Hw2. unfold check_envPreset, bind, read, and_then, js_not, when, envPreset_wanted.
    rewrite getProp_object. cbn. rewrite getProp_isLoaded. cbn. rewrite Hw2.
    destruct (truthy (prop (sh_envConfig S) "isEnvPresetEnabled")) eqn:Hen; cbn;
      rewrite ?Hen; [|done].
    destruct (isLoaded (heap w (sh_envPresetState S))); done. }
  destruct (isEnabled (heap w (sh_runtimePolyfillState S))); cbn.
  - destruct (isLoaded (heap w (sh_runtimePolyfillState S))); cbn.
    + apply Hw2. by apply Hout.
    + rewrite loadPlugin_started. apply Hw2. cbn.
      rewrite heap_set_other by done. by apply Hout.
  - apply Hw2. by apply Hout.
Qed.

Lemma compiled_codes_app (t t' : list Effect) :
  compiled_codes (t ++ t') = compiled_codes t ++ compiled_codes t'.
Proof. apply omap_app. Qed.

Lemma compiled_codes_loads (ls : list loc) : compiled_codes (map CallLoadPlugin ls) = [].
Proof. induction ls; cbn; auto. Qed.

Lemma after_pass_spec (S : Shape) (w : World) :
  Typed S (state w) (heap w) ->
  loading (after_pass S w) = loading w ++ pass_loads S (heap w)
  /\ _numLoadingPlugins (after_pass S w)
     = (_numLoadingPlugins w
        + Z.of_nat (length (to_load (heap w) (map snd (sh_plugins S)))))%Z
  /\ state (after_pass S w) = state w
  /\ timer (after_pass S w) = timer w
  /\ now (after_pass S w) = now w
  /\ localStorage (after_pass S w) = localStorage w
  /\ query (after_pass S w) = query w
  /\ compiled_codes (trace (after_pass S w)) = compiled_codes (trace w).
Proof.
  intros T. destruct (Typed_objects _ _ _ T) as (Hnd & Hr & He & Hne).
  destruct (visit_all (VPluginMap (sh_plugins S)) (map snd (sh_plugins S)) w Hnd)
    as (Hld & Hn & Htr & _ & _ & Hst & Htm & Hnow & Hls & Hq).
  unfold after_pass, pass_loads. cbn zeta in *.
  set (w1 := fold_left _ _ w) in *.
  assert (Hcc : compiled_codes (trace w1) = compiled_codes (trace w)).
  { by rewrite Htr, compiled_codes_app, compiled_codes_loads, app_nil_r. }
  assert (Hsnoc : forall t l, compiled_codes (t ++ [CallLoadPlugin l]) = compiled_codes t).
  { intros t l. rewrite compiled_codes_app. cbn. by rewrite app_nil_r. }
  destruct (polyfill_wanted _), (envPreset_wanted _ _); cbn;
    rewrite ?Hsnoc, ?Hld, ?Hn, ?Hst, ?Htm, ?Hnow, ?Hls, ?Hq, ?Hcc, <- ?app_assoc, ?app_nil_r;
    repeat split; reflexivity.
Qed.

Lemma after_pass_trace (S : Shape) (w : World) :
  Typed S (state w) (heap w) ->
  trace (after_pass S w)
  = trace w ++ map (fun p => CallLoadPlugin (target p)) (pass_loads S (heap w)).
Proof.
  intros T. destruct (Typed_objects _ _ _ T) as (Hnd & _).
  destruct (visit_all (VPluginMap (sh_plugins S)) (map snd (sh_plugins S)) w Hnd)
    as (_ & _ & Htr & _).
  unfold after_pass, pass_loads. cbn zeta. rewrite !map_app, map_map. cbn [target].
  destruct (polyfill_wanted _), (envPreset_wanted _ _); cbn;
    rewrite Htr, <- ?app_assoc, ?app_nil_r; reflexivity.
Qed.

(** *** The setters commute with the projections *)

Lemma set_state_id (w : World) : set_state (state w) w = w.
Proof. by destruct w. Qed.

Lemma set_now_id (w : World) : set_now (now w) w = w.
Proof. by destruct w. Qed.

Lemma merge_singleton (k : string) (v : Val) (st : gmap string Val) :
  {[ k := v ]} ∪ st = <[k := v]> st.
Proof. symmetry. apply insert_union_singleton_l. Qed.

Lemma field_insert (k k' : string) (v : Val) (st : gmap string Val) :
  field (<[k := v]> st) k' = if decide (k = k') then v else field st k'.
Proof. unfold field. rewrite lookup_insert. by destruct (decide (k = k')). Qed.

Lemma field_insert_ne (k k' : string) (v : Val) (st : gmap string Val) :
  k <> k' -> field (<[k := v]> st) k' = field st k'.
Proof. intros H. rewrite field_insert. by destruct (decide (k = k')). Qed.

Lemma field_Some (st : gmap string Val) (k : string) (v : Val) :
  field st k = v -> v <> VUndefined -> st !! k = Some v.
Proof.
  unfold field. destruct (st !! k) as [v'|]; cbn; [by intros ->|].
  intros <-. done.
Qed.

(** *** [_updateCode], the timer and [_persistState] *)

Lemma updateCode_spec (code : Val) (w : World) :
  _updateCode code w = (Ok tt, code_updated code w).
Proof.
  unfold _updateCode, setState, _compileToState, bind, update, ret, code_updated. cbn.
  by rewrite merge_singleton.
Qed.

Lemma on_polyfill_loaded_spec (w : World) :
  on_polyfill_loaded w
  = (Ok tt, if truthy (field (state w) "compiled") then evaluated w else w).
Proof.
  unfold on_polyfill_loaded, bind, getState, evaluated.
  destruct (truthy (field (state w) "compiled")); cbn; [|done].
  unfold try_catch, bind, emit, update, setState, ret, throw. cbn.
  destruct (scopedEval _ _); cbn; by rewrite merge_singleton.
Qed.

Lemma persistState_Ok (w : World) (configuration : Val) :
  persisted_configuration (state w) (heap w) = Ok configuration ->
  _persistState w = (Ok tt, persisted configuration w).
Proof.
  intros H. unfold _persistState, bind, getState, read. cbn. by rewrite H.
Qed.

Lemma persistState_Throw (w : World) (e : Exn) :
  persisted_configuration (state w) (heap w) = Throw e ->
  _persistState w = (Throw e, w).
Proof.
  intros H. unfold _persistState, bind, getState, read. cbn. by rewrite H.
Qed.

Lemma compileToState_body_unfold (code : Val) (w : World) :
  compileToState_body code w
  = match _compile code (state w) w with
    | (Ok partial, w1) => _persistState (set_state (partial ∪ state w1) w1)
    | (Throw e, w1) => (Throw e, w1)
    end.
Proof.
  unfold compileToState_body, setState_with, bind, getState.
  destruct (_compile code (state w) w) as [[partial|e] w1]; reflexivity.
Qed.

Lemma timerExpired_due (code : Val) (t : nat) (w : World) :
  timer w = Some (code, t) -> DEBOUNCE_DELAY <= now w - t ->
  timerExpired w = compileToState_body code (set_timer None w).
Proof.
  intros Ht Hdue. unfold timerExpired. rewrite Ht.
  apply Nat.leb_le in Hdue as ->. reflexivity.
Qed.

Lemma timerExpired_early (code : Val) (t : nat) (w : World) :
  timer w = Some (code, t) -> now w - t < DEBOUNCE_DELAY ->
  timerExpired w = (Ok tt, w).
Proof.
  intros Ht Hearly. unfold timerExpired. rewrite Ht.
  apply Nat.leb_gt in Hearly as ->. reflexivity.
Qed.

Lemma timerExpired_idle (w : World) :
  timer w = None -> timerExpired w = (Ok tt, w).
Proof. intros Ht. unfold timerExpired. by rewrite Ht. Qed.

Lemma onIsSidebarExpandedChange_spec (isExpanded : bool) (w : World) :
  _onIsSidebarExpandedChange isExpanded w
  = _persistState (set_state (<["isSidebarExpanded" := VBool isExpanded]> (state w)) w).
Proof.
  unfold _onIsSidebarExpandedChange, setState, bind, update. cbn.
  by rewrite merge_singleton.
Qed.

(** [Typed] only constrains six fields of the state. *)
Lemma Typed_insert (S : Shape) (st : gmap string Val) (h : Heap) (k : string) (v : Val) :
  k <> "plugins" -> k <> "presets" -> k <> "envConfig" -> k <> "babel" ->
  k <> "envPresetState" -> k <> "runtimePolyfillState" ->
  Typed S st h -> Typed S (<[k := v]> st) h.
Proof.
  intros ? ? ? ? ? ? T. destruct T. split; try done; by rewrite field_insert_ne.
Qed.

Lemma Typed_compiled (S : Shape) (st : gmap string Val) (h : Heap)
    (info : Val) (r : CompileResult) :
  Typed S st h ->
  Typed S ((<["envPresetDebugInfo" := info]> (result_object r)) ∪ st) h.
Proof.
  intros T. unfold result_object.
  rewrite <- !insert_union_l, (left_id_L ∅ (∪)).
  repeat (apply Typed_insert; try done).
Qed.

(** *** [_onSettingChange] *)

Lemma hasOwnProperty_entries (h : Heap) (entries : list (string * loc)) (k : string) :
  assoc "hasOwnProperty" entries = None ->
  hasOwnProperty h (VPluginMap entries) k = Ok (bool_decide (is_Some (assoc k entries))).
Proof.
  intros H. unfold hasOwnProperty. cbn. rewrite app_nil_r, !assoc_entries, H. cbn.
  by destruct (assoc k entries).
Qed.

Lemma state_hasOwnProperty_spec (st : gmap string Val) (k : string) :
  st !! "hasOwnProperty" = None ->
  state_hasOwnProperty st k = Ok (bool_decide (is_Some (st !! k))).
Proof. intros H. unfold state_hasOwnProperty. by rewrite H. Qed.

Lemma change_setting_unfold (name : string) (isEnabled : bool) (w : World) :
  change_setting name isEnabled w
  = match settingChange_updater name isEnabled (state w) w with
    | (Ok (Some partial), w') => (Ok tt, set_state (partial ∪ state w') w')
    | (Ok None, w') => (Ok tt, w')
    | (Throw e, w') => (Throw e, w')
    end.
Proof.
  unfold change_setting, setState_with, bind, getState.
  destruct (settingChange_updater name isEnabled (state w) w) as [[[partial|]|e] w'];
    reflexivity.
Qed.

Lemma onSettingChange_unfold (name : string) (isEnabled : bool) (w : World) :
  _onSettingChange name isEnabled w
  = match change_setting name isEnabled w with
    | (Ok _, w') => _presetsUpdatedSetStateCallback w'
    | (Throw e, w') => (Throw e, w')
    end.
Proof.
  unfold _onSettingChange, change_setting, setState_with, bind, getState, ret.
  destruct (settingChange_updater name isEnabled (state w) w) as [[[partial|]|e] w'];
    reflexivity.
Qed.

(** The world once [isEnabled] has been assigned on the [PluginState] [l]. *)
Lemma assign_isEnabled_spec (l : loc) (b : bool) (w : World) :
  assign_isEnabled (VPluginState l) b w
  = (Ok tt, set_heap (heap_set (heap w) l (with_isEnabled b (heap w l))) w).
Proof. reflexivity. Qed.

Lemma updater_polyfill (S : Shape) (w : World) (b : bool) :
  Typed S (state w) (heap w) ->
  change_setting "babel-polyfill" b w
  = (Ok tt, set_heap (heap_set (heap w) (sh_runtimePolyfillState S)
                               (with_isEnabled b (heap w (sh_runtimePolyfillState S)))) w).
Proof.
  intros T. rewrite change_setting_unfold. unfold settingChange_updater. cbn.
  rewrite (ty_runtimePolyfillState _ _ _ T). unfold bind.
  rewrite assign_isEnabled_spec. cbn. rewrite merge_singleton.
  rewrite insert_id; [by destruct w|].
  apply field_Some; [apply T|done].
Qed.

Lemma updater_state_key (w : World) (name : string) (b : bool) :
  name <> "babel-polyfill" ->
  (state w) !! "hasOwnProperty" = None ->
  is_Some ((state w) !! name) ->
  change_setting name b w = (Ok tt, set_state (<[name := VBool b]> (state w)) w).
Proof.
  intros Hn Hh Hk. rewrite change_setting_unfold. unfold settingChange_updater.
  apply String.eqb_neq in Hn as ->. unfold bind, read.
  rewrite state_hasOwnProperty_spec by done.
  rewrite bool_decide_eq_true_2 by done. cbn. by rewrite merge_singleton.
Qed.

Lemma updater_plugin (S : Shape) (w : World) (name : string) (b : bool) (l : loc) :
  Typed S (state w) (heap w) ->
  name <> "babel-polyfill" ->
  (state w) !! "hasOwnProperty" = None ->
  (state w) !! name = None ->
  assoc "hasOwnProperty" (sh_plugins S) = None ->
  assoc name (sh_plugins S) = Some l ->
  change_setting name b w
  = (Ok tt, set_heap (heap_set (heap w) l (with_isEnabled b (heap w l))) w).
Proof.
  intros T Hn Hh Hk Hp Hl. rewrite change_setting_unfold. unfold settingChange_updater.
  apply String.eqb_neq in Hn as ->. unfold bind, read.
  rewrite state_hasOwnProperty_spec by done.
  rewrite bool_decide_eq_false_2 by (rewrite Hk; by intros [? ?]).
  rewrite (ty_plugins _ _ _ T), hasOwnProperty_entries by done.
  rewrite bool_decide_eq_true_2 by (by rewrite Hl).
  rewrite (getProp_entry _ _ _ _ Hl), assign_isEnabled_spec. cbn.
  rewrite merge_singleton, insert_id; [by destruct w|].
  apply field_Some; [apply T|done].
Qed.

Lemma updater_preset (S : Shape) (w : World) (name : string) (b : bool) (l : loc) :
  Typed S (state w) (heap w) ->
  name <> "babel-polyfill" ->
  (state w) !! "hasOwnProperty" = None ->
  (state w) !! name = None ->
  assoc "hasOwnProperty" (sh_plugins S) = None ->
  assoc name (sh_plugins S) = None ->
  assoc "hasOwnProperty" (sh_presets S) = None ->
  assoc name (sh_presets S) = Some l ->
  change_setting name b w
  = (Ok tt, set_heap (heap_set (heap w) l (with_isEnabled b (heap w l))) w).
Proof.
  intros T Hn Hh Hk Hp Hnp Hq Hl. rewrite change_setting_unfold. unfold settingChange_updater.
  apply String.eqb_neq in Hn as ->. unfold bind, read.
  rewrite state_hasOwnProperty_spec by done.
  rewrite bool_decide_eq_false_2 by (rewrite Hk; by intros [? ?]).
  rewrite (ty_plugins _ _ _ T), hasOwnProperty_entries by done.
  rewrite bool_decide_eq_false_2 by (rewrite Hnp; by intros [? ?]).
  rewrite (ty_presets _ _ _ T), hasOwnProperty_entries by done.
  rewrite bool_decide_eq_true_2 by (by rewrite Hl).
  rewrite (getProp_entry _ _ _ _ Hl), assign_isEnabled_spec. cbn.
  rewrite merge_singleton, insert_id; [by destruct w|].
  apply field_Some; [apply T|done].
Qed.

Lemma updater_unknown (S : Shape) (w : World) (name : string) (b : bool) :
  Typed S (state w) (heap w) ->
  name <> "babel-polyfill" ->
  (state w) !! "hasOwnProperty" = None ->
  (state w) !! name = None ->
  assoc "hasOwnProperty" (sh_plugins S) = None ->
  assoc name (sh_plugins S) = None ->
  assoc "hasOwnProperty" (sh_presets S) = None ->
  assoc name (sh_presets S) = None ->
  settingChange_updater name b (state w) w = (Ok None, w).
Proof.
  intros T Hn Hh Hk Hp Hnp Hq Hnq. unfold settingChange_updater.
  apply String.eqb_neq in Hn as ->. unfold bind, read.
  rewrite state_hasOwnProperty_spec by done.
  rewrite bool_decide_eq_false_2 by (rewrite Hk; by intros [? ?]).
  rewrite (ty_plugins _ _ _ T), hasOwnProperty_entries by done.
  rewrite bool_decide_eq_false_2 by (rewrite Hnp; by intros [? ?]).
  rewrite (ty_presets _ _ _ T), hasOwnProperty_entries by done.
  rewrite bool_decide_eq_false_2 by (rewrite Hnq; by intros [? ?]).
  reflexivity.
Qed.

(** *** The debounce *)

Lemma compileToState_body_typed (S : Shape) (code : Val) (w : World) :
  Typed S (state w) (heap w) ->
  exists config configuration,
    _compile_config (state w) (heap w) = Ok config
    /\ persisted_configuration
         ((<["envPresetDebugInfo" := debugInfo_after code config]>
             (result_object (compile code config))) ∪ state w) (heap w)
       = Ok configuration
    /\ compileToState_body code w = (Ok tt, recompiled code config configuration w).
Proof.
  intros T. destruct (compile_config_typed _ _ _ T) as [tg Hcfg].
  match type of Hcfg with _ = Ok ?c => set (cfg := c) in * end.
  exists cfg. eexists. split; [exact Hcfg|].
  pose proof (Typed_compiled S (state w) (heap w)
                (debugInfo_after code cfg) (compile code cfg) T) as T'.
  split; [exact (persisted_configuration_typed _ _ _ T')|].
  rewrite compileToState_body_unfold. unfold _compile, bind, read, emit, update, ret.
  rewrite Hcfg. cbn.
  erewrite persistState_Ok; [reflexivity|].
  cbn. exact (persisted_configuration_typed _ _ _ T').
Qed.

Lemma step_Elapse (w : World) (ms : nat) : step w (Elapse ms) = set_now (now w + ms) w.
Proof. reflexivity. Qed.

Lemma step_EditorChange (w : World) (code : string) :
  step w (EditorChange code) = code_updated (VString code) w.
Proof. unfold step, handle. by rewrite updateCode_spec. Qed.

Lemma run_nil (w : World) : run [] w = w.
Proof. reflexivity. Qed.

Lemma run_cons (e : Event) (es : list Event) (w : World) :
  run (e :: es) w = run es (step w e).
Proof. reflexivity. Qed.

Lemma run_app (es es' : list Event) (w : World) : run (es ++ es') w = run es' (run es w).
Proof. apply fold_left_app. Qed.

Lemma set_now_set_now (n m : nat) (w : World) : set_now n (set_now m w) = set_now n w.
Proof. reflexivity. Qed.

(** While the timer is not due, quiet events only move the clock. *)
Lemma run_waiting (code : Val) (t : nat) (es : list Event) (w : World) :
  timer w = Some (code, t) ->
  forallb quiet es = true ->
  now w + elapsed es - t < DEBOUNCE_DELAY ->
  run es w = set_now (now w + elapsed es) w.
Proof.
  revert w. induction es as [|e es IH]; intros w Ht Hq Hd; rewrite ?run_cons, ?run_nil; cbn.
  { by rewrite Nat.add_0_r, set_now_id. }
  cbn in Hq. apply andb_true_iff in Hq as [He Hq].
  destruct e; try discriminate; cbn in Hd.
  - rewrite step_Elapse, IH; cbn; [|done|done|lia].
    unfold set_now; cbn. f_equal. lia.
  - unfold step, handle. rewrite (timerExpired_early code t) by (done || lia). cbn.
    by apply IH.
Qed.

(** With no invocation owed, quiet events only move the clock. *)
Lemma run_idle (es : list Event) (w : World) :
  timer w = None ->
  forallb quiet es = true ->
  run es w = set_now (now w + elapsed es) w.
Proof.
  revert w. induction es as [|e es IH]; intros w Ht Hq; rewrite ?run_cons, ?run_nil; cbn.
  { by rewrite Nat.add_0_r, set_now_id. }
  cbn in Hq. apply andb_true_iff in Hq as [He Hq].
  destruct e; try discriminate.
  - rewrite step_Elapse, IH; cbn; [|done|done]. unfold set_now; cbn. f_equal. lia.
  - unfold step, handle. rewrite timerExpired_idle by done. cbn. by apply IH.
Qed.

(** Quiet events, from a well-typed world that owes an invocation on
    [code]: either the timer has not run while due, and only the clock
    moved, or it has, once. *)
Lemma run_quiet (S : Shape) (code : Val) (t : nat) (es : list Event) (w : World) :
  Typed S (state w) (heap w) ->
  timer w = Some (code, t) ->
  forallb quiet es = true ->
  run es w = set_now (now w + elapsed es) w
  \/ exists config configuration n,
       _compile_config (state w) (heap w) = Ok config
       /\ persisted_configuration
            ((<["envPresetDebugInfo" := debugInfo_after code config]>
                (result_object (compile code config))) ∪ state w) (heap w)
          = Ok configuration
       /\ run es w = set_now n (recompiled code config configuration (set_timer None w)).
Proof.
  revert w. induction es as [|e es IH]; intros w T Ht Hq; rewrite ?run_cons, ?run_nil; cbn.
  { left. by rewrite Nat.add_0_r, set_now_id. }
  cbn in Hq. apply andb_true_iff in Hq as [He Hq].
  destruct e; try discriminate.
  - rewrite step_Elapse.
    destruct (IH (set_now (now w + ms) w) T Ht Hq) as [H|(cfg & conf & n & Hc & Hp & H)].
    + left. rewrite H. unfold set_now; cbn. f_equal. lia.
    + right. exists cfg, conf, n. split; [done|]. split; [done|]. by rewrite H.
  - unfold step, handle.
    destruct (Nat.lt_ge_cases (now w - t) DEBOUNCE_DELAY) as [Hearly|Hdue].
    + rewrite (timerExpired_early code t) by done. cbn. by apply IH.
    + rewrite (timerExpired_due code t) by done.
      destruct (compileToState_body_typed S code (set_timer None w) T)
        as (cfg & conf & Hc & Hp & Hb).
      rewrite Hb. cbn [snd]. right. exists cfg, conf.
      eexists. split; [exact Hc|]. split; [exact Hp|]. by rewrite run_idle.
Qed.

Lemma run_burst (S : Shape) (burst : list (string * list Event)) (w : World) :
  Typed S (state w) (heap w) ->
  Forall (fun edit => short_pause (snd edit)) burst ->
  Typed S (state (run (burst_events burst) w)) (heap (run (burst_events burst) w))
  /\ trace (run (burst_events burst) w) = trace w.
Proof.
  revert w. induction burst as [|[code pause] burst IH]; intros w T Hb; [done|].
  apply Forall_cons in Hb as [[Hq Hd] Hb]. cbn in Hq, Hd.
  cbn [burst_events flat_map fst snd]. rewrite <- app_comm_cons, run_cons, run_app.
  rewrite step_EditorChange.
  rewrite (run_waiting (VString code) (now w) pause (code_updated (VString code) w));
    [|reflexivity|exact Hq|cbn; lia].
  apply (IH (set_now _ (code_updated (VString code) w))); [|done].
  cbn. by apply Typed_insert.
Qed.

(** What the debounced function leaves behind, from a well-typed world. *)
Lemma recompiled_facts (S : Shape) (code : Val) (config : CompileConfig)
    (configuration : Val) (w : World) :
  Typed S (state w) (heap w) ->
  persisted_configuration
    ((<["envPresetDebugInfo" := debugInfo_after code config]>
        (result_object (compile code config))) ∪ state w) (heap w)
  = Ok configuration ->
  exists props,
    configuration = VObject props
    /\ prop props "code" = field (state w) "code"
    /\ query (recompiled code config configuration w) = Some (VObject props)
    /\ localStorage (recompiled code config configuration w) !! "replState"
       = Some (VObject props)
    /\ trace (recompiled code config configuration w) = trace w ++ [CallCompile code config].
Proof.
  intros T Hp.
  pose proof (Typed_compiled S (state w) (heap w)
                (debugInfo_after code config) (compile code config) T) as T'.
  rewrite (persisted_configuration_typed _ _ _ T') in Hp. injection Hp as <-.
  eexists. split; [reflexivity|]. split.
  - unfold prop. cbn. unfold result_object.
    rewrite <- !insert_union_l, (left_id_L ∅ (∪)).
    by rewrite !field_insert_ne.
  - cbn. by rewrite lookup_insert_eq.
Qed.

(** *** A setting change, from a well-typed world *)

Lemma Typed_heap_ext (S : Shape) (st : gmap string Val) (h h' : Heap) :
  (forall k l, In (k, l) (sh_presets S) -> config (h' l) = config (h l)) ->
  Typed S st h -> Typed S st h'.
Proof.
  intros Hcfg T. pose proof (ty_configs _ _ _ T) as Hc. destruct T. split; try done.
  intros k l Hin. rewrite (Hcfg k l Hin). by apply (Hc k).
Qed.

Lemma Typed_preset_other (S : Shape) (st : gmap string Val) (h : Heap) (k : string) (l : loc) :
  Typed S st h -> In (k, l) (sh_presets S) ->
  l <> sh_runtimePolyfillState S /\ l <> sh_envPresetState S
  /\ ~ In l (map snd (sh_plugins S)).
Proof.
  intros T Hin. pose proof (ty_objects _ _ _ T) as H.
  assert (Hl : l ∈ map snd (sh_presets S)).
  { apply list_elem_of_In. change l with (snd (k, l)). by apply in_map. }
  apply NoDup_cons in H as [H1 H]. apply NoDup_cons in H as [H2 H].
  apply NoDup_app in H as (_ & H3 & _).
  rewrite not_elem_of_cons, not_elem_of_app in H1. rewrite not_elem_of_app in H2.
  rewrite <- list_elem_of_In.
  repeat split; [intros ->; tauto|intros ->; tauto|].
  intros Hp. by apply (H3 l).
Qed.

Lemma after_pass_presets (S : Shape) (w : World) (k : string) (l : loc) :
  Typed S (state w) (heap w) -> In (k, l) (sh_presets S) ->
  heap (after_pass S w) l = heap w l.
Proof.
  intros T Hin. destruct (Typed_preset_other _ _ _ _ _ T Hin) as (Hr & He & Hp).
  destruct (Typed_objects _ _ _ T) as (Hnd & _).
  destruct (visit_all (VPluginMap (sh_plugins S)) (map snd (sh_plugins S)) w Hnd)
    as (_ & _ & _ & Hout & _).
  unfold after_pass. cbn zeta.
  destruct (polyfill_wanted _), (envPreset_wanted _ _); cbn;
    rewrite ?heap_set_other by done; by apply Hout.
Qed.

Lemma change_setting_typed (S : Shape) (w : World) (name : string) (isEnabled : bool) :
  Typed S (state w) (heap w) ->
  state w !! "hasOwnProperty" = None ->
  assoc "hasOwnProperty" (sh_plugins S) = None ->
  assoc "hasOwnProperty" (sh_presets S) = None ->
  ~ In name object_fields ->
  exists w1,
    change_setting name isEnabled w = (Ok tt, w1)
    /\ Typed S (state w1) (heap w1)
    /\ now w1 = now w /\ localStorage w1 = localStorage w /\ query w1 = query w.
Proof.
  intros T Hh Hp Hq Hname.
  assert (Hflag : forall l,
    Typed S (state w)
      (heap (set_heap (heap_set (heap w) l (with_isEnabled isEnabled (heap w l))) w))).
  { intros l. apply (Typed_heap_ext S (state w) (heap w)); [|done].
    intros k l' _. cbn. unfold heap_set. by destruct (Nat.eqb l' l) eqn:E;
      [apply Nat.eqb_eq in E as ->|]. }
  destruct (String.eqb_spec name "babel-polyfill") as [->|Hn].
  { eexists. split; [by apply (updater_polyfill S)|]. by split; [apply Hflag|]. }
  destruct (state w !! name) as [v|] eqn:Hk.
  { eexists. split; [apply updater_state_key; by rewrite ?Hk|].
    split; [|done]. cbn in *. apply Typed_insert; try done; intros ->; tauto. }
  destruct (assoc name (sh_plugins S)) as [l|] eqn:Hl.
  { eexists. split; [by apply (updater_plugin S)|]. by split; [apply Hflag|]. }
  destruct (assoc name (sh_presets S)) as [l|] eqn:Hl'.
  { eexists. split; [by apply (updater_preset S)|]. by split; [apply Hflag|]. }
  exists w. split; [|done]. rewrite change_setting_unfold. by rewrite (updater_unknown S).
Qed.

(** A setting is changed, the debounce delay passes, the timer runs:
    the state is persisted. *)
Lemma settingChange_persists (S : Shape) (w : World) (name : string) (isEnabled : bool)
    (ms : nat) :
  Typed S (state w) (heap w) ->
  state w !! "hasOwnProperty" = None ->
  assoc "hasOwnProperty" (sh_plugins S) = None ->
  assoc "hasOwnProperty" (sh_presets S) = None ->
  ~ In name object_fields ->
  DEBOUNCE_DELAY <= ms ->
  let w' := run [SettingChange name isEnabled; Elapse ms; TimerFired] w in
  exists props,
    persisted_configuration (state w') (heap w') = Ok (VObject props)
    /\ localStorage w' !! "replState" = Some (VObject props)
    /\ query w' = Some (VObject props).
Proof.
  intros T Hh Hp Hq Hname Hms w'.
  assert (Hw' : exists code cfg conf w3,
             Typed S (state w3) (heap w3)
             /\ persisted_configuration
                  ((<["envPresetDebugInfo" := debugInfo_after code cfg]>
                      (result_object (compile code cfg))) ∪ state w3) (heap w3)
                = Ok conf
             /\ w' = recompiled code cfg conf w3).
  { subst w'.
    destruct (change_setting_typed S w name isEnabled T Hh Hp Hq Hname)
      as (w1 & Hcs & T1 & _).
    rewrite !run_cons, run_nil. unfold step at 3. cbn [handle].
    rewrite onSettingChange_unfold, Hcs.
    unfold _presetsUpdatedSetStateCallback, bind, getState.
    rewrite (pass_typed S w1 T1), updateCode_spec. cbn [snd].
    destruct (after_pass_spec S w1 T1) as (_ & _ & Hst & _).
    set (w2 := code_updated _ (after_pass S w1)).
    assert (T2 : Typed S (state w2) (heap w2)).
    { cbn. apply Typed_insert; try done. rewrite Hst.
      apply (Typed_heap_ext S (state w1) (heap w1)); [|done].
      intros k l Hin. by rewrite (after_pass_presets S w1 k l). }
    rewrite step_Elapse. unfold step, handle.
    rewrite (timerExpired_due (field (state (after_pass S w1)) "code")
               (now (after_pass S w1))) by (done || cbn; lia).
    destruct (compileToState_body_typed S (field (state (after_pass S w1)) "code")
                (set_timer None (set_now (now w2 + ms) w2)) T2)
      as (cfg & conf & _ & Hpc & ->). cbn [snd].
    by exists (field (state (after_pass S w1)) "code"), cfg, conf,
      (set_timer None (set_now (now w2 + ms) w2)). }
  destruct Hw' as (code & cfg & conf & w3 & T3 & Hpc & ->).
  destruct (recompiled_facts S code cfg conf w3 T3 Hpc)
    as (props & -> & _ & Hquery & Hls & _).
  exists props. split; [|by split].
  unfold recompiled, persisted. cbn [state heap set_query set_localStorage set_state set_trace].
  exact Hpc.
Qed.

Lemma plugin_loads_app (l l' : list PendingLoad) :
  plugin_loads (l ++ l') = plugin_loads l ++ plugin_loads l'.
Proof. apply List.filter_app. Qed.

Lemma NoDup_filter_bool {A : Type} (f : A -> bool) (l : list A) :
  NoDup l -> NoDup (List.filter f l).
Proof.
  induction l as [|a l IH]; cbn; [done|].
  rewrite NoDup_cons. intros [Ha Hl]. destruct (f a); [|by apply IH].
  apply NoDup_cons. split; [|by apply IH].
  rewrite list_elem_of_In, filter_In. rewrite list_elem_of_In in Ha. tauto.
Qed.

Lemma plugin_loads_pass (S : Shape) (h : Heap) :
  plugin_loads (pass_loads S h)
  = map (fun l => mkPendingLoad l (PluginLoaded (VPluginMap (sh_plugins S))))
        (to_load h (map snd (sh_plugins S))).
Proof.
  unfold pass_loads. rewrite !plugin_loads_app.
  assert (H : forall ls,
    plugin_loads (map (fun l => mkPendingLoad l (PluginLoaded (VPluginMap (sh_plugins S)))) ls)
    = map (fun l => mkPendingLoad l (PluginLoaded (VPluginMap (sh_plugins S)))) ls).
  { induction ls as [|l ls IH]; cbn; [done|]. unfold plugin_loads in IH. by rewrite IH. }
  rewrite H. destruct (polyfill_wanted _), (envPreset_wanted _ _); cbn; by rewrite app_nil_r.
Qed.

Lemma callback_Ok (w : World) :
  fst (_presetsUpdatedSetStateCallback w) = Ok tt ->
  exists w2, snd (_presetsUpdatedSetStateCallback w) = code_updated (field (state w2) "code") w2.
Proof.
  unfold _presetsUpdatedSetStateCallback, bind, getState.
  destruct (_checkForUnloadedPlugins w) as [[[]|e] w2]; [|discriminate].
  rewrite updateCode_spec. intros _. by exists w2.
Qed.

(** *** The counter of plugin loads *)

Lemma Consistent_ext (w w' : World) :
  _numLoadingPlugins w' = _numLoadingPlugins w ->
  loading w' = loading w ->
  field (state w') "plugins" = field (state w) "plugins" ->
  Consistent w -> Consistent w'.
Proof. intros Hn Hl Hp [? ? ?]. split; by rewrite ?Hn, ?Hl, ?Hp. Qed.

Lemma keeps_ret (P : World -> Prop) {A : Type} (a : A) : keeps P (ret a).
Proof. by intros w. Qed.

Lemma keeps_throw (P : World -> Prop) {A : Type} (e : Exn) : keeps P (throw (A := A) e).
Proof. by intros w. Qed.

Lemma keeps_bind (P : World -> Prop) {A B : Type} (m : M A) (k : A -> M B) :
  keeps P m -> (forall a, keeps P (k a)) -> keeps P (bind m k).
Proof.
  intros Hm Hk w Hw. unfold bind. specialize (Hm w Hw).
  destruct (m w) as [[a|e] w']; cbn in *; [by apply Hk|done].
Qed.

Lemma keeps_read (P : World -> Prop) {A : Type} (f : Heap -> Outcome A) : keeps P (read f).
Proof. by intros w. Qed.

Lemma keeps_getState (P : World -> Prop) : keeps P getState.
Proof. by intros w. Qed.

Lemma keeps_when (P : World -> Prop) (b : bool) (m : M unit) :
  keeps P m -> keeps P (when b m).
Proof. destruct b; [done|]. intros _. apply keeps_ret. Qed.

Lemma keeps_update (P : World -> Prop) (f : World -> World) :
  (forall w, P w -> P (f w)) -> keeps P (update f).
Proof. intros H w Hw. by apply H. Qed.

Lemma keeps_emit (e : Effect) : keeps Consistent (emit e).
Proof. apply keeps_update. intros w. by apply Consistent_ext. Qed.

Lemma keeps_forM (P : World -> Prop) (l : list string) (body : string -> M unit) :
  (forall k, keeps P (body k)) -> keeps P (forM l body).
Proof.
  intros H. induction l as [|k l IH]; cbn; [apply keeps_ret|].
  apply keeps_bind; [apply H|done].
Qed.

Lemma keeps_updateCode (code : Val) : keeps Consistent (_updateCode code).
Proof.
  intros w Hw. rewrite updateCode_spec. cbn.
  apply (Consistent_ext w); try done. cbn. by rewrite field_insert_ne.
Qed.

Lemma keeps_persistState : keeps Consistent _persistState.
Proof.
  intros w Hw. unfold _persistState, bind, getState, read. cbn.
  destruct (persisted_configuration (state w) (heap w)); cbn; [|done].
  by apply (Consistent_ext w).
Qed.

Lemma field_compiled (info : Val) (r : CompileResult) (st : gmap string Val) (k : string) :
  k <> "envPresetDebugInfo" -> k <> "compiled" -> k <> "compileError" ->
  k <> "evalError" -> k <> "sourceMap" ->
  field ((<["envPresetDebugInfo" := info]> (result_object r)) ∪ st) k = field st k.
Proof.
  intros. unfold result_object.
  rewrite <- !insert_union_l, (left_id_L ∅ (∪)). by rewrite !field_insert_ne.
Qed.

Lemma keeps_compileToState_body (code : Val) : keeps Consistent (compileToState_body code).
Proof.
  intros w Hw. rewrite compileToState_body_unfold.
  destruct (_compile code (state w) w) as [[partial|e] w1] eqn:Hc.
  - apply compile_returns in Hc as (cfg & _ & -> & ->).
    apply keeps_persistState. apply (Consistent_ext w); try done.
    cbn. by apply field_compiled.
  - apply compile_throws in Hc as ->. done.
Qed.

Lemma keeps_timerExpired : keeps Consistent timerExpired.
Proof.
  intros w Hw. unfold timerExpired. destruct (timer w) as [[code t]|]; [|done].
  destruct (Nat.leb _ _); [|done].
  unfold bind, update. cbn. apply keeps_compileToState_body.
  by apply (Consistent_ext w).
Qed.

Lemma keeps_on_polyfill_loaded : keeps Consistent on_polyfill_loaded.
Proof.
  intros w Hw. rewrite on_polyfill_loaded_spec. cbn.
  destruct (truthy _); [|done].
  apply (Consistent_ext w); try done. cbn. by rewrite field_insert_ne.
Qed.

Lemma keeps_on_envPreset_loaded (envPresetState : Val) :
  keeps Consistent (on_envPreset_loaded envPresetState).
Proof.
  unfold on_envPreset_loaded.
  apply keeps_bind; [apply keeps_read|]. intros p.
  apply keeps_bind; [apply keeps_read|]. intros d.
  apply keeps_bind; [apply keeps_emit|]. intros _.
  apply keeps_bind; [apply keeps_getState|]. intros st. apply keeps_updateCode.
Qed.

(** A load started with a callback other than the loop's. *)
Lemma keeps_loadPlugin (pluginState : Val) (cb : LoadCallback) :
  closure_ok (mkPendingLoad 0 cb) ->
  (forall plugins, cb <> PluginLoaded plugins) ->
  keeps Consistent (loadPlugin pluginState cb).
Proof.
  intros _ Hcb w Hw. destruct pluginState; try done.
  rewrite loadPlugin_started. cbn. destruct Hw as [Hn Hp Hc]. split; cbn.
  - rewrite plugin_loads_app. cbn. unfold is_plugin_load. cbn.
    destruct cb; [by destruct (Hcb plugins)|by rewrite app_nil_r..].
  - done.
  - apply Forall_app. split; [done|]. apply Forall_singleton.
    unfold closure_ok. cbn. destruct cb; [by destruct (Hcb plugins)|done..].
Qed.

Lemma needs_loading_primitive (h : Heap) (v : Val) (c : Val) :
  match v with VUndefined | VBool _ => True | _ => False end ->
  needs_loading v h = Ok c -> truthy c = false.
Proof.
  destruct v; try done; intros _; unfold needs_loading, and_then, getProp; cbn;
    by intros [= <-].
Qed.

Lemma keeps_check_plugin (plugins : Val) (key : string) :
  plugins_ok plugins -> keeps Consistent (check_plugin plugins key).
Proof.
  intros Hok w Hw. unfold check_plugin, bind, read.
  destruct (getProp (heap w) plugins key) as [plugin|e] eqn:Hget; [|done].
  destruct (needs_loading plugin (heap w)) as [c|e] eqn:Hneed; [|done].
  destruct (truthy c) eqn:Hc; [|done]. cbn.
  destruct plugins as [| |b| | | |entries|]; try done.
  - injection Hget as <-. by rewrite (needs_loading_primitive _ VUndefined _ I Hneed) in Hc.
  - unfold getProp in Hget. cbn in Hget. rewrite app_nil_r, assoc_entries in Hget.
    destruct (assoc key entries) as [l|]; cbn in Hget; injection Hget as <-.
    + rewrite loadPlugin_started. cbn.
      destruct Hw as [Hn Hp Hcl]. split; cbn.
      * rewrite plugin_loads_app. cbn. rewrite length_app. cbn. lia.
      * done.
      * apply Forall_app. split; [done|]. by apply Forall_singleton.
    + by rewrite (needs_loading_primitive _ VUndefined _ I Hneed) in Hc.
Qed.

Lemma keeps_checkForUnloadedPlugins : keeps Consistent _checkForUnloadedPlugins.
Proof.
  intros w Hw. unfold _checkForUnloadedPlugins, bind at 1, getState.
  revert w Hw.
  change (keeps Consistent (fun w => (let* _ := check_plugins (field (state w) "plugins") in
                           let* _ := check_polyfill (field (state w) "runtimePolyfillState") in
                           check_envPreset (field (state w) "envConfig")
                                           (field (state w) "envPresetState")) w)).
  intros w Hw.
  assert (Hk : keeps Consistent (let* _ := check_plugins (field (state w) "plugins") in
                      let* _ := check_polyfill (field (state w) "runtimePolyfillState") in
                      check_envPreset (field (state w) "envConfig")
                                      (field (state w) "envPresetState"))).
  { apply keeps_bind.
    - unfold check_plugins. apply keeps_bind; [apply keeps_read|]. intros keys.
      apply keeps_forM. intros k. apply keeps_check_plugin. apply Hw.
    - intros _. apply keeps_bind.
      + unfold check_polyfill. apply keeps_bind; [apply keeps_read|]. intros c.
        apply keeps_when. by apply keeps_loadPlugin.
      + intros _. unfold check_envPreset. apply keeps_bind; [apply keeps_read|]. intros c.
        apply keeps_when. by apply keeps_loadPlugin. }
  by apply Hk.
Qed.

Lemma keeps_callback : keeps Consistent _presetsUpdatedSetStateCallback.
Proof.
  unfold _presetsUpdatedSetStateCallback.
  apply keeps_bind; [apply keeps_checkForUnloadedPlugins|]. intros _.
  apply keeps_bind; [apply keeps_getState|]. intros st. apply keeps_updateCode.
Qed.

Lemma keeps_assign_isEnabled (x : Val) (b : bool) : keeps Consistent (assign_isEnabled x b).
Proof. intros w Hw. destruct x; try done. cbn. by apply (Consistent_ext w). Qed.

Lemma keeps_change_setting (name : string) (isEnabled : bool) :
  keeps Consistent (change_setting name isEnabled).
Proof.
  intros w Hw. rewrite change_setting_unfold. unfold settingChange_updater.
  destruct (String.eqb name "babel-polyfill").
  { unfold bind. pose proof (keeps_assign_isEnabled
      (field (state w) "runtimePolyfillState") isEnabled w Hw) as H.
    destruct (assign_isEnabled _ _ w) as [[[]|e] w1]; cbn in *; [|done].
    apply (Consistent_ext w1); try done. cbn.
    by rewrite merge_singleton, field_insert_ne. }
  unfold bind, read.
  destruct (state_hasOwnProperty (state w) name) as [[|]|e] eqn:Hs; cbn; [| |done].
  { destruct Hw as [Hn Hp Hc]. split; try done. cbn.
    rewrite merge_singleton, field_insert. by destruct (decide _). }
  destruct (hasOwnProperty (heap w) (field (state w) "plugins") name) as [[|]|e]; [| |done].
  { destruct (getProp (heap w) (field (state w) "plugins") name) as [p|e]; [|done].
    pose proof (keeps_assign_isEnabled p isEnabled w Hw) as H.
    destruct (assign_isEnabled _ _ w) as [[[]|e] w1] eqn:Ha; cbn in *; [|done].
    assert (Hst : state w1 = state w).
    { destruct p; try discriminate. by injection Ha as <-. }
    apply (Consistent_ext w1); try done. cbn.
    by rewrite merge_singleton, field_insert, Hst. }
  destruct (hasOwnProperty (heap w) (field (state w) "presets") name) as [[|]|e]; [| |done].
  { destruct (getProp (heap w) (field (state w) "presets") name) as [p|e]; [|done].
    pose proof (keeps_assign_isEnabled p isEnabled w Hw) as H.
    destruct (assign_isEnabled _ _ w) as [[[]|e] w1]; cbn in *; [|done].
    apply (Consistent_ext w1); try done. cbn.
    by rewrite merge_singleton, field_insert_ne. }
  done.
Qed.

Lemma keeps_handle (e : Event) : keeps Consistent (handle e).
Proof.
  destruct e as [ms| |i success|code|name isEnabled|name value|isExpanded]; cbn [handle].
  - apply keeps_update. intros w. by apply Consistent_ext.
  - apply keeps_timerExpired.
  - intros w Hw. unfold loadCompleted.
    destruct (loading w !! i) as [pending|] eqn:Hi; [|done].
    unfold bind, update. cbn [fst snd].
    assert (Htd : take i (loading w) ++ pending :: drop (Datatypes.S i) (loading w)
                  = loading w) by (by apply take_drop_middle).
    destruct Hw as [Hn Hp Hc].
    assert (Hc' : Forall closure_ok (delete i (loading w))) by (by apply Forall_delete).
    assert (Hpend : closure_ok pending).
    { rewrite Forall_forall in Hc. apply Hc. by apply list_elem_of_lookup_2 in Hi. }
    assert (Hlen : length (plugin_loads (loading w))
                   = (if is_plugin_load pending then 1 else 0)
                     + length (plugin_loads (delete i (loading w)))).
    { rewrite <- Htd at 1. rewrite delete_take_drop, !plugin_loads_app, !length_app.
      unfold plugin_loads at 2. cbn [List.filter].
      fold (plugin_loads (drop (Datatypes.S i) (loading w))).
      destruct (is_plugin_load pending); cbn [length]; lia. }
    unfold closure_ok in Hpend. unfold is_plugin_load in Hlen.
    destruct (callback pending) as [plugins| |envPresetState]; cbn [run_callback].
    + unfold on_plugin_loaded, bind, update. cbn [fst snd].
      set (w1 := set_numLoadingPlugins _ _).
      assert (H1 : Consistent w1).
      { split; cbn -[plugin_loads]; [lia|done|done]. }
      assert (H2 : Consistent
                (snd (when (negb success)
                        (setState_with (fun _ => ret (Some {["plugins" := plugins]}))
                                       (ret tt)) w1))).
      { destruct success; cbn -[plugin_loads]; [done|]. destruct H1 as [? ? ?].
        split; cbn -[plugin_loads]; [done| |done]. by rewrite merge_singleton, field_insert. }
      destruct (when (negb success) _ w1) as [[[]|e] w2]; cbn -[plugin_loads] in *; [|done].
      apply keeps_when; [|done].
      intros w0 Hw0. cbn beta. by apply keeps_updateCode.
    + apply keeps_on_polyfill_loaded. split; cbn -[plugin_loads]; [lia|done|done].
    + apply keeps_on_envPreset_loaded. split; cbn -[plugin_loads]; [lia|done|done].
  - apply keeps_updateCode.
  - intros w Hw. rewrite onSettingChange_unfold.
    pose proof (keeps_change_setting name isEnabled w Hw) as H.
    destruct (change_setting name isEnabled w) as [[[]|e] w1]; cbn in *; [|done].
    by apply keeps_callback.
  - intros w Hw.
    unfold _onEnvPresetSettingChange, setState_with, bind, getState, read, ret, update.
    cbn. apply keeps_callback. apply (Consistent_ext w); try done.
    cbn. by rewrite merge_singleton, field_insert_ne.
  - intros w Hw. rewrite onIsSidebarExpandedChange_spec.
    apply keeps_persistState. apply (Consistent_ext w); try done.
    cbn. by rewrite field_insert_ne.
Qed.

Lemma on_plugin_loaded_spec (plugins : Val) (success : bool) (w : World) :
  on_plugin_loaded plugins success w
  = let w1 := set_numLoadingPlugins (_numLoadingPlugins w - 1) w in
    let w2 := if success then w1 else set_state (<["plugins" := plugins]> (state w1)) w1 in
    (Ok tt, if Z.eqb (_numLoadingPlugins w - 1) 0
            then code_updated (field (state w2) "code") w2 else w2).
Proof.
  unfold on_plugin_loaded, bind, update, when, setState_with, getState, ret.
  destruct success; cbn.
  - destruct (Z.eqb _ 0); [by rewrite updateCode_spec|done].
  - rewrite merge_singleton. destruct (Z.eqb _ 0); [by rewrite updateCode_spec|done].
Qed.

(** *** The state never gets an [evaluate] field *)

Lemma NoEvaluate_ext (w w' : World) : state w' = state w -> NoEvaluate w -> NoEvaluate w'.
Proof. unfold NoEvaluate. by intros ->. Qed.

Lemma NoEvaluate_insert (k : string) (v : Val) (w w' : World) :
  k <> "evaluate" -> state w' = <[k := v]> (state w) -> NoEvaluate w -> NoEvaluate w'.
Proof. unfold NoEvaluate. intros Hk -> H. by rewrite lookup_insert_ne. Qed.

Lemma noEvaluate_emit (e : Effect) : keeps NoEvaluate (emit e).
Proof. apply keeps_update. intros w. by apply NoEvaluate_ext. Qed.

Lemma noEvaluate_updateCode (code : Val) : keeps NoEvaluate (_updateCode code).
Proof.
  intros w Hw. rewrite updateCode_spec. by apply (NoEvaluate_insert "code" code w).
Qed.

Lemma noEvaluate_persistState : keeps NoEvaluate _persistState.
Proof.
  intros w Hw. unfold _persistState, bind, getState, read. cbn.
  by destruct (persisted_configuration (state w) (heap w)).
Qed.

Lemma noEvaluate_compileToState_body (code : Val) :
  keeps NoEvaluate (compileToState_body code).
Proof.
  intros w Hw. rewrite compileToState_body_unfold.
  destruct (_compile code (state w) w) as [[partial|e] w1] eqn:Hc.
  - apply compile_returns in Hc as (cfg & _ & -> & ->).
    apply noEvaluate_persistState. unfold NoEvaluate, result_object. cbn.
    rewrite <- !insert_union_l, (left_id_L ∅ (∪)). by rewrite !lookup_insert_ne.
  - by apply compile_throws in Hc as ->.
Qed.

Lemma noEvaluate_timerExpired : keeps NoEvaluate timerExpired.
Proof.
  intros w Hw. unfold timerExpired. destruct (timer w) as [[code t]|]; [|done].
  destruct (Nat.leb _ _); [|done].
  unfold bind, update. cbn. by apply noEvaluate_compileToState_body.
Qed.

Lemma noEvaluate_on_polyfill_loaded : keeps NoEvaluate on_polyfill_loaded.
Proof.
  intros w Hw. rewrite on_polyfill_loaded_spec. cbn.
  destruct (truthy _); [|done]. by eapply (NoEvaluate_insert "evalError"); [| |exact Hw].
Qed.

Lemma noEvaluate_on_envPreset_loaded (envPresetState : Val) :
  keeps NoEvaluate (on_envPreset_loaded envPresetState).
Proof.
  unfold on_envPreset_loaded.
  apply keeps_bind; [apply keeps_read|]. intros p.
  apply keeps_bind; [apply keeps_read|]. intros d.
  apply keeps_bind; [apply noEvaluate_emit|]. intros _.
  apply keeps_bind; [apply keeps_getState|]. intros st. apply noEvaluate_updateCode.
Qed.

Lemma noEvaluate_loadPlugin (pluginState : Val) (cb : LoadCallback) :
  keeps NoEvaluate (loadPlugin pluginState cb).
Proof. intros w Hw. by destruct pluginState. Qed.

Lemma noEvaluate_checkForUnloadedPlugins : keeps NoEvaluate _checkForUnloadedPlugins.
Proof.
  unfold _checkForUnloadedPlugins.
  apply keeps_bind; [apply keeps_getState|]. intros st.
  apply keeps_bind.
  { unfold check_plugins. apply keeps_bind; [apply keeps_read|]. intros keys.
    apply keeps_forM. intros k. unfold check_plugin.
    apply keeps_bind; [apply keeps_read|]. intros plugin.
    apply keeps_bind; [apply keeps_read|]. intros c.
    apply keeps_when. apply keeps_bind; [|intros _; apply noEvaluate_loadPlugin].
    apply keeps_update. intros w. by apply NoEvaluate_ext. }
  intros _. apply keeps_bind.
  { unfold check_polyfill. apply keeps_bind; [apply keeps_read|]. intros c.
    apply keeps_when. apply noEvaluate_loadPlugin. }
  intros _. unfold check_envPreset. apply keeps_bind; [apply keeps_read|]. intros c.
  apply keeps_when. apply noEvaluate_loadPlugin.
Qed.

Lemma noEvaluate_callback : keeps NoEvaluate _presetsUpdatedSetStateCallback.
Proof.
  unfold _presetsUpdatedSetStateCallback.
  apply keeps_bind; [apply noEvaluate_checkForUnloadedPlugins|]. intros _.
  apply keeps_bind; [apply keeps_getState|]. intros st. apply noEvaluate_updateCode.
Qed.

Lemma noEvaluate_assign_isEnabled (x : Val) (b : bool) :
  keeps NoEvaluate (assign_isEnabled x b).
Proof. intros w Hw. by destruct x. Qed.

Lemma noEvaluate_change_setting (name : string) (isEnabled : bool) :
  keeps NoEvaluate (change_setting name isEnabled).
Proof.
  intros w Hw. rewrite change_setting_unfold. unfold settingChange_updater.
  destruct (String.eqb name "babel-polyfill").
  { unfold bind. pose proof (noEvaluate_assign_isEnabled
      (field (state w) "runtimePolyfillState") isEnabled w Hw) as H.
    destruct (assign_isEnabled _ _ w) as [[[]|e] w1]; cbn in *; [|done].
    apply (NoEvaluate_insert "runtimePolyfillState"
             (field (state w) "runtimePolyfillState") w1); try done.
    cbn. by rewrite merge_singleton. }
  unfold bind, read.
  destruct (state_hasOwnProperty (state w) name) as [[|]|e] eqn:Hs; cbn; [| |done].
  { apply (NoEvaluate_insert name (VBool isEnabled) w); [|by rewrite <- merge_singleton|done].
    intros ->. unfold state_hasOwnProperty in Hs.
    destruct (state w !! "hasOwnProperty"); [done|]. injection Hs as Hs.
    apply bool_decide_eq_true_1 in Hs. unfold NoEvaluate in Hw. rewrite Hw in Hs.
    by destruct Hs. }
  destruct (hasOwnProperty (heap w) (field (state w) "plugins") name) as [[|]|e]; [| |done].
  { destruct (getProp (heap w) (field (state w) "plugins") name) as [p|e]; [|done].
    pose proof (noEvaluate_assign_isEnabled p isEnabled w Hw) as H.
    destruct (assign_isEnabled _ _ w) as [[[]|e] w1]; cbn in *; [|done].
    apply (NoEvaluate_insert "plugins" (field (state w) "plugins") w1); try done.
    cbn. by rewrite merge_singleton. }
  destruct (hasOwnProperty (heap w) (field (state w) "presets") name) as [[|]|e]; [| |done].
  { destruct (getProp (heap w) (field (state w) "presets") name) as [p|e]; [|done].
    pose proof (noEvaluate_assign_isEnabled p isEnabled w Hw) as H.
    destruct (assign_isEnabled _ _ w) as [[[]|e] w1]; cbn in *; [|done].
    apply (NoEvaluate_insert "presets" (field (state w) "presets") w1); try done.
    cbn. by rewrite merge_singleton. }
  done.
Qed.

Lemma noEvaluate_handle (e : Event) : keeps NoEvaluate (handle e).
Proof.
  destruct e as [ms| |i success|code|name isEnabled|name value|isExpanded]; cbn [handle].
  - apply keeps_update. intros w. by apply NoEvaluate_ext.
  - apply noEvaluate_timerExpired.
  - intros w Hw. unfold loadCompleted.
    destruct (loading w !! i) as [pending|] eqn:Hi; [|done].
    unfold bind, update. cbn [fst snd].
    set (w1 := set_heap _ _).
    assert (H1 : NoEvaluate w1) by done.
    destruct (callback pending) as [plugins| |envPresetState]; cbn [run_callback].
    + rewrite on_plugin_loaded_spec. cbn zeta. cbn [snd].
      assert (H2 : NoEvaluate
                (if success then set_numLoadingPlugins (_numLoadingPlugins w1 - 1) w1
                 else set_state (<["plugins" := plugins]>
                                   (state (set_numLoadingPlugins
                                             (_numLoadingPlugins w1 - 1) w1)))
                                (set_numLoadingPlugins (_numLoadingPlugins w1 - 1) w1))).
      { destruct success; [done|]. by apply (NoEvaluate_insert "plugins" plugins w1). }
      destruct (Z.eqb _ 0); [|done].
      by eapply (NoEvaluate_insert "code"); [| |exact H2].
    + by apply noEvaluate_on_polyfill_loaded.
    + by apply noEvaluate_on_envPreset_loaded.
  - apply noEvaluate_updateCode.
  - intros w Hw. rewrite onSettingChange_unfold.
    pose proof (noEvaluate_change_setting name isEnabled w Hw) as H.
    destruct (change_setting name isEnabled w) as [[[]|e] w1]; cbn in *; [|done].
    by apply noEvaluate_callback.
  - intros w Hw.
    unfold _onEnvPresetSettingChange, setState_with, bind, getState, read, ret, update.
    cbn. apply noEvaluate_callback.
    eapply (NoEvaluate_insert "envConfig"); [done| |exact Hw].
    cbn. by rewrite merge_singleton.
  - intros w Hw. rewrite onIsSidebarExpandedChange_spec.
    apply noEvaluate_persistState.
    by eapply (NoEvaluate_insert "isSidebarExpanded"); [| |exact Hw].
Qed.

Lemma noEvaluate_run (events : list Event) (w : World) :
  NoEvaluate w -> NoEvaluate (run events w).
Proof.
  revert w. induction events as [|e events IH]; intros w Hw; [done|].
  rewrite run_cons. apply IH. by apply noEvaluate_handle.
Qed.

Lemma polyfill_load_completed (w : World) (i : nat) (success : bool)
    (pending : PendingLoad) :
  loading w !! i = Some pending -> callback pending = PolyfillLoaded ->
  handle (LoadCompleted i success) w
  = (Ok tt, if truthy (field (state w) "compiled")
            then evaluated (load_ended i success pending w)
            else load_ended i success pending w).
Proof.
  intros Hi Hcb. cbn [handle]. unfold loadCompleted. rewrite Hi, Hcb.
  unfold bind at 1 2, update. cbn [run_callback].
  by rewrite on_polyfill_loaded_spec.
Qed.

(** ** The claims *)

(** C1.  From a well-typed state, the pass calls [loadPlugin] on the
    loads of [pass_loads] and on nothing else; those with the callback of
    the loop over [state.plugins] are the loads of exactly the plugins
    that are enabled, not loaded and not loading, each once and in the
    order of the map: a plugin that is disabled, loaded or loading is not
    among them. *)
Theorem checkForUnloadedPlugins_loads_plugins (S : Shape) (w : World) :
  Typed S (state w) (heap w) ->
  let w' := snd (_checkForUnloadedPlugins w) in
  let started := to_load (heap w) (map snd (sh_plugins S)) in
  fst (_checkForUnloadedPlugins w) = Ok tt
  /\ loading w' = loading w ++ pass_loads S (heap w)
  /\ trace w' = trace w ++ map (fun p => CallLoadPlugin (target p)) (pass_loads S (heap w))
  /\ plugin_loads (pass_loads S (heap w))
     = map (fun l => mkPendingLoad l (PluginLoaded (VPluginMap (sh_plugins S)))) started
  /\ NoDup started
  /\ forall key l,
       In (key, l) (sh_plugins S) ->
       (In l started <->
        isEnabled (heap w l) = true /\ isLoaded (heap w l) = false
        /\ isLoading (heap w l) = false).
Proof.
  intros T w' started. subst w'. rewrite (pass_typed S w T). cbn [fst snd].
  destruct (after_pass_spec S w T) as (Hld & _).
  destruct (Typed_objects _ _ _ T) as (Hnd & _).
  split; [done|]. split; [done|]. split; [by apply after_pass_trace|].
  split; [apply plugin_loads_pass|]. split.
  - subst started. unfold to_load. by apply NoDup_filter_bool.
  - intros key l Hin. subst started. unfold to_load, wants_load.
    rewrite filter_In, !andb_true_iff, !negb_true_iff.
    split; [tauto|]. intros H. split; [|tauto].
    change l with (snd (key, l)). by apply in_map.
Qed.

(** C2.  Every call of [_updateCode(code)] stores [code] in the state at
    once and compiles nothing: it only (re)arms the debounce.  Through a
    burst of edits in which less than [DEBOUNCE_DELAY] ms pass between
    one call and the next, however often the timer's callback runs in
    between, [compile] is not called; once [DEBOUNCE_DELAY] ms have
    passed since the last call and the timer's callback has run,
    [compile] has been called exactly once more, on the last code, and
    the configuration persisted to local storage and to the URL carries
    that code. *)
Theorem debounced_recompilation (S : Shape) (w : World)
    (burst : list (string * list Event)) (code : string) (pause wait : list Event) :
  Typed S (state w) (heap w) ->
  Forall (fun edit => short_pause (snd edit)) burst ->
  forallb quiet pause = true ->
  forallb quiet wait = true ->
  let during := run (burst_events burst ++ EditorChange code :: pause) w in
  let after := run (burst_events burst ++ EditorChange code :: pause ++ TimerFired :: wait) w in
  DEBOUNCE_DELAY = 500
  /\ (forall c w0, _updateCode c w0 = (Ok tt, code_updated c w0))
  /\ (elapsed pause < DEBOUNCE_DELAY ->
      compiled_codes (trace during) = compiled_codes (trace w)
      /\ field (state during) "code" = VString code
      /\ exists t, timer during = Some (VString code, t))
  /\ (DEBOUNCE_DELAY <= elapsed pause ->
      compiled_codes (trace after) = compiled_codes (trace w) ++ [VString code]
      /\ timer after = None
      /\ exists props,
           query after = Some (VObject props)
           /\ localStorage after !! "replState" = Some (VObject props)
           /\ prop props "code" = VString code).
Proof.
  intros T Hb Hp Hw during after.
  split; [reflexivity|]. split; [apply updateCode_spec|].
  destruct (run_burst S burst w T Hb) as [T0 Htr0].
  set (w0 := run (burst_events burst) w) in *.
  set (w1 := code_updated (VString code) w0).
  assert (T1 : Typed S (state w1) (heap w1)) by (by apply Typed_insert).
  assert (Ht1 : timer w1 = Some (VString code, now w0)) by reflexivity.
  split.
  - intros Hd. subst during. rewrite run_app, run_cons, step_EditorChange.
    fold w0 w1. rewrite (run_waiting (VString code) (now w0)) by (done || cbn; lia).
    cbn. rewrite Htr0. split; [done|]. split; [by rewrite field_insert|eauto].
  - intros Hd. subst after.
    rewrite run_app, run_cons, step_EditorChange, run_app, run_cons. fold w0 w1.
    assert (Hfired : exists config configuration n,
               persisted_configuration
                 ((<["envPresetDebugInfo" := debugInfo_after (VString code) config]>
                     (result_object (compile (VString code) config))) ∪ state w1) (heap w1)
               = Ok configuration
               /\ step (run pause w1) TimerFired
                  = set_now n (recompiled (VString code) config configuration
                                          (set_timer None w1))).
    { destruct (run_quiet S (VString code) (now w0) pause w1 T1 Ht1 Hp)
        as [H|(cfg & conf & n & Hc & Hpc & H)].
      - rewrite H. unfold step, handle.
        rewrite (timerExpired_due (VString code) (now w0)) by (done || cbn; lia).
        destruct (compileToState_body_typed S (VString code)
                    (set_timer None (set_now (now w1 + elapsed pause) w1)) T1)
          as (cfg & conf & Hc & Hpc & Hbody).
        rewrite Hbody. exists cfg, conf, (now w1 + elapsed pause). split; [exact Hpc|].
        reflexivity.
      - exists cfg, conf, n. split; [exact Hpc|]. rewrite H. unfold step, handle.
        by rewrite timerExpired_idle. }
    destruct Hfired as (cfg & conf & n & Hpc & ->).
    rewrite run_idle by done.
    destruct (recompiled_facts S (VString code) cfg conf (set_timer None w1) T1 Hpc)
      as (props & -> & Hcode & Hq & Hls & Htr).
    cbn [trace timer query localStorage set_now] in *.
    rewrite Htr, compiled_codes_app. cbn. rewrite Htr0.
    split; [done|]. split; [done|]. exists props.
    split; [done|]. split; [done|]. rewrite Hcode. cbn. by rewrite field_insert.
Qed.

(** C3.  [_compile] calls [compile] with [evaluate] true exactly when the
    runtime polyfill is enabled and loaded.  The pass starts the load of
    the runtime polyfill exactly when it is enabled and not loaded.
    When that load completes, the callback evaluates the compiled code
    the state holds, if any, calls [compile] not at all and leaves the
    debounce alone: the completion of a load of the runtime polyfill ends
    in the world where [loadPlugin] has done its bookkeeping and the
    compiled code, if any, has been evaluated, with no call of [compile]
    and the debounce as it was. *)
Theorem evaluation_gated_by_polyfill :
  (forall code st w partial w' l,
      field st "runtimePolyfillState" = VPluginState l ->
      _compile code st w = (Ok partial, w') ->
      exists config,
        trace w' = trace w ++ [CallCompile code config]
        /\ evaluate config = VBool (isEnabled (heap w l) && isLoaded (heap w l)))
  /\ (forall S w,
        Typed S (state w) (heap w) ->
        loading (snd (_checkForUnloadedPlugins w)) = loading w ++ pass_loads S (heap w)
        /\ (In (mkPendingLoad (sh_runtimePolyfillState S) PolyfillLoaded)
               (pass_loads S (heap w)) <->
            isEnabled (heap w (sh_runtimePolyfillState S)) = true
            /\ isLoaded (heap w (sh_runtimePolyfillState S)) = false))
  /\ (forall w,
        on_polyfill_loaded w
        = (Ok tt, if truthy (field (state w) "compiled") then evaluated w else w)
        /\ compiled_codes (trace (snd (on_polyfill_loaded w))) = compiled_codes (trace w)
        /\ timer (snd (on_polyfill_loaded w)) = timer w)
  /\ (forall w i success pending,
        loading w !! i = Some pending -> callback pending = PolyfillLoaded ->
        let w1 := load_ended i success pending w in
        let w' := step w (LoadCompleted i success) in
        let compiled := field (state w) "compiled" in
        let sourceMap := field (state w) "sourceMap" in
        handle (LoadCompleted i success) w
        = (Ok tt, if truthy compiled then evaluated w1 else w1)
        /\ trace w' = trace w ++ (if truthy compiled
                                  then [CallScopedEval compiled sourceMap] else [])
        /\ compiled_codes (trace w') = compiled_codes (trace w)
        /\ timer w' = timer w).
Proof.
  split; [|split; [|split]]; cycle 3.
  { intros w i success pending Hi Hcb. cbn zeta. unfold step.
    rewrite (polyfill_load_completed w i success pending Hi Hcb). cbn [snd].
    split; [done|].
    destruct (truthy (field (state w) "compiled")); cbn.
    - rewrite compiled_codes_app. cbn. by rewrite app_nil_r.
    - by rewrite app_nil_r. }
  - intros code st w partial w' l Hl H.
    apply compile_returns in H as (cfg & Hcfg & -> & _). exists cfg. split; [done|].
    apply compile_config_inv in Hcfg as (_ & _ & _ & pe & _ & _ & _ & _ & Hpe & Hev).
    rewrite Hl, getProp_isEnabled in Hpe. injection Hpe as <-.
    rewrite Hl, getProp_isLoaded in Hev. unfold and_then in Hev. cbn in Hev.
    destruct (isEnabled (heap w l)); by injection Hev as <-.
  - intros S w T. rewrite (pass_typed S w T). cbn [snd].
    destruct (after_pass_spec S w T) as (Hld & _). split; [done|].
    unfold pass_loads, polyfill_wanted. rewrite !in_app_iff, in_map_iff.
    split.
    + intros [(x & Hx & _)|[H|H]]; [discriminate Hx| |].
      * destruct (isEnabled _), (isLoaded _); cbn in H; tauto.
      * destruct (envPreset_wanted _ _); cbn in H; [|done].
        destruct H as [[=]|[]].
    + intros [-> ->]. right. left. by left.
  - intros w. rewrite on_polyfill_loaded_spec. cbn [snd]. split; [done|].
    destruct (truthy (field (state w) "compiled")); [|done].
    cbn. rewrite compiled_codes_app. cbn. by rewrite app_nil_r.
Qed.

(** C4.  [_persistState] builds one configuration object and writes that
    object both to local storage, under ["replState"], and to the URL
    query; from a well-typed state it always does.  It runs as the
    callback of the [setState] of the debounced compilation and of the
    sidebar change.  A change of a setting ends in [_updateCode], which
    arms the debounce: from a well-typed world, once the delay has passed
    and the timer has run, the state is persisted; and so ends a change
    of an env-preset setting. *)
Theorem persistState_writes_one_object :
  (forall w configuration,
      persisted_configuration (state w) (heap w) = Ok configuration ->
      _persistState w = (Ok tt, persisted configuration w)
      /\ localStorage (persisted configuration w) !! "replState" = Some configuration
      /\ query (persisted configuration w) = Some configuration)
  /\ (forall S w,
        Typed S (state w) (heap w) ->
        exists configuration, persisted_configuration (state w) (heap w) = Ok configuration)
  /\ (forall S code t w,
        Typed S (state w) (heap w) ->
        timer w = Some (code, t) -> DEBOUNCE_DELAY <= now w - t ->
        exists config configuration,
          handle TimerFired w
          = (Ok tt, recompiled code config configuration (set_timer None w))
          /\ persisted_configuration
               (state (recompiled code config configuration (set_timer None w))) (heap w)
             = Ok configuration)
  /\ (forall isExpanded w,
        handle (SidebarExpandedChange isExpanded) w
        = _persistState
            (set_state (<["isSidebarExpanded" := VBool isExpanded]> (state w)) w))
  /\ (forall S w name isEnabled ms,
        Typed S (state w) (heap w) ->
        state w !! "hasOwnProperty" = None ->
        assoc "hasOwnProperty" (sh_plugins S) = None ->
        assoc "hasOwnProperty" (sh_presets S) = None ->
        ~ In name object_fields ->
        DEBOUNCE_DELAY <= ms ->
        let w' := run [SettingChange name isEnabled; Elapse ms; TimerFired] w in
        exists props,
          persisted_configuration (state w') (heap w') = Ok (VObject props)
          /\ localStorage w' !! "replState" = Some (VObject props)
          /\ query w' = Some (VObject props))
  /\ (forall name value w,
        fst (handle (EnvPresetSettingChange name value) w) = Ok tt ->
        let w' := snd (handle (EnvPresetSettingChange name value) w) in
        timer w' = Some (field (state w') "code", now w')).
Proof.
  repeat split.
  - by apply persistState_Ok.
  - cbn. by rewrite lookup_insert_eq.
  - intros S w T. eexists. by apply (persisted_configuration_typed S).
  - intros S code t w T Ht Hdue. cbn [handle].
    rewrite (timerExpired_due code t) by done.
    destruct (compileToState_body_typed S code (set_timer None w) T)
      as (cfg & conf & _ & Hp & Hb).
    exists cfg, conf. split; [exact Hb|exact Hp].
  - intros isExpanded w. apply onIsSidebarExpandedChange_spec.
  - intros S w name isEnabled ms. by apply settingChange_persists.
  - intros name value w. cbn [handle].
    unfold _onEnvPresetSettingChange, setState_with, bind, getState, read, ret, update.
    cbn. intros H. destruct (callback_Ok _ H) as [w2 ->]. cbn. by rewrite field_insert.
Qed.

(** C5.  From a well-typed state, the [presets] field of the persisted
    configuration is the comma-joined array of the labels of the presets
    that are enabled and loaded, in the order of the map, then ["babili"]
    when the babili-standalone plugin is enabled, loaded or not, then
    ["env"] when the env preset is enabled in the env config, loaded or
    not. *)
Theorem persisted_presets_field (S : Shape) (st : gmap string Val) (h : Heap) :
  Typed S st h ->
  exists props,
    persisted_configuration st h = Ok (VObject props)
    /\ prop props "presets"
       = VString
           (String.concat ","
              (map join_element (selected_labels h (sh_presets S))
               ++ (if isEnabled (h (sh_babili S)) then ["babili"] else [])
               ++ (if truthy (prop (sh_envConfig S) "isEnvPresetEnabled")
                   then ["env"] else []))).
Proof.
  intros T. eexists. split; [by apply (persisted_configuration_typed S)|].
  unfold prop at 1. cbn. unfold Array_join, persisted_presets. rewrite !map_app.
  rewrite <- app_assoc.
  by destruct (isEnabled (h (sh_babili S))),
    (truthy (prop (sh_envConfig S) "isEnvPresetEnabled")).
Qed.

(** C6.  The [envPresetDebugInfo] that [_compile] returns is [null]
    whenever [debugEnvPreset] is falsy; when it is not [null],
    [debugEnvPreset] is truthy, the env preset is enabled and loaded, and
    it is [getDebugInfoFromEnvResult] of a result the preset built during
    this compilation.  The output panel is given the state's debug info
    when [debugEnvPreset] is truthy and [null] otherwise. *)
Theorem envPresetDebugInfo_gated :
  (forall code st w partial w',
      _compile code st w = (Ok partial, w') ->
      exists config info,
        trace w' = trace w ++ [CallCompile code config]
        /\ partial !! "envPresetDebugInfo" = Some info
        /\ (truthy (field st "debugEnvPreset") = false -> info = VNull)
        /\ (info <> VNull ->
            truthy (field st "debugEnvPreset") = true
            /\ (exists enabled loaded,
                  getProp (heap w) (field st "envConfig") "isEnvPresetEnabled" = Ok enabled
                  /\ truthy enabled = true
                  /\ getProp (heap w) (field st "envPresetState") "isLoaded" = Ok loaded
                  /\ truthy loaded = true)
            /\ exists result,
                 In result (presetBuilds code config)
                 /\ info = getDebugInfoFromEnvResult result))
  /\ (forall st h options input output,
        render st h = Ok (Panels options input output) ->
        panel_info output
        = if truthy (field st "debugEnvPreset") then field st "envPresetDebugInfo"
          else VNull).
Proof.
  split.
  - intros code st w partial w' H.
    apply compile_returns in H as (cfg & Hcfg & -> & ->).
    exists cfg, (debugInfo_after code cfg).
    split; [done|]. split; [by rewrite lookup_insert_eq|].
    apply compile_config_inv in Hcfg
      as (names & envEnabled & envOn & pe & tg & HenvE & HenvOn & Hpresets & _).
    assert (Hhas : has_onPresetBuild cfg
                   = truthy envOn && truthy (field st "debugEnvPreset")).
    { unfold has_onPresetBuild. rewrite Hpresets, has_onPresetBuild_names.
      destruct (truthy envOn); cbn; [by rewrite orb_false_r|done]. }
    unfold debugInfo_after. rewrite Hhas. split.
    + intros ->. by rewrite andb_false_r.
    + destruct (truthy envOn) eqn:Hon; cbn; [|done].
      destruct (truthy (field st "debugEnvPreset")) eqn:Hdbg; [|done].
      intros Hinfo. split; [done|]. split.
      * unfold and_then in HenvOn. destruct (truthy envEnabled) eqn:Hen.
        -- exists envEnabled, envOn. by rewrite Hon.
        -- injection HenvOn as <-. congruence.
      * destruct (fold_last_result (presetBuilds code cfg) VNull) as [Hnull|Hlast];
          [by rewrite Hnull in Hinfo|done].
  - intros st h options input output H. unfold render in H.
    invert_obind H. destruct (negb (truthy v)).
    + invert_obind H. invert_obind H. invert_obind H. discriminate.
    + by injection H as <- <- <-.
Qed.

(** C7.  The callback of the runtime polyfill's load never throws,
    whatever [scopedEval] does.  When [state.compiled] is falsy, [null]
    in particular, it returns at once and nothing is evaluated.
    Otherwise [scopedEval] is called once, on the compiled code and the
    source map of the state, and [state.evalError] becomes what it threw,
    or [null] when it returned; no other field changes.  So ends the
    completion of a load of the runtime polyfill, successful or not:
    it returns, and the world is the one [loadPlugin] left with, when
    [state.compiled] is truthy, [scopedEval] called once and what it
    threw, or [null], in [state.evalError]. *)
Theorem polyfill_callback_catches :
  (forall w, fst (on_polyfill_loaded w) = Ok tt)
  /\ (forall w i success pending,
        loading w !! i = Some pending -> callback pending = PolyfillLoaded ->
        let w1 := load_ended i success pending w in
        let w' := step w (LoadCompleted i success) in
        let compiled := field (state w) "compiled" in
        let sourceMap := field (state w) "sourceMap" in
        handle (LoadCompleted i success) w
        = (Ok tt, if truthy compiled then evaluated w1 else w1)
        /\ (truthy compiled = false -> w' = w1)
        /\ (truthy compiled = true ->
            trace w' = trace w ++ [CallScopedEval compiled sourceMap]
            /\ field (state w') "evalError"
               = match scopedEval compiled sourceMap with
                 | Some error => error
                 | None => VNull
                 end
            /\ (forall k, k <> "evalError" -> state w' !! k = state w !! k)
            /\ heap w' = heap w1
            /\ loading w' = delete i (loading w)))
  /\ (forall w,
        truthy (field (state w) "compiled") = false ->
        snd (on_polyfill_loaded w) = w)
  /\ (forall w,
        field (state w) "compiled" = VNull ->
        snd (on_polyfill_loaded w) = w)
  /\ (forall w,
        truthy (field (state w) "compiled") = true ->
        let w' := snd (on_polyfill_loaded w) in
        let compiled := field (state w) "compiled" in
        let sourceMap := field (state w) "sourceMap" in
        trace w' = trace w ++ [CallScopedEval compiled sourceMap]
        /\ field (state w') "evalError"
           = match scopedEval compiled sourceMap with
             | Some error => error
             | None => VNull
             end
        /\ (forall k, k <> "evalError" -> state w' !! k = state w !! k)
        /\ heap w' = heap w).
Proof.
  split; [|split]; cycle 1.
  { intros w i success pending Hi Hcb. cbn zeta. unfold step.
    rewrite (polyfill_load_completed w i success pending Hi Hcb). cbn [snd].
    split; [done|]. split; intros H; rewrite H; [done|].
    unfold evaluated, load_ended. cbn.
    split; [done|]. split; [by rewrite field_insert|]. split; [|by split].
    intros k Hk. by rewrite lookup_insert_ne. }
  all: repeat split.
  - intros w H. by rewrite on_polyfill_loaded_spec, H.
  - intros w H. rewrite on_polyfill_loaded_spec, H. done.
  - rewrite on_polyfill_loaded_spec, H. done.
  - rewrite on_polyfill_loaded_spec, H. cbn. by rewrite field_insert.
  - intros k Hk. rewrite on_polyfill_loaded_spec, H. cbn. by rewrite lookup_insert_ne.
  - by rewrite on_polyfill_loaded_spec, H.
  - intros w. by rewrite on_polyfill_loaded_spec.
Qed.

(** C8.  Each plugin load the pass starts increments
    [_numLoadingPlugins], and the completion of one, successful or not,
    decrements it.  The counter is, in every world the event loop
    reaches from one where it is, the number of plugin loads in flight:
    so the callback, which calls [_updateCode(this.state.code)] exactly
    when its decrement brings the counter to zero, recompiles exactly
    when the last plugin load in flight has completed.  A failed load
    sets [plugins] in the state to the map the loop captured, and the
    callback itself writes nothing into the [PluginState]. *)
Theorem plugin_loads_counted :
  (forall S w,
      Typed S (state w) (heap w) ->
      let w' := snd (_checkForUnloadedPlugins w) in
      let started := to_load (heap w) (map snd (sh_plugins S)) in
      _numLoadingPlugins w' = (_numLoadingPlugins w + Z.of_nat (length started))%Z
      /\ length (plugin_loads (loading w'))
         = length (plugin_loads (loading w)) + length started)
  /\ (forall w i success pending plugins,
        loading w !! i = Some pending ->
        callback pending = PluginLoaded plugins ->
        let w1 := plugin_completed i success pending plugins w in
        handle (LoadCompleted i success) w
        = (Ok tt, if Z.eqb (_numLoadingPlugins w - 1) 0
                  then code_updated (field (state w1) "code") w1 else w1)
        /\ _numLoadingPlugins w1 = (_numLoadingPlugins w - 1)%Z
        /\ length (plugin_loads (loading w)) = Datatypes.S (length (plugin_loads (loading w1)))
        /\ heap w1 = heap_set (heap w) (target pending)
                              (loadPlugin_end success (heap w (target pending)))
        /\ state w1 = if success then state w else <["plugins" := plugins]> (state w))
  /\ (forall w e, Consistent w -> Consistent (step w e))
  /\ (forall w events, Consistent w -> Consistent (run events w))
  /\ (forall w, Consistent w ->
        (_numLoadingPlugins w = 0%Z <-> plugin_loads (loading w) = []))
  /\ (forall S w,
        Typed S (state w) (heap w) -> loading w = [] -> _numLoadingPlugins w = 0%Z ->
        Consistent w).
Proof.
  split; [|split; [|split; [|split; [|split]]]].
  - intros S w T w' started. subst w'. rewrite (pass_typed S w T). cbn [snd].
    destruct (after_pass_spec S w T) as (Hld & Hn & _). split; [done|].
    by rewrite Hld, plugin_loads_app, plugin_loads_pass, length_app, length_map.
  - intros w i success pending plugins Hi Hcb w1. cbn [handle]. unfold loadCompleted.
    rewrite Hi. unfold bind, update. cbn [fst snd]. rewrite Hcb. cbn [run_callback].
    rewrite on_plugin_loaded_spec.
    assert (Hl : loading w1 = delete i (loading w)) by (subst w1; by destruct success).
    split; [subst w1; by destruct success|]. split; [subst w1; by destruct success|].
    split; [|split; subst w1; by destruct success].
    rewrite Hl, delete_take_drop, plugin_loads_app.
    rewrite <- (take_drop_middle _ _ _ Hi) at 1.
    rewrite plugin_loads_app, !length_app.
    unfold plugin_loads at 2. cbn [List.filter]. unfold is_plugin_load at 1. rewrite Hcb.
    cbn [length]. fold (plugin_loads (drop (Datatypes.S i) (loading w))). lia.
  - intros w e Hw. by apply keeps_handle.
  - intros w events. revert w. induction events as [|e events IH]; intros w Hw; [done|].
    rewrite run_cons. apply IH. by apply keeps_handle.
  - intros w [Hn _ _]. rewrite Hn. split.
    + intros H. apply length_zero_iff_nil. lia.
    + by intros ->.
  - intros S w T Hl Hn. split.
    + by rewrite Hl, Hn.
    + by rewrite (ty_plugins _ _ _ T).
    + by rewrite Hl.
Qed.

(** C9.  The [State] type has no [evaluate] field, and no event gives
    the state one: in every world the event loop reaches from a world
    whose state has none, whatever settings were changed on the way, the
    runtime polyfill's among them, the [useBuiltIns] option that
    [_compile] gives the env preset is [state.builtIns]. *)
Theorem useBuiltIns_is_builtIns (w : World) (events : list Event)
    (config : CompileConfig) (name : string) (options : EnvOptions) :
  state w !! "evaluate" = None ->
  _compile_config (state (run events w)) (heap (run events w)) = Ok config ->
  In (PresetWithOptions name options) (presets config) ->
  useBuiltIns options = field (state (run events w)) "builtIns".
Proof.
  intros Hev Hcfg Hin. apply (noEvaluate_run events) in Hev.
  apply compile_config_inv in Hcfg as (names & _ & envOn & _ & tg & _ & _ & Hpresets & _).
  rewrite Hpresets in Hin. apply In_names in Hin.
  destruct (truthy envOn); [|done].
  destruct Hin as [[= <- <-]|[]]. cbn. unfold field at 1. by rewrite Hev.
Qed.

(** C10.  On a well-typed state, the [setState] of [_onSettingChange]
    changes one setting and nothing else.  For ["babel-polyfill"] it is
    the [isEnabled] of the runtime polyfill's [PluginState]; for another
    name that is a key of the state, that field of the state; for
    another name that is a key of [plugins], or else of [presets], the
    [isEnabled] of that [PluginState].  For any other name the updater
    returns [undefined] and neither the state nor the store changes. *)
Theorem onSettingChange_changes_one_setting (S : Shape) (w : World)
    (name : string) (isEnabled : bool) :
  Typed S (state w) (heap w) ->
  state w !! "hasOwnProperty" = None ->
  assoc "hasOwnProperty" (sh_plugins S) = None ->
  assoc "hasOwnProperty" (sh_presets S) = None ->
  let flagged l := set_heap (heap_set (heap w) l (with_isEnabled isEnabled (heap w l))) w in
  (name = "babel-polyfill" ->
   change_setting name isEnabled w = (Ok tt, flagged (sh_runtimePolyfillState S)))
  /\ (name <> "babel-polyfill" -> is_Some (state w !! name) ->
      change_setting name isEnabled w
      = (Ok tt, set_state (<[name := VBool isEnabled]> (state w)) w))
  /\ (forall l,
        name <> "babel-polyfill" -> state w !! name = None ->
        assoc name (sh_plugins S) = Some l ->
        change_setting name isEnabled w = (Ok tt, flagged l))
  /\ (forall l,
        name <> "babel-polyfill" -> state w !! name = None ->
        assoc name (sh_plugins S) = None -> assoc name (sh_presets S) = Some l ->
        change_setting name isEnabled w = (Ok tt, flagged l))
  /\ (name <> "babel-polyfill" -> state w !! name = None ->
      assoc name (sh_plugins S) = None -> assoc name (sh_presets S) = None ->
      settingChange_updater name isEnabled (state w) w = (Ok None, w)
      /\ change_setting name isEnabled w = (Ok tt, w))
  /\ (forall l l', l' <> l -> heap (flagged l) l' = heap w l')
  /\ (forall l, heap (flagged l) l = with_isEnabled isEnabled (heap w l))
  /\ (forall k, k <> name ->
        state (set_state (<[name := VBool isEnabled]> (state w)) w) !! k = state w !! k)
  /\ _onSettingChange name isEnabled w
     = match change_setting name isEnabled w with
       | (Ok _, w') => _presetsUpdatedSetStateCallback w'
       | (Throw e, w') => (Throw e, w')
       end.
Proof.
  intros T Hh Hp Hq flagged. repeat split.
  - intros ->. by apply updater_polyfill.
  - intros. by apply updater_state_key.
  - intros. by apply (updater_plugin S).
  - intros. by apply (updater_preset S).
  - by apply (updater_unknown S).
  - rewrite change_setting_unfold. by rewrite (updater_unknown S).
  - intros l l' Hne. subst flagged. cbn. by apply heap_set_other.
  - intros l. subst flagged. cbn. apply heap_set_same.
  - intros k Hk. cbn. by rewrite lookup_insert_ne.
  - apply onSettingChange_unfold.
Qed.

End Properties.

(** ** The claims on the concrete playground *)

Lemma example_typed : Typed example_shape example_state example_heap.
Proof.
  split; try reflexivity.
  - apply (bool_decide_unpack _). vm_compute. exact I.
  - apply (bool_decide_unpack _). vm_compute. exact I.
  - apply (bool_decide_unpack _). vm_compute. exact I.
  - intros k l H. cbn in H.
    destruct H as [H|[H|[H|[]]]]; injection H as <- <-; reflexivity.
  - exists "ie 11". reflexivity.
Defined.

Lemma loaded_typed : Typed example_shape example_state loaded_heap.
Proof.
  split; try reflexivity.
  - apply (bool_decide_unpack _). vm_compute. exact I.
  - apply (bool_decide_unpack _). vm_compute. exact I.
  - apply (bool_decide_unpack _). vm_compute. exact I.
  - intros k l H. cbn in H.
    destruct H as [H|[H|[H|[]]]]; injection H as <- <-; reflexivity.
  - exists "ie 11". reflexivity.
Defined.

(** A setting is changed: the pass starts three loads, one of them a
    plugin's.  The debounce runs out and the code is compiled, without
    the plugin and the env preset that are still loading; then the
    runtime polyfill arrives and the compiled code is evaluated, which
    throws. *)
Example example_session :
  let w := @run example_collaborators
             [SettingChange "lineWrap" true; Elapse 500; TimerFired; LoadCompleted 1 true]
             example_world in
  _numLoadingPlugins w = 1%Z
  /\ loading w = [mkPendingLoad 0 (PluginLoaded (VPluginMap example_plugins));
                  mkPendingLoad 6 (EnvPresetLoaded (VPluginState 6))]
  /\ trace w
     = [CallLoadPlugin 0; CallLoadPlugin 5; CallLoadPlugin 6;
        CallCompile (VString "const f = x => x")
          (mkCompileConfig (VBool false)
             [Preset (VString "es2015"); Preset (VString "react")]
             (VBool false) (VBool true));
        CallScopedEval (VString "compiled") VNull]
  /\ field (state w) "evalError" = VString "ReferenceError"
  /\ field (state w) "lineWrap" = VBool true
  /\ timer w = None.
Proof. vm_compute. repeat split. Qed.

(** The load of the one plugin fails: the counter is back at zero, the
    plugin is not loaded, and the debounce is armed again. *)
Example example_failed_load :
  let w := @run example_collaborators
             [SettingChange "lineWrap" true; Elapse 500; TimerFired; LoadCompleted 0 false]
             example_world in
  _numLoadingPlugins w = 0%Z
  /\ isLoaded (heap w 0) = false
  /\ field (state w) "plugins" = VPluginMap example_plugins
  /\ timer w = Some (VString "const f = x => x", 500).
Proof. vm_compute. repeat split. Qed.

(** A name that is a key of the state wins over everything else, and
    the next compilation throws on what it finds in [plugins]. *)
Example example_clobbered_plugins :
  let w := @run example_collaborators
             [SettingChange "plugins" true; Elapse 500] example_world in
  field (state w) "plugins" = VBool true
  /\ fst (@handle example_collaborators TimerFired w)
     = Throw (TypeError "cannot read property isEnabled").
Proof. vm_compute. repeat split. Qed.

Lemma checkForUnloadedPlugins_loads_plugins_witness :
  Typed example_shape (state example_world) (heap example_world)
  /\ loading (snd (@_checkForUnloadedPlugins example_collaborators example_world))
     = [mkPendingLoad 0 (PluginLoaded (VPluginMap example_plugins));
        mkPendingLoad 5 PolyfillLoaded;
        mkPendingLoad 6 (EnvPresetLoaded (VPluginState 6))].
Proof.
  split; [exact example_typed|].
  exact (proj1 (proj2 (@checkForUnloadedPlugins_loads_plugins example_collaborators
                         example_shape example_world example_typed))).
Defined.

Lemma debounced_recompilation_witness :
  let burst := [("c", [Elapse 120; TimerFired]); ("co", [Elapse 300])] in
  let pause := [Elapse 400; TimerFired; Elapse 200] in
  let wait := [Elapse 1000; TimerFired] in
  Typed example_shape (state example_world) (heap example_world)
  /\ Forall (fun edit => short_pause (snd edit)) burst
  /\ forallb quiet pause = true
  /\ forallb quiet wait = true
  /\ DEBOUNCE_DELAY <= elapsed pause
  /\ compiled_codes
       (trace (@run example_collaborators
                 (burst_events burst ++ EditorChange "const" :: pause ++ TimerFired :: wait)
                 example_world))
     = [VString "const"].
Proof.
  intros burst pause wait.
  assert (Hb : Forall (fun edit => short_pause (snd edit)) burst).
  { repeat constructor; cbn; unfold DEBOUNCE_DELAY; lia. }
  assert (Hd : DEBOUNCE_DELAY <= elapsed pause) by (cbn; unfold DEBOUNCE_DELAY; lia).
  split; [exact example_typed|]. split; [exact Hb|].
  split; [reflexivity|]. split; [reflexivity|]. split; [exact Hd|].
  exact (proj1 (proj2 (proj2 (proj2 (@debounced_recompilation example_collaborators
                                       example_shape example_world burst "const" pause wait
                                       example_typed Hb eq_refl eq_refl))) Hd)).
Defined.

Lemma persisted_presets_field_witness :
  Typed example_shape example_state example_heap
  /\ exists props,
       @persisted_configuration example_collaborators example_state example_heap
       = Ok (VObject props)
       /\ prop props "presets" = VString "es2015,react,babili,env".
Proof.
  split; [exact example_typed|].
  exact (@persisted_presets_field example_collaborators
           example_shape example_state example_heap example_typed).
Defined.

(** Evaluation is switched off and on again once every module is
    loaded: [compile] is then asked to evaluate, and [useBuiltIns] is on
    all the same. *)
Lemma useBuiltIns_is_builtIns_witness :
  let w' := @run example_collaborators
              [SettingChange "babel-polyfill" false; SettingChange "babel-polyfill" true]
              loaded_world in
  state loaded_world !! "evaluate" = None
  /\ exists config options,
       @_compile_config example_collaborators (state w') (heap w') = Ok config
       /\ evaluate config = VBool true
       /\ In (PresetWithOptions "env" options) (presets config)
       /\ useBuiltIns options = VBool true.
Proof.
  intros w'.
  split; [reflexivity|].
  pose (options := mkEnvOptions true (mkTargets (Some ["ie 11"]) None None) (VBool true)).
  pose (config := mkCompileConfig (VBool true)
                    [Preset (VString "es2015"); Preset (VString "react");
                     Preset (VString "babili"); PresetWithOptions "env" options]
                    (VBool false) (VBool true)).
  assert (Hcfg : @_compile_config example_collaborators (state w') (heap w') = Ok config)
    by (vm_compute; reflexivity).
  assert (Hin : In (PresetWithOptions "env" options) (presets config))
    by (cbn; tauto).
  exists config, options.
  split; [exact Hcfg|]. split; [reflexivity|]. split; [exact Hin|].
  exact (@useBuiltIns_is_builtIns example_collaborators loaded_world _ config "env" options
           eq_refl Hcfg Hin).
Defined.

Lemma onSettingChange_changes_one_setting_witness :
  Typed example_shape (state example_world) (heap example_world)
  /\ state example_world !! "hasOwnProperty" = None
  /\ assoc "hasOwnProperty" example_plugins = None
  /\ assoc "hasOwnProperty" example_presets = None
  /\ change_setting "babel-polyfill" false example_world
     = (Ok tt, set_heap (heap_set example_heap 5 (with_isEnabled false (example_heap 5)))
                        example_world)
  /\ change_setting "lineWrap" true example_world
     = (Ok tt, set_state (<["lineWrap" := VBool true]> example_state) example_world)
  /\ change_setting "prettier" true example_world
     = (Ok tt, set_heap (heap_set example_heap 1 (with_isEnabled true (example_heap 1)))
                        example_world)
  /\ change_setting "babel-preset-stage-2" true example_world
     = (Ok tt, set_heap (heap_set example_heap 4 (with_isEnabled true (example_heap 4)))
                        example_world)
  /\ change_setting "evaluate" true example_world
     = (Ok tt, example_world).
Proof.
  pose proof (fun name isEnabled =>
    @onSettingChange_changes_one_setting example_collaborators example_shape
      example_world name isEnabled example_typed eq_refl eq_refl eq_refl) as H.
  split; [exact example_typed|]. split; [reflexivity|]. split; [reflexivity|].
  split; [reflexivity|].
  split; [exact (proj1 (H "babel-polyfill" false) eq_refl)|].
  split; [apply (proj1 (proj2 (H "lineWrap" true))); [discriminate|by eexists]|].
  split; [apply (proj1 (proj2 (proj2 (H "prettier" true)))); [discriminate|reflexivity..]|].
  split; [apply (proj1 (proj2 (proj2 (proj2 (H "babel-preset-stage-2" true)))));
          [discriminate|reflexivity..]|].
  apply (proj1 (proj2 (proj2 (proj2 (proj2 (H "evaluate" true)))))); [discriminate|reflexivity..].
Defined.

(** Once every module is loaded [compile] is asked to evaluate; before,
    the pass starts the load of the runtime polyfill; and when that load
    completes after a compilation, the compiled code is evaluated and
    [compile] is not called again. *)
Lemma evaluation_gated_by_polyfill_witness :
  let w := @run example_collaborators
             [SettingChange "lineWrap" true; Elapse 500; TimerFired] example_world in
  let w' := @step example_collaborators w (LoadCompleted 1 true) in
  (exists config,
      trace (snd (@_compile example_collaborators (VString "x") example_state loaded_world))
      = [CallCompile (VString "x") config]
      /\ evaluate config = VBool true)
  /\ In (mkPendingLoad 5 PolyfillLoaded) (@pass_loads example_shape example_heap)
  /\ loading w !! 1 = Some (mkPendingLoad 5 PolyfillLoaded)
  /\ trace w' = trace w ++ [CallScopedEval (VString "compiled") VNull]
  /\ compiled_codes (trace w') = compiled_codes (trace w).
Proof.
  intros w w'.
  pose proof (@evaluation_gated_by_polyfill example_collaborators) as (H1 & H2 & _ & H4).
  assert (Hl : loading w !! 1 = Some (mkPendingLoad 5 PolyfillLoaded)) by reflexivity.
  split; [|split; [|split; [exact Hl|]]].
  - exact (H1 (VString "x") example_state loaded_world _ _ 5 eq_refl eq_refl).
  - apply (proj2 (H2 example_shape example_world example_typed)). by split.
  - destruct (H4 w 1 true _ Hl eq_refl) as (_ & Ht & Hc & _).
    cbn zeta in Ht, Hc. fold w' in Ht, Hc. split; [|exact Hc].
    rewrite Ht. vm_compute. reflexivity.
Defined.

Lemma persistState_writes_one_object_witness :
  let w' := @run example_collaborators
              [SettingChange "lineWrap" true; Elapse 500; TimerFired] example_world in
  Typed example_shape (state example_world) (heap example_world)
  /\ ~ In "lineWrap" object_fields
  /\ DEBOUNCE_DELAY <= 500
  /\ exists props,
       @persisted_configuration example_collaborators (state w') (heap w')
       = Ok (VObject props)
       /\ localStorage w' !! "replState" = Some (VObject props)
       /\ query w' = Some (VObject props).
Proof.
  intros w'.
  assert (Hname : ~ In "lineWrap" object_fields).
  { cbn. intros H. repeat destruct H as [H|H]; try discriminate H. exact H. }
  assert (Hms : DEBOUNCE_DELAY <= 500) by (unfold DEBOUNCE_DELAY; lia).
  split; [exact example_typed|]. split; [exact Hname|]. split; [exact Hms|].
  exact (proj1 (proj2 (proj2 (proj2 (proj2
           (@persistState_writes_one_object example_collaborators)))))
           example_shape example_world "lineWrap" true 500
           example_typed eq_refl eq_refl eq_refl Hname Hms).
Defined.

(** Once the env preset is loaded, with [debugEnvPreset] on, the debug
    info is that of the preset's build. *)
Lemma envPresetDebugInfo_gated_witness :
  exists partial w' config result,
    @_compile example_collaborators (VString "x") example_state loaded_world
    = (Ok partial, w')
    /\ trace w' = [CallCompile (VString "x") config]
    /\ In result (@presetBuilds example_collaborators (VString "x") config)
    /\ partial !! "envPresetDebugInfo"
       = Some (@getDebugInfoFromEnvResult example_collaborators result).
Proof.
  destruct (@_compile example_collaborators (VString "x") example_state loaded_world)
    as [[partial|e] w'] eqn:Hr; [|vm_compute in Hr; discriminate Hr].
  destruct (proj1 (@envPresetDebugInfo_gated example_collaborators)
              (VString "x") example_state loaded_world partial w' Hr)
    as (config & info & Htrace & Hinfo & _ & Hon).
  assert (Hnot : info <> VNull).
  { vm_compute in Hr. injection Hr as <- _. vm_compute in Hinfo.
    injection Hinfo as <-. discriminate. }
  destruct (Hon Hnot) as (_ & _ & result & Hin & ->).
  exists partial, w', config, result. by repeat split.
Defined.

(** The runtime polyfill arrives after a compilation: the compiled code
    is evaluated, what it throws is caught and ends in [evalError]. *)
Lemma polyfill_callback_catches_witness :
  let w := @run example_collaborators
             [SettingChange "lineWrap" true; Elapse 500; TimerFired] example_world in
  let w' := @step example_collaborators w (LoadCompleted 1 true) in
  loading w !! 1 = Some (mkPendingLoad 5 PolyfillLoaded)
  /\ truthy (field (state w) "compiled") = true
  /\ fst (@handle example_collaborators (LoadCompleted 1 true) w) = Ok tt
  /\ trace w' = trace w ++ [CallScopedEval (VString "compiled") VNull]
  /\ field (state w') "evalError" = VString "ReferenceError".
Proof.
  intros w w'.
  pose proof (@polyfill_callback_catches example_collaborators) as (_ & H2 & _).
  assert (Hl : loading w !! 1 = Some (mkPendingLoad 5 PolyfillLoaded)) by reflexivity.
  assert (Hc : truthy (field (state w) "compiled") = true) by reflexivity.
  destruct (H2 w 1 true _ Hl eq_refl) as (Heq & _ & Hev).
  destruct (Hev Hc) as (Ht & He & _). cbn zeta in Heq, Ht, He. fold w' in Ht, He.
  split; [exact Hl|]. split; [exact Hc|]. split; [by rewrite Heq|].
  split; [rewrite Ht; vm_compute; reflexivity|].
  rewrite He. vm_compute. reflexivity.
Defined.

(** One plugin is loading; its load fails: the counter comes back to
    zero, [_updateCode] is called, and the world is consistent again. *)
Lemma plugin_loads_counted_witness :
  let w := @run example_collaborators [SettingChange "lineWrap" true] example_world in
  let pending := mkPendingLoad 0 (PluginLoaded (VPluginMap example_plugins)) in
  let w1 := @plugin_completed example_collaborators 0 false pending
              (VPluginMap example_plugins) w in
  Consistent w
  /\ _numLoadingPlugins w = 1%Z
  /\ loading w !! 0 = Some pending
  /\ @handle example_collaborators (LoadCompleted 0 false) w
     = (Ok tt, code_updated (field (state w1) "code") w1)
  /\ Consistent (@step example_collaborators w (LoadCompleted 0 false)).
Proof.
  intros w pending w1.
  pose proof (@plugin_loads_counted example_collaborators)
    as (_ & Hdone & Hstep & Hrun & _ & Hinit).
  assert (Hw : Consistent w).
  { apply Hrun. by apply (Hinit example_shape example_world example_typed). }
  split; [exact Hw|]. split; [reflexivity|]. split; [reflexivity|].
  split; [|exact (Hstep w (LoadCompleted 0 false) Hw)].
  exact (proj1 (Hdone w 0 false pending (VPluginMap example_plugins) eq_refl eq_refl)).
Defined.

(** ** Further properties of the component *)

Section Further.

Context {collaborators : Collaborators} {replUtils : ReplUtils}.

Local Arguments getProp : simpl never.
Local Arguments hasOwnProperty : simpl never.
Local Arguments loadPlugin : simpl never.
Local Arguments _persistState : simpl never.
Local Arguments _compile : simpl never.
Local Arguments _compile_config : simpl never.
Local Arguments persisted_configuration : simpl never.
Local Arguments compileToState_body : simpl never.
Local Arguments timerExpired : simpl never.
Local Arguments _updateCode : simpl never.
Local Arguments _checkForUnloadedPlugins : simpl never.
Local Arguments on_polyfill_loaded : simpl never.
Local Arguments run : simpl never.
Local Arguments step : simpl never.

(** *** Objects built by spreading *)

Lemma assoc_replace_prop (k k' : string) (v : Val) (props : list (string * Val)) :
  is_Some (assoc k props) ->
  assoc k' (replace_prop k v props) = if String.eqb k k' then Some v else assoc k' props.
Proof.
  induction props as [|[k0 v0] props IH]; cbn; [by intros [? ?]|].
  destruct (String.eqb_spec k0 k) as [->|Hne]; intros Hk; cbn.
  - by destruct (String.eqb k k').
  - rewrite (IH Hk).
    destruct (String.eqb_spec k0 k') as [->|]; [|done].
    by destruct (String.eqb_spec k k') as [->|].
Qed.

Lemma assoc_add_prop (k k' : string) (v : Val) (props : list (string * Val)) :
  assoc k props = None ->
  assoc k' (add_prop k v props) = if String.eqb k k' then Some v else assoc k' props.
Proof.
  induction props as [|[k0 v0] props IH]; cbn; [done|].
  destruct (String.eqb_spec k0 k) as [->|Hne]; [done|]. intros Hk.
  destruct (enumerated_before k k0); cbn; [done|].
  rewrite (IH Hk).
  destruct (String.eqb_spec k0 k') as [->|]; [|done].
  by destruct (String.eqb_spec k k') as [->|].
Qed.

Lemma assoc_define_prop (k k' : string) (v : Val) (props : list (string * Val)) :
  assoc k' (define_prop k v props) = if String.eqb k k' then Some v else assoc k' props.
Proof.
  unfold define_prop. destruct (assoc k props) eqn:Hk.
  - by apply assoc_replace_prop.
  - by apply assoc_add_prop.
Qed.

Lemma prop_define_prop (k k' : string) (v : Val) (props : list (string * Val)) :
  prop (define_prop k v props) k' = if String.eqb k k' then v else prop props k'.
Proof.
  unfold prop. rewrite assoc_define_prop. by destruct (String.eqb k k').
Qed.


Lemma lookup_list_to_map_assoc (l : list (string * Val)) (k : string) :
  (list_to_map l : gmap string Val) !! k = assoc k l.
Proof.
  induction l as [|[k' v] l IH]; cbn; [done|].
  destruct (String.eqb_spec k' k) as [->|Hne].
  - by rewrite lookup_insert_eq.
  - by rewrite lookup_insert_ne.
Qed.

Lemma assoc_is_Some {A : Type} (k : string) (l : list (string * A)) :
  is_Some (assoc k l) <-> In k (map fst l).
Proof.
  induction l as [|[k' a] l IH]; cbn.
  - split; [by intros [? ?]|done].
  - destruct (String.eqb_spec k' k) as [->|Hne].
    + split; [by left|by eexists].
    + rewrite IH. tauto.
Qed.

(** *** What the pass leaves alone *)

Ltac keeps_go leaf :=
  repeat match goal with
         | |- keeps _ (ret _) => apply keeps_ret
         | |- keeps _ (throw _) => apply keeps_throw
         | |- keeps _ (read _) => apply keeps_read
         | |- keeps _ getState => apply keeps_getState
         | |- keeps _ (when _ _) => apply keeps_when
         | |- keeps _ (forM _ _) => apply keeps_forM; intros ?
         | |- keeps _ (bind _ _) => apply keeps_bind; [| intros ?]
         | |- keeps _ (update _) => apply keeps_update; intros ? ?; leaf
         end.

Lemma loadPlugin_frame (P : World -> Prop) (pluginState : Val) (cb : LoadCallback) :
  (forall w l, P w -> P (started l cb w)) -> keeps P (loadPlugin pluginState cb).
Proof.
  intros H. destruct pluginState; try apply keeps_throw.
  intros w Hw. rewrite loadPlugin_started. cbn. by apply H.
Qed.

Lemma pass_frame (P : World -> Prop) :
  (forall w n, P w -> P (set_numLoadingPlugins n w)) ->
  (forall w l cb, P w -> P (started l cb w)) ->
  keeps P _checkForUnloadedPlugins.
Proof.
  intros Hn Hs. unfold _checkForUnloadedPlugins.
  apply keeps_bind; [apply keeps_getState|]. intros st.
  apply keeps_bind; [|intros _; apply keeps_bind; [|intros _]].
  - unfold check_plugins. apply keeps_bind; [apply keeps_read|]. intros keys.
    apply keeps_forM. intros key. unfold check_plugin.
    keeps_go ltac:(by apply Hn). apply loadPlugin_frame. intros; by apply Hs.
  - unfold check_polyfill. keeps_go idtac. apply loadPlugin_frame. intros; by apply Hs.
  - unfold check_envPreset. keeps_go idtac. apply loadPlugin_frame. intros; by apply Hs.
Qed.

Lemma pass_keeps_state (w : World) : state (snd (_checkForUnloadedPlugins w)) = state w.
Proof. by apply (pass_frame (fun w' => state w' = state w)). Qed.

Lemma callback_unfold (w : World) :
  _presetsUpdatedSetStateCallback w
  = match _checkForUnloadedPlugins w with
    | (Ok _, w1) => (Ok tt, code_updated (field (state w1) "code") w1)
    | (Throw e, w1) => (Throw e, w1)
    end.
Proof.
  unfold _presetsUpdatedSetStateCallback, bind at 1.
  destruct (_checkForUnloadedPlugins w) as [[[]|e] w1]; [|done].
  unfold bind, getState. by rewrite updateCode_spec.
Qed.

Lemma callback_fields (w : World) (k : string) :
  field (state (snd (_presetsUpdatedSetStateCallback w))) k = field (state w) k.
Proof.
  rewrite callback_unfold. pose proof (pass_keeps_state w) as Hst.
  destruct (_checkForUnloadedPlugins w) as [[[]|e] w1]; cbn in *; [|by rewrite Hst].
  rewrite field_insert. destruct (decide _) as [<-|]; by rewrite Hst.
Qed.

Lemma onEnvPresetSettingChange_unfold (name : string) (value : Val) (w : World) :
  _onEnvPresetSettingChange name value w
  = _presetsUpdatedSetStateCallback
      (set_state (<["envConfig" := VObject (define_prop name value
                      (own_props (heap w) (field (state w) "envConfig")))]> (state w)) w).
Proof.
  unfold _onEnvPresetSettingChange, setState_with, bind, getState, read, ret, update.
  by rewrite merge_singleton.
Qed.

(** X1.  [_onEnvPresetSettingChange(name, value)] replaces [envConfig]
    by an object that has [value] under [name] and, under every other
    name, what the own properties of the old [envConfig] had; every
    other field of the state reads as before.  This holds of every
    world, whether or not the check for unloaded plugins that follows
    returns. *)
Theorem envPresetSetting_sets_one_key (name : string) (value : Val) (w : World) :
  let w' := step w (EnvPresetSettingChange name value) in
  let before := own_props (heap w) (field (state w) "envConfig") in
  exists after,
    field (state w') "envConfig" = VObject after
    /\ prop after name = value
    /\ (forall k, k <> name -> prop after k = prop before k)
    /\ (forall k, k <> "envConfig" -> field (state w') k = field (state w) k).
Proof.
  cbn zeta. unfold step. cbn [handle]. rewrite onEnvPresetSettingChange_unfold.
  exists (define_prop name value (own_props (heap w) (field (state w) "envConfig"))).
  split; [|split; [|split]].
  - rewrite callback_fields. cbn. rewrite field_insert.
    destruct (decide _); [reflexivity|done].
  - rewrite prop_define_prop. by rewrite String.eqb_refl.
  - intros k Hk. rewrite prop_define_prop.
    by destruct (String.eqb_spec name k) as [->|].
  - intros k Hk. rewrite callback_fields. cbn. by rewrite field_insert_ne.
Qed.

(** *** The env preset *)

Definition with_envConfig (envConfig : list (string * Val)) (S : Shape) : Shape :=
  {| sh_plugins := sh_plugins S;
     sh_presets := sh_presets S;
     sh_envConfig := envConfig;
     sh_babel := sh_babel S;
     sh_envPresetState := sh_envPresetState S;
     sh_runtimePolyfillState := sh_runtimePolyfillState S;
     sh_babili := sh_babili S;
     sh_prettier := sh_prettier S |}.

Lemma Typed_envConfig (S : Shape) (st : gmap string Val) (h : Heap)
    (envConfig : list (string * Val)) :
  Typed S st h ->
  (exists s, prop envConfig "browsers" = VString s) ->
  Typed (with_envConfig envConfig S) (<["envConfig" := VObject envConfig]> st) h.
Proof.
  intros [] Hb.
  split; cbn; rewrite ?field_insert; try done; by destruct (decide _).
Qed.

Lemma own_props_envConfig (S : Shape) (st : gmap string Val) (h : Heap) :
  Typed S st h -> own_props h (field st "envConfig") = sh_envConfig S.
Proof. intros T. by rewrite (ty_envConfig _ _ _ T). Qed.

Lemma In_pass_loads_env (S : Shape) (h : Heap) :
  In (mkPendingLoad (sh_envPresetState S)
                    (EnvPresetLoaded (VPluginState (sh_envPresetState S))))
     (pass_loads S h)
  <-> envPreset_wanted (sh_envConfig S) (h (sh_envPresetState S)) = true.
Proof.
  unfold pass_loads. rewrite !in_app_iff, in_map_iff. split.
  - intros [(l & Hl & _)|[H|H]]; [done| |].
    + destruct (polyfill_wanted _); cbn in H; [by destruct H|done].
    + by destruct (envPreset_wanted _ _).
  - intros ->. right. right. by left.
Qed.

(** X2.  From a well-typed state, [_onEnvPresetSettingChange] on
    [isEnvPresetEnabled] returns; the check for unloaded plugins it runs
    starts the load of the env preset exactly when the new value is
    truthy and the preset is not loaded; nothing is compiled at once, the
    debounced compilation of the current code is armed. *)
Theorem envPreset_enabled_starts_its_load (S : Shape) (w : World) (value : Val) :
  Typed S (state w) (heap w) ->
  let w' := step w (EnvPresetSettingChange "isEnvPresetEnabled" value) in
  let envLoad := mkPendingLoad (sh_envPresetState S)
                               (EnvPresetLoaded (VPluginState (sh_envPresetState S))) in
  fst (handle (EnvPresetSettingChange "isEnvPresetEnabled" value) w) = Ok tt
  /\ (exists started,
        loading w' = loading w ++ started
        /\ (In envLoad started <->
            truthy value = true /\ isLoaded (heap w (sh_envPresetState S)) = false))
  /\ timer w' = Some (field (state w) "code", now w)
  /\ compiled_codes (trace w') = compiled_codes (trace w).
Proof.
  intros HT. cbn zeta. unfold step. cbn [handle].
  rewrite onEnvPresetSettingChange_unfold, (own_props_envConfig S _ _ HT).
  set (ec := define_prop "isEnvPresetEnabled" value (sh_envConfig S)).
  set (w1 := set_state _ w).
  assert (HT1 : Typed (with_envConfig ec S) (state w1) (heap w1)).
  { apply Typed_envConfig; [done|]. destruct (ty_browsers _ _ _ HT) as [s Hs].
    exists s. unfold ec. by rewrite prop_define_prop. }
  rewrite callback_unfold, (pass_typed _ _ HT1). cbn [fst snd].
  destruct (after_pass_spec _ _ HT1) as (Hl & _ & Hst & Ht & Hn & _ & _ & Hc).
  split; [done|]. split; [|split].
  - exists (pass_loads (with_envConfig ec S) (heap w)). split; [exact Hl|].
    pose proof (In_pass_loads_env (with_envConfig ec S) (heap w)) as Hin.
    cbn [sh_envPresetState sh_envConfig with_envConfig] in Hin. rewrite Hin.
    unfold envPreset_wanted, ec.
    rewrite prop_define_prop. cbn.
    rewrite andb_true_iff, negb_true_iff. done.
  - cbn. rewrite Hst, Hn. cbn. by rewrite field_insert_ne.
  - cbn. exact Hc.
Qed.

Lemma getProp_plugin (h : Heap) (l : loc) :
  getProp h (VPluginState l) "plugin" = Ok (plugin (h l)).
Proof. done. Qed.

(** X3.  When the load of the env preset completes, its callback
    registers, under the name [env], the [default] of the module that
    [loadPlugin] left in [envPresetState.plugin], and arms the debounced
    compilation of the current code; it does not look at whether the load
    succeeded.  When [envPresetState.plugin] is [null] or [undefined] it
    throws a [TypeError] instead: nothing is registered and no
    compilation is armed. *)
Theorem envPreset_callback_registers (w : World) (i : nat) (success : bool)
    (pending : PendingLoad) (l : loc) :
  loading w !! i = Some pending ->
  callback pending = EnvPresetLoaded (VPluginState l) ->
  let w1 := set_heap (heap_set (heap w) (target pending)
                               (loadPlugin_end success (heap w (target pending))))
                     (set_loading (delete i (loading w)) w) in
  let module := plugin (heap w1 l) in
  if nullish module
  then exists what, handle (LoadCompleted i success) w = (Throw (TypeError what), w1)
  else exists preset,
         getProp (heap w1) module "default" = Ok preset
         /\ handle (LoadCompleted i success) w
            = (Ok tt, code_updated (field (state w) "code")
                        (set_trace (trace w ++ [CallRegisterPreset "env" preset]) w1)).
Proof.
  intros Hi Hcb. cbn zeta. cbn [handle]. unfold loadCompleted. rewrite Hi, Hcb.
  cbn [run_callback]. unfold on_envPreset_loaded, bind, update, read, emit, getState.
  cbn. rewrite getProp_plugin. cbn. unfold getProp.
  destruct (nullish (plugin _)) eqn:Hnull.
  - by eexists.
  - eexists. split; [reflexivity|]. by rewrite updateCode_spec.
Qed.

(** *** What [_compile] hands to [compile] *)

(** The [targets] built from an [envConfig] whose [browsers] is the
    string [s]. *)
Definition selected_targets (envConfig : list (string * Val)) (s : string) : Targets :=
  {| t_browsers := if String.eqb s "" then None else Some (browserTargets s);
     t_electron := if truthy (prop envConfig "isElectronEnabled")
                   then Some (prop envConfig "electron") else None;
     t_node := if truthy (prop envConfig "isNodeEnabled")
               then Some (prop envConfig "node") else None |}.

Lemma env_targets_spec (h : Heap) (ec : list (string * Val)) (s : string) :
  prop ec "browsers" = VString s ->
  env_targets (VObject ec) h = Ok (selected_targets ec s).
Proof.
  intros Hb. unfold env_targets, selected_targets. rewrite !getProp_object, Hb. cbn.
  destruct (String.eqb s ""); cbn;
    destruct (truthy (prop ec "isElectronEnabled")); cbn;
    destruct (truthy (prop ec "isNodeEnabled")); cbn; reflexivity.
Qed.

Lemma compile_config_spec (S : Shape) (st : gmap string Val) (h : Heap) (s : string) :
  Typed S st h ->
  prop (sh_envConfig S) "browsers" = VString s ->
  _compile_config st h =
  Ok {| evaluate := VBool (enabled_loaded (h (sh_runtimePolyfillState S)));
        presets :=
          map Preset (selected_labels h (sh_presets S))
          ++ (if enabled_loaded (h (sh_babili S)) then [Preset (VString "babili")] else [])
          ++ (if truthy (prop (sh_envConfig S) "isEnvPresetEnabled")
                 && isLoaded (h (sh_envPresetState S))
              then [env_entry st (selected_targets (sh_envConfig S) s)] else []);
        prettify := VBool (isEnabled (h (sh_prettier S)));
        sourceMap := VBool (isEnabled (h (sh_runtimePolyfillState S))) |}.
Proof.
  intros T Hs. unfold _compile_config.
  rewrite (presetsToArray_typed st h (sh_presets S))
    by (first [apply T | apply (ty_configs _ _ _ T)]).
  rewrite (ty_plugins _ _ _ T), (ty_envConfig _ _ _ T), (ty_envPresetState _ _ _ T),
    (ty_runtimePolyfillState _ _ _ T).
  cbn. rewrite !(getProp_entry h _ _ _ (ty_babili _ _ _ T)),
    !(getProp_entry h _ _ _ (ty_prettier _ _ _ T)).
  cbn. rewrite !getProp_isEnabled. cbn.
  rewrite !getProp_object. cbn. rewrite (env_targets_spec h _ _ Hs).
  unfold and_then, enabled_loaded, env_entry, js_not. cbn.
  rewrite ?getProp_isLoaded, ?getProp_isEnabled. cbn.
  destruct (truthy (prop (sh_envConfig S) "isEnvPresetEnabled")) eqn:Henv;
    destruct (isEnabled (h (sh_babili S))), (isLoaded (h (sh_babili S))),
      (isLoaded (h (sh_envPresetState S))),
      (isEnabled (h (sh_runtimePolyfillState S))),
      (isLoaded (h (sh_runtimePolyfillState S))),
      (truthy (field st "evaluate"));
    cbn; rewrite ?Henv; cbn; rewrite <- ?app_assoc, ?app_nil_r; reflexivity.
Qed.

(** X4.  From a well-typed state, [_compile] calls [compile] once, with
    the code it is given, and changes nothing else.  The presets it hands
    over are the labels of the presets that are enabled and loaded, in
    the order of [state.presets]; then [babili] when that plugin is
    enabled and loaded; then the env preset with its options when it is
    enabled and loaded.  The targets of these options have [browsers]
    only for a non-empty [envConfig.browsers], and [electron] and [node]
    only when [isElectronEnabled] and [isNodeEnabled] are set.
    [prettify] and [sourceMap] follow [isEnabled] of the prettier plugin
    and of the runtime polyfill, loaded or not. *)
Theorem compile_hands_over_selection (S : Shape) (code : Val) (st : gmap string Val)
    (w : World) (s : string) :
  Typed S st (heap w) ->
  prop (sh_envConfig S) "browsers" = VString s ->
  exists config,
    _compile code st w
    = (Ok (<["envPresetDebugInfo" := debugInfo_after code config]>
             (result_object (compile code config))),
       set_trace (trace w ++ [CallCompile code config]) w)
    /\ presets config
       = map Preset (selected_labels (heap w) (sh_presets S))
         ++ (if isEnabled (heap w (sh_babili S)) && isLoaded (heap w (sh_babili S))
             then [Preset (VString "babili")] else [])
         ++ (if truthy (prop (sh_envConfig S) "isEnvPresetEnabled")
                && isLoaded (heap w (sh_envPresetState S))
             then [env_entry st (selected_targets (sh_envConfig S) s)] else [])
    /\ prettify config = VBool (isEnabled (heap w (sh_prettier S)))
    /\ sourceMap config = VBool (isEnabled (heap w (sh_runtimePolyfillState S))).
Proof.
  intros T Hs. eexists. split; [|split; [|split]].
  - unfold _compile, bind, read, emit, update, ret.
    rewrite (compile_config_spec S st (heap w) s T Hs). reflexivity.
  - reflexivity.
  - reflexivity.
  - reflexivity.
Qed.

(** X5.  When [state.plugins] has no [babili-standalone] (the map lacks
    the key, or the field holds a boolean), [_compile] throws a
    [TypeError] before it calls [compile].  The debounced compilation
    then ends in this error with its timer cleared: the state keeps its
    old compilation results, nothing is persisted and no further
    invocation is owed.  [_persistState] throws likewise, so a change of
    the sidebar is stored in the state and not persisted. *)
Theorem compile_without_babili_throws (w : World) (labels : list Val) :
  _presetsToArray (state w) (heap w) = Ok labels ->
  getProp (heap w) (field (state w) "plugins") "babili-standalone" = Ok VUndefined ->
  exists what,
    (forall code, _compile code (state w) w = (Throw (TypeError what), w))
    /\ (forall code t,
          timer w = Some (code, t) -> DEBOUNCE_DELAY <= now w - t ->
          handle TimerFired w = (Throw (TypeError what), set_timer None w))
    /\ (forall isExpanded,
          handle (SidebarExpandedChange isExpanded) w
          = (Throw (TypeError what),
             set_state (<["isSidebarExpanded" := VBool isExpanded]> (state w)) w)).
Proof.
  intros Hp Hb. exists "cannot read property isEnabled".
  assert (Hc : forall code, _compile code (state w) w
                            = (Throw (TypeError "cannot read property isEnabled"), w)).
  { intros code. unfold _compile, bind, read, _compile_config.
    rewrite Hp. cbn. rewrite Hb. cbn. reflexivity. }
  split; [exact Hc|]. split.
  - intros code t Ht Hdue. cbn [handle].
    rewrite (timerExpired_due code t w Ht Hdue), compileToState_body_unfold.
    unfold _compile, bind, read, _compile_config. cbn [state heap set_timer].
    rewrite Hp. cbn. rewrite Hb. cbn. reflexivity.
  - intros isExpanded. cbn [handle]. rewrite onIsSidebarExpandedChange_spec.
    apply persistState_Throw. cbn [state heap set_state].
    unfold persisted_configuration.
    assert (Hp' : _presetsToArray (<["isSidebarExpanded" := VBool isExpanded]> (state w))
                                  (heap w) = Ok labels).
    { unfold _presetsToArray in *. by rewrite field_insert_ne. }
    rewrite Hp'. cbn. rewrite !field_insert_ne by done. rewrite Hb. cbn. reflexivity.
Qed.

(** *** A preset is switched on or off *)

Lemma selected_labels_filter (h : Heap) (g : string * loc -> bool)
    (entries : list (string * loc)) :
  (forall e, In e entries -> enabled_loaded (h (snd e)) = g e) ->
  selected_labels h entries = map (fun e => label_of h (snd e)) (List.filter g entries).
Proof.
  unfold selected_labels. induction entries as [|e entries IH]; intros H; [done|].
  cbn. rewrite (H e) by (by left).
  destruct (g e); cbn; rewrite IH; try done; intros; apply H; by right.
Qed.

Lemma config_toggled (h : Heap) (l l' : loc) (b : bool) :
  config (heap_set h l (with_isEnabled b (h l)) l') = config (h l').
Proof. unfold heap_set. by destruct (Nat.eqb_spec l' l) as [->|]. Qed.

(** X6.  From a well-typed state, after [_onSettingChange(name,
    isEnabled)] on the name of a preset, [_presetsToArray] returns the
    labels of: that preset exactly when [isEnabled] is set and the
    preset is loaded; every other preset exactly when it was enabled and
    loaded before.  The order is that of [state.presets]. *)
Theorem toggled_preset_selection (S : Shape) (w : World) (name : string)
    (isEnabled : bool) (l : loc) :
  Typed S (state w) (heap w) ->
  name <> "babel-polyfill" ->
  state w !! "hasOwnProperty" = None ->
  state w !! name = None ->
  assoc "hasOwnProperty" (sh_plugins S) = None ->
  assoc name (sh_plugins S) = None ->
  assoc "hasOwnProperty" (sh_presets S) = None ->
  assoc name (sh_presets S) = Some l ->
  let w' := step w (SettingChange name isEnabled) in
  _presetsToArray (state w') (heap w')
  = Ok (map (fun e => label_of (heap w') (snd e))
            (selected_after (heap w) l isEnabled (sh_presets S))).
Proof.
  intros HT Hname Hown Hkey Hownp Hplug Hownq Hpre. cbn zeta. unfold step. cbn [handle].
  rewrite onSettingChange_unfold,
    (updater_preset S w name isEnabled l HT Hname Hown Hkey Hownp Hplug Hownq Hpre).
  set (w1 := set_heap _ w).
  assert (HT1 : Typed S (state w1) (heap w1)).
  { apply (Typed_heap_ext S _ (heap w)); [|done]. intros k l' _. apply config_toggled. }
  rewrite callback_unfold, (pass_typed S w1 HT1). cbn [fst snd].
  destruct (after_pass_spec S w1 HT1) as (_ & _ & Hst & _).
  rewrite (presetsToArray_typed _ _ (sh_presets S)).
  - f_equal. cbn [heap code_updated set_timer set_state].
    apply selected_labels_filter. intros [k l'] Hin.
    rewrite (after_pass_presets S w1 k l' HT1 Hin). cbn. unfold heap_set.
    by destruct (Nat.eqb l' l).
  - cbn. rewrite field_insert_ne by done. rewrite Hst. apply HT.
  - apply HT.
  - intros k l' Hin. cbn [heap code_updated set_timer set_state].
    rewrite (after_pass_presets S w1 k l' HT1 Hin). by apply (ty_configs _ _ _ HT1 k).
Qed.

(** *** The sidebar and the view *)

(** X7.  [_onIsSidebarExpandedChange] sets [isSidebarExpanded] and
    nothing else in the state; it compiles nothing, starts no load and
    leaves the debounce alone.  From a well-typed state it persists, to
    local storage and to the URL, a configuration whose [showSidebar] is
    the new value. *)
Theorem sidebar_change_only_persists (w : World) (isExpanded : bool) :
  let w' := step w (SidebarExpandedChange isExpanded) in
  state w' = <["isSidebarExpanded" := VBool isExpanded]> (state w)
  /\ heap w' = heap w
  /\ trace w' = trace w
  /\ timer w' = timer w
  /\ loading w' = loading w
  /\ _numLoadingPlugins w' = _numLoadingPlugins w
  /\ forall S, Typed S (state w) (heap w) ->
       exists props,
         localStorage w' !! "replState" = Some (VObject props)
         /\ query w' = Some (VObject props)
         /\ prop props "showSidebar" = VBool isExpanded
         /\ prop props "code" = field (state w) "code".
Proof.
  cbn zeta. unfold step. cbn [handle]. rewrite onIsSidebarExpandedChange_spec.
  set (w1 := set_state _ w).
  destruct (persisted_configuration (state w1) (heap w1)) as [c|e] eqn:Hc.
  - rewrite (persistState_Ok w1 c Hc). cbn. repeat (split; [done|]).
    intros S HT.
    assert (HT1 : Typed S (state w1) (heap w1)) by (by apply Typed_insert).
    rewrite (persisted_configuration_typed S _ _ HT1) in Hc. injection Hc as <-.
    eexists. rewrite lookup_insert_eq. split; [reflexivity|]. split; [reflexivity|].
    split; cbn.
    + by rewrite field_insert.
    + by rewrite field_insert_ne.
  - rewrite (persistState_Throw w1 e Hc). cbn. repeat (split; [done|]).
    intros S HT.
    assert (HT1 : Typed S (state w1) (heap w1)) by (by apply Typed_insert).
    by rewrite (persisted_configuration_typed S _ _ HT1) in Hc.
Qed.

(** X8.  With [state.babel] an object, [render] returns: the loader
    while [babel.isLoaded] is falsy, the panels otherwise.  The loader's
    message is never empty: it is [Loading Babel...] unless
    [babel.didError], and then [babel.errorMessage] when there is one;
    the animation shows while [babel.isLoading].  The input panel shows
    [code] and [compileError] and reports changes to [_updateCode], the
    output panel shows [compiled] and [evalError]. *)
Theorem render_loader_until_loaded (st : gmap string Val) (h : Heap)
    (babel : list (string * Val)) :
  field st "babel" = VObject babel ->
  exists view,
    render st h = Ok view
    /\ match view with
       | Loader message animation =>
           truthy (prop babel "isLoaded") = false
           /\ truthy message = true
           /\ (truthy (prop babel "didError") = false ->
               message = VString "Loading Babel...")
           /\ (truthy (prop babel "didError") = true ->
               truthy (prop babel "errorMessage") = true ->
               message = prop babel "errorMessage")
           /\ animation = truthy (prop babel "isLoading")
       | Panels options input output =>
           truthy (prop babel "isLoaded") = true
           /\ panel_code input = field st "code"
           /\ panel_error input = field st "compileError"
           /\ panel_onChange input = true
           /\ panel_code output = field st "compiled"
           /\ panel_error output = field st "evalError"
           /\ panel_onChange output = false
       end.
Proof.
  intros Hb. unfold render. rewrite Hb, !getProp_object. cbn.
  destruct (truthy (prop babel "isLoaded")) eqn:Hl; cbn.
  - eexists. split; [reflexivity|]. cbn. repeat split; done.
  - destruct (truthy (prop babel "didError")) eqn:He; cbn.
    + destruct (truthy (prop babel "errorMessage")) eqn:Hm; cbn;
        (eexists; split; [reflexivity|]; cbn; repeat split; done).
    + eexists. split; [reflexivity|]. cbn. repeat split; done.
Qed.

(** *** The presets the constructor reads back *)

Lemma String_split_plain (c : ascii) (s : string) :
  has_char c s = false -> String_split c s = [s].
Proof.
  induction s as [|a s IH]; cbn; [done|].
  destruct (Ascii.eqb a c); cbn; [done|]. intros H. by rewrite (IH H).
Qed.

Lemma String_split_app (c : ascii) (s rest : string) :
  has_char c s = false ->
  String_split c (s +:+ String c rest) = s :: String_split c rest.
Proof.
  induction s as [|a s IH]; intros H; simpl.
  - by rewrite Ascii.eqb_refl.
  - cbn in H. destruct (Ascii.eqb a c); [done|]. by rewrite (IH H).
Qed.

Lemma String_split_concat (c : ascii) (names : list string) :
  names <> [] ->
  Forall (fun n => has_char c n = false) names ->
  String_split c (String.concat (String c EmptyString) names) = names.
Proof.
  induction names as [|n names IH]; [done|]. intros _ Hall.
  apply Forall_cons in Hall as [Hn Hall]. destruct names as [|n' names].
  - cbn. by apply String_split_plain.
  - change (String.concat (String c "") (n :: n' :: names))
      with (n +:+ String c (String.concat (String c "") (n' :: names))).
    rewrite (String_split_app c n _ Hn). f_equal. by apply IH.
Qed.

Lemma assoc_defaults (key : string) (names : list string) (acc : list (string * Val)) :
  assoc key (fold_left (fun reduced n => define_prop (preset_key n) (VBool true) reduced)
                       names acc)
  = if existsb (fun n => String.eqb (preset_key n) key) names
    then Some (VBool true) else assoc key acc.
Proof.
  revert acc. induction names as [|n names IH]; intros acc; cbn; [done|].
  rewrite IH, assoc_define_prop.
  destruct (String.eqb (preset_key n) key); cbn; [|done].
  by destruct (existsb _ names).
Qed.

Lemma defaultPresets_string (h : Heap) (props : list (string * Val)) (s : string) :
  prop props "presets" = VString s -> s <> "" ->
  defaultPresets (VObject props) h
  = Ok (fold_left (fun reduced n => define_prop (preset_key n) (VBool true) reduced)
                  (String_split "," s) []).
Proof.
  intros Hs Hne. unfold defaultPresets. rewrite getProp_object, Hs. cbn.
  by destruct (String.eqb_spec s "").
Qed.

(** X9.  When the persisted [presets] is falsy ([undefined], [null],
    the empty string ...) the constructor's default presets are es2015,
    react and stage-2.  In particular a well-typed state in which no
    preset is selected, babili is disabled and the env preset is disabled
    persists the empty string, from which the constructor reads these
    three defaults and not the empty selection. *)
Theorem defaultPresets_fallback :
  (forall persistedState h presets,
      getProp h persistedState "presets" = Ok presets ->
      truthy presets = false ->
      defaultPresets persistedState h = Ok fallback_presets)
  /\ (forall S st h h',
        Typed S st h ->
        persisted_names S h = [] ->
        exists props,
          persisted_configuration st h = Ok (VObject props)
          /\ prop props "presets" = VString ""
          /\ defaultPresets (VObject props) h' = Ok fallback_presets).
Proof.
  split.
  - intros persistedState h presets Hp Hf. unfold defaultPresets.
    rewrite Hp. cbn. rewrite Hf. reflexivity.
  - intros S st h h' HT Hnames.
    rewrite (persisted_configuration_typed S st h HT). eexists. split; [reflexivity|].
    assert (Hs : Array_join "," (persisted_presets S h) = "").
    { unfold Array_join, persisted_presets. rewrite !map_app.
      unfold persisted_names in Hnames.
      replace (map join_element
                 (if isEnabled (h (sh_babili S)) then [VString "babili"] else []))
        with (if isEnabled (h (sh_babili S)) then ["babili"] else [])
        by (by destruct (isEnabled _)).
      replace (map join_element
                 (if truthy (prop (sh_envConfig S) "isEnvPresetEnabled")
                  then [VString "env"] else []))
        with (if truthy (prop (sh_envConfig S) "isEnvPresetEnabled") then ["env"] else [])
        by (by destruct (truthy _)).
      rewrite <- app_assoc, Hnames. reflexivity. }
    split.
    + unfold prop at 1. cbn. by rewrite Hs.
    + unfold defaultPresets. rewrite getProp_object. unfold prop at 1. cbn.
      rewrite Hs. reflexivity.
Qed.

Lemma persisted_presets_names (S : Shape) (h : Heap) :
  Array_join "," (persisted_presets S h) = String.concat "," (persisted_names S h).
Proof.
  unfold Array_join, persisted_presets, persisted_names. rewrite !map_app, <- app_assoc.
  by destruct (isEnabled _), (truthy _).
Qed.

(** X10.  What [_persistState] writes as [presets] the constructor
    reads back: from a well-typed state whose persisted names are free
    of commas and not all empty, the default presets computed from the
    persisted configuration have [true] under [babel-preset-<name>] for
    each persisted name, and no other key. *)
Theorem persisted_presets_read_back (S : Shape) (st : gmap string Val) (h h' : Heap) :
  Typed S st h ->
  Forall (fun n => has_char "," n = false) (persisted_names S h) ->
  String.concat "," (persisted_names S h) <> "" ->
  exists props defaults,
    persisted_configuration st h = Ok (VObject props)
    /\ defaultPresets (VObject props) h' = Ok defaults
    /\ (forall n, In n (persisted_names S h) ->
          assoc (preset_key n) defaults = Some (VBool true))
    /\ (forall key v, assoc key defaults = Some v ->
          v = VBool true /\ exists n, In n (persisted_names S h) /\ key = preset_key n).
Proof.
  intros HT Hfree Hne.
  rewrite (persisted_configuration_typed S st h HT). eexists. eexists.
  split; [reflexivity|].
  assert (Hnil : persisted_names S h <> []) by (by intros Heq; rewrite Heq in Hne).
  split; [|split].
  - apply defaultPresets_string with (s := String.concat "," (persisted_names S h)).
    + unfold prop. cbn. by rewrite persisted_presets_names.
    + done.
  - intros n Hn. rewrite (String_split_concat _ _ Hnil Hfree), assoc_defaults.
    replace (existsb _ _) with true; [done|]. symmetry. apply existsb_exists.
    exists n. split; [done|]. apply String.eqb_refl.
  - intros key v. rewrite (String_split_concat _ _ Hnil Hfree), assoc_defaults.
    destruct (existsb _ _) eqn:Hex; [|done]. intros [= <-]. split; [done|].
    apply existsb_exists in Hex as (n & Hn & Heq). exists n. split; [done|].
    symmetry. by apply String.eqb_eq.
Qed.

(** *** What an event may write *)

Lemma fp_union (e : Event) (P : World -> Prop) (partial : gmap string Val) (w : World) :
  survives e P ->
  (forall k, is_Some (partial !! k) -> In k written_fields \/ is_Some (state w !! k)) ->
  P w -> P (set_state (partial ∪ state w) w).
Proof. intros Hs Hk Hw. by apply (Hs w (WState partial)). Qed.

Lemma fp_insert (e : Event) (P : World -> Prop) (k : string) (v : Val) (w : World) :
  survives e P ->
  In k written_fields \/ is_Some (state w !! k) ->
  P w -> P (set_state (<[k := v]> (state w)) w).
Proof.
  intros Hs Hk Hw. rewrite <- merge_singleton. apply (fp_union e); [done| |done].
  intros k' [x Hx]. by apply lookup_singleton_Some in Hx as [<- _].
Qed.

Lemma fp_insert_union (e : Event) (P : World -> Prop) (k : string) (v : Val) (w : World) :
  survives e P -> In k written_fields -> P w -> P (set_state ({[ k := v ]} ∪ state w) w).
Proof.
  intros Hs Hk Hw. rewrite merge_singleton. apply (fp_insert e); [done| |done]. by left.
Qed.

Lemma fp_emit (e : Event) (P : World -> Prop) (effect : Effect) :
  survives e P -> may_call e effect = true -> keeps P (emit effect).
Proof. intros Hs H w Hw. by apply (Hs w (WTrace effect)). Qed.

Lemma fp_updateCode (e : Event) (P : World -> Prop) (code : Val) :
  survives e P -> is_elapse e || is_sidebar e = false -> keeps P (_updateCode code).
Proof.
  intros Hs He w Hw. rewrite updateCode_spec. cbn [snd]. unfold code_updated.
  apply (Hs _ (WTimer _)); [done|]. apply (fp_insert e); [done| |done].
  left. cbn. tauto.
Qed.

Lemma fp_persistState (e : Event) (P : World -> Prop) :
  survives e P -> is_timer e || is_sidebar e = true -> keeps P _persistState.
Proof.
  intros Hs He w Hw.
  destruct (persisted_configuration (state w) (heap w)) as [c|x] eqn:Hc.
  - rewrite (persistState_Ok w c Hc). by apply (Hs w (WPersist c)).
  - by rewrite (persistState_Throw w x Hc).
Qed.

Lemma compiled_keys (info : Val) (r : CompileResult) (k : string) :
  is_Some ((<["envPresetDebugInfo" := info]> (result_object r)) !! k) ->
  In k compiled_fields.
Proof.
  intros [v Hv]. unfold result_object in Hv.
  repeat (apply lookup_insert_Some in Hv as [[<- _]|[_ Hv]]; [cbn; tauto|]).
  by rewrite lookup_empty in Hv.
Qed.

Lemma fp_compileToState_body (e : Event) (P : World -> Prop) (code : Val) :
  survives e P -> is_timer e = true -> keeps P (compileToState_body code).
Proof.
  intros Hs He w Hw. rewrite compileToState_body_unfold.
  destruct (_compile code (state w) w) as [[partial|x] w1] eqn:Hc.
  - apply compile_returns in Hc as (cfg & _ & -> & ->).
    apply (fp_persistState e); [done|by rewrite He|].
    apply (fp_union e); [done| |].
    + intros k Hk. left. unfold written_fields. apply in_app_iff. right.
      by apply (compiled_keys _ _ _ Hk).
    + by apply (Hs w (WTrace _)).
  - apply compile_throws in Hc as ->. done.
Qed.

Lemma fp_timerExpired (e : Event) (P : World -> Prop) :
  survives e P -> is_timer e = true -> keeps P timerExpired.
Proof.
  intros Hs He w Hw. destruct (timer w) as [[code t]|] eqn:Ht.
  - destruct (le_lt_dec DEBOUNCE_DELAY (now w - t)) as [Hdue|Hearly].
    + rewrite (timerExpired_due code t w Ht Hdue).
      apply (fp_compileToState_body e); [done..|].
      apply (Hs w (WTimer None)); [|done]. cbn. by destruct e.
    + by rewrite (timerExpired_early code t w Ht Hearly).
  - by rewrite (timerExpired_idle w Ht).
Qed.

Lemma fp_started (e : Event) (P : World -> Prop) (l : loc) (cb : LoadCallback) (w : World) :
  survives e P -> is_setting e || is_envSetting e = true -> P w -> P (started l cb w).
Proof.
  intros Hs He Hw. unfold started.
  apply (Hs _ (WLoading _)); [by cbn; rewrite He|].
  apply (Hs (set_trace (trace w ++ [CallLoadPlugin l]) w) (WBegin l)); [done|].
  by apply (Hs w (WTrace (CallLoadPlugin l))).
Qed.

Lemma fp_pass (e : Event) (P : World -> Prop) :
  survives e P -> is_setting e || is_envSetting e = true ->
  keeps P _checkForUnloadedPlugins.
Proof.
  intros Hs He. apply pass_frame.
  - intros w n Hw. apply (Hs w (WCounter n)); [by cbn; rewrite He|done].
  - intros w l cb Hw. by apply (fp_started e).
Qed.

Lemma fp_callback (e : Event) (P : World -> Prop) :
  survives e P -> is_setting e || is_envSetting e = true ->
  keeps P _presetsUpdatedSetStateCallback.
Proof.
  intros Hs He. unfold _presetsUpdatedSetStateCallback.
  apply keeps_bind; [by apply (fp_pass e)|]. intros _.
  apply keeps_bind; [apply keeps_getState|]. intros st.
  apply (fp_updateCode e); [done|]. by destruct e.
Qed.

Lemma fp_assign_isEnabled (e : Event) (P : World -> Prop) (x : Val) (b : bool) :
  survives e P -> is_setting e = true -> keeps P (assign_isEnabled x b).
Proof.
  intros Hs He w Hw. destruct x; try done. by apply (Hs w (WEnabled l b)).
Qed.

Lemma state_assign_isEnabled (x : Val) (b : bool) (w : World) :
  state (snd (assign_isEnabled x b w)) = state w.
Proof. by destruct x. Qed.

Lemma fp_change_setting (e : Event) (P : World -> Prop) (name : string) (b : bool) :
  survives e P -> is_setting e = true -> keeps P (change_setting name b).
Proof.
  intros Hs He w Hw. rewrite change_setting_unfold. unfold settingChange_updater.
  destruct (String.eqb name "babel-polyfill").
  { unfold bind. pose proof (fp_assign_isEnabled e P
      (field (state w) "runtimePolyfillState") b Hs He w Hw) as H.
    destruct (assign_isEnabled _ _ w) as [[[]|x] w1]; cbn in *; [|done].
    apply (fp_insert_union e); [done|cbn; tauto|done]. }
  unfold bind, read.
  destruct (state_hasOwnProperty (state w) name) as [[|]|x] eqn:Hown; cbn; [| |done].
  { rewrite merge_singleton. apply (fp_insert e); [done| |done]. right.
    unfold state_hasOwnProperty in Hown.
    destruct (state w !! "hasOwnProperty"); [done|].
    injection Hown as Hown. by apply bool_decide_eq_true in Hown. }
  destruct (hasOwnProperty (heap w) (field (state w) "plugins") name) as [[|]|x]; [| |done].
  { destruct (getProp (heap w) (field (state w) "plugins") name) as [p|x]; [|done].
    pose proof (fp_assign_isEnabled e P p b Hs He w Hw) as H.
    destruct (assign_isEnabled _ _ w) as [[[]|x] w1]; cbn in *; [|done].
    apply (fp_insert_union e); [done|cbn; tauto|done]. }
  destruct (hasOwnProperty (heap w) (field (state w) "presets") name) as [[|]|x]; [| |done].
  { destruct (getProp (heap w) (field (state w) "presets") name) as [p|x]; [|done].
    pose proof (fp_assign_isEnabled e P p b Hs He w Hw) as H.
    destruct (assign_isEnabled _ _ w) as [[[]|x] w1]; cbn in *; [|done].
    apply (fp_insert_union e); [done|cbn; tauto|done]. }
  done.
Qed.

Lemma fp_on_polyfill_loaded (e : Event) (P : World -> Prop) :
  survives e P -> is_load e = true -> keeps P on_polyfill_loaded.
Proof.
  intros Hs He w Hw. rewrite on_polyfill_loaded_spec. cbn [snd].
  destruct (truthy (field (state w) "compiled")); [|done]. unfold evaluated.
  apply (fp_insert e P "evalError" _
           (set_trace (trace w ++ [CallScopedEval (field (state w) "compiled")
                                                  (field (state w) "sourceMap")]) w));
    [done|left; cbn; tauto|].
  by apply (Hs w (WTrace (CallScopedEval _ _))).
Qed.

Lemma fp_on_envPreset_loaded (e : Event) (P : World -> Prop) (envPresetState : Val) :
  survives e P -> is_load e = true -> keeps P (on_envPreset_loaded envPresetState).
Proof.
  intros Hs He. unfold on_envPreset_loaded.
  apply keeps_bind; [apply keeps_read|]. intros p.
  apply keeps_bind; [apply keeps_read|]. intros d.
  apply keeps_bind; [by apply (fp_emit e)|]. intros _.
  apply keeps_bind; [apply keeps_getState|]. intros st.
  apply (fp_updateCode e); [done|]. by destruct e.
Qed.

Lemma fp_on_plugin_loaded (e : Event) (P : World -> Prop) (plugins : Val) (success : bool) :
  survives e P -> is_load e = true -> keeps P (on_plugin_loaded plugins success).
Proof.
  intros Hs He w Hw. rewrite on_plugin_loaded_spec. cbn zeta. cbn [snd].
  assert (H1 : P (set_numLoadingPlugins (_numLoadingPlugins w - 1) w)).
  { apply (Hs w (WCounter _)); [by cbn; rewrite He, orb_true_r|done]. }
  set (w1 := set_numLoadingPlugins _ w) in *.
  assert (H2 : P (if success then w1
                  else set_state (<["plugins" := plugins]> (state w1)) w1)).
  { destruct success; [done|]. apply (fp_insert e); [done|left; cbn; tauto|done]. }
  destruct (Z.eqb _ 0); [|done].
  pose proof (fp_updateCode e P
    (field (state (if success then w1
                   else set_state (<["plugins" := plugins]> (state w1)) w1)) "code") Hs) as Hu.
  specialize (Hu ltac:(by destruct e) _ H2). by rewrite updateCode_spec in Hu.
Qed.

Lemma fp_loadCompleted (e : Event) (P : World -> Prop) (i : nat) (success : bool) :
  survives e P -> is_load e = true -> keeps P (loadCompleted i success).
Proof.
  intros Hs He w Hw. unfold loadCompleted.
  destruct (loading w !! i) as [pending|]; [|done].
  unfold bind at 1 2, update.
  assert (H1 : P (set_heap (heap_set (heap w) (target pending)
                                     (loadPlugin_end success (heap w (target pending))))
                           (set_loading (delete i (loading w)) w))).
  { apply (Hs (set_loading (delete i (loading w)) w) (WEnd (target pending) success));
      [done|].
    apply (Hs w (WLoading _)); [by cbn; rewrite He, orb_true_r|done]. }
  destruct (callback pending) as [plugins| |envPresetState]; cbn [run_callback].
  - by apply (fp_on_plugin_loaded e).
  - by apply (fp_on_polyfill_loaded e).
  - by apply (fp_on_envPreset_loaded e).
Qed.

Lemma event_footprint (e : Event) (P : World -> Prop) :
  survives e P -> keeps P (handle e).
Proof.
  intros Hs. destruct e as [ms| |i success|code|name b|name value|b]; cbn [handle].
  - intros w Hw. apply (Hs w (WNow (now w + ms))); [|done]. cbn. split; [done|lia].
  - by apply (fp_timerExpired TimerFired).
  - by apply (fp_loadCompleted (LoadCompleted i success)).
  - by apply (fp_updateCode (EditorChange code)).
  - intros w Hw. rewrite onSettingChange_unfold.
    pose proof (fp_change_setting _ P name b Hs eq_refl w Hw) as H.
    destruct (change_setting name b w) as [[[]|x] w1]; cbn [snd] in *; [|done].
    by apply (fp_callback (SettingChange name b)).
  - intros w Hw. rewrite onEnvPresetSettingChange_unfold.
    apply (fp_callback (EnvPresetSettingChange name value)); [done..|].
    apply (fp_insert (EnvPresetSettingChange name value)); [done|left; cbn; tauto|done].
  - intros w Hw. rewrite onIsSidebarExpandedChange_spec.
    apply (fp_persistState (SidebarExpandedChange b)); [done..|].
    apply (fp_insert (SidebarExpandedChange b)); [done|left; cbn; tauto|done].
Qed.

Lemma run_footprint (events : list Event) (P : World -> Prop) (w : World) :
  Forall (fun e => survives e P) events -> P w -> P (run events w).
Proof.
  revert w. induction events as [|e events IH]; intros w Hs Hw; [done|].
  apply Forall_cons in Hs as [He Hs]. rewrite run_cons. apply IH; [done|].
  exact (event_footprint e P He w Hw).
Qed.

(** *** What the events never do *)

Lemma calls_survive (e : Event) (w : World) :
  survives e (fun w' => exists calls,
                trace w' = trace w ++ calls /\ forallb (may_call e) calls = true).
Proof.
  intros w0 x Hx (calls & Ht & Hc).
  destruct x; cbn in *; try by exists calls.
  exists (calls ++ [effect]). rewrite Ht, app_assoc. split; [done|].
  rewrite forallb_app, Hc. cbn. by rewrite Hx.
Qed.

Lemma calls_of_event (w : World) (e : Event) :
  exists calls,
    trace (step w e) = trace w ++ calls /\ forallb (may_call e) calls = true.
Proof.
  destruct (event_footprint e _ (calls_survive e w) w) as (calls & Ht & Hc).
  { exists []. by rewrite app_nil_r. }
  by exists calls.
Qed.

(** The calls [on_babel_loaded] may make. *)
Definition babel_may_call (effect : Effect) : bool :=
  match effect with
  | CallCompile _ _ | CallLoadPlugin _ => true
  | CallScopedEval _ _ | CallRegisterPreset _ _ => false
  end.

Lemma on_babel_loaded_cases (babelState : Val) (w : World) :
  let merged : gmap string Val := list_to_map (own_props (heap w) babelState) in
  let code := field (state w) "code" in
  snd (on_babel_loaded babelState w) = w
  \/ snd (on_babel_loaded babelState w) = set_state (merged ∪ state w) w
  \/ exists config,
        snd (on_babel_loaded babelState w)
        = snd (_checkForUnloadedPlugins
                 (set_state (((<["envPresetDebugInfo" := debugInfo_after code config]>
                                 (result_object (compile code config))) ∪ merged)
                             ∪ state w)
                            (set_trace (trace w ++ [CallCompile code config]) w))).
Proof.
  cbn zeta. unfold on_babel_loaded, setState_with, bind, getState, read, ret, update.
  destruct (getProp (heap w) babelState "isLoaded") as [v|x] eqn:Hl; [|by left].
  destruct (truthy v) eqn:Ht.
  - destruct (_compile (field (state w) "code") (state w) w) as [[partial|x] w1] eqn:Hc.
    + apply compile_returns in Hc as (cfg & _ & -> & ->). right. right. exists cfg.
      cbn. by rewrite Hl, Ht.
    + apply compile_throws in Hc as ->. by left.
  - right. left. cbn. rewrite Hl, Ht. cbn. by rewrite (left_id_L ∅ (∪)).
Qed.

Lemma pass_calls (f : Effect -> bool) (w0 : World) :
  (forall l, f (CallLoadPlugin l) = true) ->
  keeps (fun w' => exists calls, trace w' = trace w0 ++ calls /\ forallb f calls = true)
        _checkForUnloadedPlugins.
Proof.
  intros Hf. apply pass_frame.
  - intros w n (calls & Ht & Hc). by exists calls.
  - intros w l cb (calls & Ht & Hc). exists (calls ++ [CallLoadPlugin l]). cbn.
    rewrite Ht, app_assoc. split; [done|]. rewrite forallb_app, Hc. cbn. by rewrite Hf.
Qed.

Lemma calls_of_babel (babelState : Val) (w : World) :
  exists calls,
    trace (snd (on_babel_loaded babelState w)) = trace w ++ calls
    /\ forallb babel_may_call calls = true.
Proof.
  destruct (on_babel_loaded_cases babelState w) as [->|[->|[config ->]]].
  - exists []. by rewrite app_nil_r.
  - exists []. by rewrite app_nil_r.
  - apply (pass_calls babel_may_call w); [done|].
    exists [CallCompile (field (state w) "code") config]. done.
Qed.

(** X11.  The calls the component makes to the collaborators, by what
    runs it: [compile] is called only when the debounce timer fires and
    by the callback of Babel's load; [scopedEval] and
    [Babel.registerPreset] only when a load completes; [loadPlugin] only
    on a change of a setting or of an env preset setting and by the
    callback of Babel's load.  Editing the code, the passing of time and
    the sidebar call none of them. *)
Theorem calls_by_activation (w : World) (a : Activation) :
  exists calls,
    trace (proceed w a) = trace w ++ calls
    /\ forall call, In call calls ->
         match call with
         | CallCompile _ _ =>
             a = Handled TimerFired \/ exists babelState, a = BabelLoaded babelState
         | CallScopedEval _ _ | CallRegisterPreset _ _ =>
             exists i success, a = Handled (LoadCompleted i success)
         | CallLoadPlugin _ =>
             (exists name isEnabled, a = Handled (SettingChange name isEnabled))
             \/ (exists name value, a = Handled (EnvPresetSettingChange name value))
             \/ exists babelState, a = BabelLoaded babelState
         end.
Proof.
  destruct a as [babelState|e]; unfold proceed; cbn [activate].
  - destruct (calls_of_babel babelState w) as (calls & Ht & Hc).
    exists calls. split; [exact Ht|]. intros call Hin.
    rewrite forallb_forall in Hc. specialize (Hc call Hin).
    destruct call; cbn in Hc; try done; eauto.
  - destruct (calls_of_event w e) as (calls & Ht & Hc).
    exists calls. split; [exact Ht|]. intros call Hin.
    rewrite forallb_forall in Hc. specialize (Hc call Hin).
    destruct call, e; cbn in Hc; try done; eauto 6.
Qed.

Lemma stores_survive (e : Event) (w : World) :
  is_timer e || is_sidebar e = false ->
  survives e (fun w' => localStorage w' = localStorage w /\ query w' = query w).
Proof.
  intros He w0 x Hx Hw0. destruct x; cbn in *; try done. by rewrite He in Hx.
Qed.

(** X12.  Only the firing of the debounce timer and a change of the
    sidebar persist: every other event leaves local storage and the URL
    as they are. *)
Theorem persists_only_on_timer_and_sidebar (w : World) (e : Event) :
  e <> TimerFired ->
  (forall isExpanded, e <> SidebarExpandedChange isExpanded) ->
  localStorage (step w e) = localStorage w /\ query (step w e) = query w.
Proof.
  intros Ht Hs.
  assert (He : is_timer e || is_sidebar e = false).
  { destruct e as [| | | | | |b]; try reflexivity; [done|by destruct (Hs b)]. }
  by apply (event_footprint e _ (stores_survive e w He)).
Qed.

Lemma agreement_survives (e : Event) (w : World) :
  survives e (fun w' =>
    (forall key, key <> "replState" -> localStorage w' !! key = localStorage w !! key)
    /\ ((localStorage w' = localStorage w /\ query w' = query w)
        \/ exists configuration,
             localStorage w' !! "replState" = Some configuration
             /\ query w' = Some configuration)).
Proof.
  intros w0 x Hx [Hk Hq]. destruct x; cbn in *; try done. split.
  - intros key Hkey. rewrite lookup_insert_ne by done. by apply Hk.
  - right. exists configuration. by rewrite lookup_insert_eq.
Qed.

(** X13.  Over any events, local storage is written under the key
    [replState] only, and either nothing was persisted or local storage
    and the URL hold the same configuration: if they agree at the start
    they agree ever after. *)
Theorem storage_and_url_agree (w : World) (events : list Event) :
  let w' := run events w in
  (forall key, key <> "replState" -> localStorage w' !! key = localStorage w !! key)
  /\ ((localStorage w' = localStorage w /\ query w' = query w)
      \/ exists configuration,
           localStorage w' !! "replState" = Some configuration
           /\ query w' = Some configuration)
  /\ (InSync w -> InSync w').
Proof.
  cbn zeta.
  assert (H := run_footprint events _ w
                 (proj2 (Forall_forall _ _) (fun e _ => agreement_survives e w))
                 (conj (fun _ _ => eq_refl) (or_introl (conj eq_refl eq_refl)))).
  destruct H as [Hk Hq]. split; [exact Hk|]. split; [exact Hq|].
  unfold InSync. intros Hsync. destruct Hq as [[-> ->]|(c & -> & ->)]; done.
Qed.

Lemma objects_survive (e : Event) (I : loc -> PluginState -> Prop) :
  (forall l p b, I l p -> I l (with_isEnabled b p)) ->
  (forall l p, I l p -> I l (loadPlugin_begin p)) ->
  (forall l p success, I l p -> I l (loadPlugin_end success p)) ->
  survives e (fun w' => forall l, I l (heap w' l)).
Proof.
  intros He Hb Hd w0 x Hx Hw0.
  destruct x; cbn in *; try done; intros l'; unfold heap_set;
    (destruct (Nat.eqb_spec l' l) as [->|]; [|done]); auto.
Qed.

(** X14.  The component writes to a [PluginState] only by assigning
    [isEnabled] and through [loadPlugin]: a property of the
    [PluginState] at a location that survives the assignment of
    [isEnabled] and what [loadPlugin] writes when a load starts and
    completes holds after any events if it held before. *)
Theorem pluginStates_written_through_isEnabled_and_loadPlugin
    (I : loc -> PluginState -> Prop) (w : World) (events : list Event) :
  (forall l p b, I l p -> I l (with_isEnabled b p)) ->
  (forall l p, I l p -> I l (loadPlugin_begin p)) ->
  (forall l p success, I l p -> I l (loadPlugin_end success p)) ->
  (forall l, I l (heap w l)) ->
  forall l, I l (heap (run events w) l).
Proof.
  intros He Hb Hd Hw.
  apply (run_footprint events (fun w' => forall l, I l (heap w' l))); [|done].
  apply Forall_forall. intros e _. by apply objects_survive.
Qed.

Lemma enabled_survives (e : Event) (w : World) :
  (forall p, isEnabled (loadPlugin_begin p) = isEnabled p) ->
  (forall p success, isEnabled (loadPlugin_end success p) = isEnabled p) ->
  is_setting e = false ->
  survives e (fun w' => forall l, isEnabled (heap w' l) = isEnabled (heap w l)).
Proof.
  intros Hb Hd He w0 x Hx Hw0.
  destruct x; cbn in *; try done; try (by rewrite He in Hx);
    intros l'; unfold heap_set;
    (destruct (Nat.eqb_spec l' l) as [->|]; [|done]); by rewrite ?Hb, ?Hd.
Qed.

(** X15.  Only [_onSettingChange] switches a plugin, a preset or the
    runtime polyfill on or off: provided [loadPlugin] leaves [isEnabled]
    alone, every other event leaves [isEnabled] of every [PluginState]
    as it is. *)
Theorem only_settings_switch (w : World) (e : Event) (l : loc) :
  (forall p, isEnabled (loadPlugin_begin p) = isEnabled p) ->
  (forall p success, isEnabled (loadPlugin_end success p) = isEnabled p) ->
  (forall name isEnabled, e <> SettingChange name isEnabled) ->
  isEnabled (heap (step w e) l) = isEnabled (heap w l).
Proof.
  intros Hb Hd He.
  assert (Hs : is_setting e = false).
  { destruct e as [| | | |name b| |]; try reflexivity. by destruct (He name b). }
  by apply (event_footprint e _ (enabled_survives e w Hb Hd Hs)).
Qed.

Lemma written_are_fields (k : string) : In k written_fields -> In k State_fields.
Proof. cbn. intuition (subst; tauto). Qed.

Lemma fields_survive (e : Event) (w : World) :
  Forall (fun k => is_Some (state w !! k)) State_fields ->
  survives e (fun w' => forall k, is_Some (state w' !! k) <-> is_Some (state w !! k)).
Proof.
  intros Hall w0 x Hx Hw0. destruct x; cbn in *; try done.
  intros k. rewrite lookup_union_is_Some, <- Hw0. split; [|tauto].
  intros [Hk|Hk]; [|done]. destruct (Hx k Hk) as [Hin|Hin]; [|done].
  apply Hw0. rewrite Forall_forall in Hall. apply Hall.
  apply list_elem_of_In. by apply written_are_fields.
Qed.

Lemma fields_kept (w : World) (events : list Event) :
  Forall (fun k => is_Some (state w !! k)) State_fields ->
  forall k, is_Some (state (run events w) !! k) <-> is_Some (state w !! k).
Proof.
  intros Hall.
  apply (run_footprint events
           (fun w' => forall k, is_Some (state w' !! k) <-> is_Some (state w !! k)));
    [|done].
  apply Forall_forall. intros e _. by apply fields_survive.
Qed.

Lemma babel_fields (babelState : Val) (w : World) (k : string) :
  Forall (fun k => is_Some (state w !! k)) State_fields ->
  is_Some (state (snd (on_babel_loaded babelState w)) !! k)
  <-> is_Some (state w !! k)
      \/ (is_Some (state (snd (on_babel_loaded babelState w)) !! k)
          /\ is_Some (assoc k (own_props (heap w) babelState))).
Proof.
  intros Hall.
  assert (Hc : forall info r, is_Some ((<["envPresetDebugInfo" := info]>
                                          (result_object r)) !! k) ->
                              is_Some (state w !! k)).
  { intros info r Hk. apply compiled_keys in Hk. rewrite Forall_forall in Hall.
    apply Hall, list_elem_of_In, written_are_fields. unfold written_fields.
    apply in_app_iff. by right. }
  destruct (on_babel_loaded_cases babelState w) as [->|[->|[config ->]]].
  - tauto.
  - cbn. rewrite lookup_union_is_Some, lookup_list_to_map_assoc. tauto.
  - rewrite pass_keeps_state. cbn.
    rewrite !lookup_union_is_Some, lookup_list_to_map_assoc.
    split; [|tauto]. intros [[Hk|Hk]|Hk]; [left; by eapply Hc|tauto|tauto].
Qed.

Lemma fields_never_removed (w : World) (a : Activation) (k : string) :
  Forall (fun k => is_Some (state w !! k)) State_fields ->
  is_Some (state w !! k) -> is_Some (state (proceed w a) !! k).
Proof.
  intros Hall Hk. destruct a as [babelState|e]; unfold proceed; cbn [activate].
  - apply (babel_fields babelState w k Hall). by left.
  - by apply (fields_kept w [e] Hall k).
Qed.

(** X16.  Nothing removes a field of the state, and the events add
    none: from a state that has the fields of the [State] type, the state
    has after any events exactly the fields it had.  The callback of
    Babel's load adds fields, and only own properties of the
    [babelState] it is given. *)
Theorem state_fields_preserved (w : World) :
  Forall (fun k => is_Some (state w !! k)) State_fields ->
  (forall a k, is_Some (state w !! k) -> is_Some (state (proceed w a) !! k))
  /\ (forall events k, is_Some (state (run events w) !! k) <-> is_Some (state w !! k))
  /\ (forall babelState k,
        is_Some (state (proceed w (BabelLoaded babelState)) !! k) ->
        is_Some (state w !! k)
        \/ is_Some (assoc k (own_props (heap w) babelState))).
Proof.
  intros Hall. split; [|split].
  - intros a k. by apply fields_never_removed.
  - intros events k. by apply fields_kept.
  - intros babelState k Hk. unfold proceed in Hk. cbn [activate] in Hk.
    apply (babel_fields babelState w k Hall) in Hk. tauto.
Qed.

(** *** Start-up *)

Lemma getProp_Ok (h : Heap) (v : Val) (k : string) :
  nullish v = false -> exists x, getProp h v k = Ok x.
Proof. intros Hv. unfold getProp. rewrite Hv. by eexists. Qed.

Lemma union_lacking (partial st : gmap string Val) (k : string) :
  partial !! k = None -> field (partial ∪ st) k = field st k.
Proof. intros H. unfold field. by rewrite (lookup_union_r _ _ _ H). Qed.

Lemma compiled_lacks (info : Val) (r : CompileResult) (merged : gmap string Val)
    (k : string) :
  ~ In k compiled_fields -> merged !! k = None ->
  ((<["envPresetDebugInfo" := info]> (result_object r)) ∪ merged) !! k = None.
Proof.
  intros Hk Hm. apply lookup_union_None. split; [|done].
  apply eq_None_not_Some. intros Hs. by apply compiled_keys in Hs.
Qed.

Lemma babel_consistent (babelState : Val) (w : World) :
  lacks "plugins" babelState -> Consistent w ->
  Consistent (snd (on_babel_loaded babelState w)).
Proof.
  intros Hl Hw.
  assert (Hm : (list_to_map (own_props (heap w) babelState) : gmap string Val)
               !! "plugins" = None) by (by rewrite lookup_list_to_map_assoc).
  destruct (on_babel_loaded_cases babelState w) as [->|[->|[config ->]]]; [done| |].
  - apply (Consistent_ext w); try done. cbn. by apply union_lacking.
  - apply keeps_checkForUnloadedPlugins. apply (Consistent_ext w); try done. cbn.
    apply union_lacking, compiled_lacks; [|done]. cbn. intuition discriminate.
Qed.

Lemma babel_noEvaluate (babelState : Val) (w : World) :
  lacks "evaluate" babelState -> NoEvaluate w ->
  NoEvaluate (snd (on_babel_loaded babelState w)).
Proof.
  intros Hl Hw.
  assert (Hm : (list_to_map (own_props (heap w) babelState) : gmap string Val)
               !! "evaluate" = None) by (by rewrite lookup_list_to_map_assoc).
  destruct (on_babel_loaded_cases babelState w) as [->|[->|[config ->]]]; [done| |].
  - unfold NoEvaluate. cbn. by apply lookup_union_None.
  - apply noEvaluate_checkForUnloadedPlugins. unfold NoEvaluate. cbn.
    apply lookup_union_None. split; [|done].
    apply compiled_lacks; [|done]. cbn. intuition discriminate.
Qed.

Lemma history_invariant (activations : list Activation) (w : World) :
  Forall plain_babelState activations ->
  Forall (fun k => is_Some (state w !! k)) State_fields
  /\ state w !! "evaluate" = None /\ Consistent w ->
  let w' := history activations w in
  (forall k, In k State_fields -> is_Some (state w' !! k))
  /\ state w' !! "evaluate" = None
  /\ Consistent w'.
Proof.
  revert w. induction activations as [|a activations IH]; intros w Hplain (Hf & He & Hc).
  - cbn. split; [|done]. intros k Hk. rewrite Forall_forall in Hf.
    by apply Hf, list_elem_of_In.
  - apply Forall_cons in Hplain as [Ha Hplain].
    change (history (a :: activations) w) with (history activations (proceed w a)).
    apply IH; [done|]. split; [|split].
    + apply Forall_forall. intros k Hk. apply fields_never_removed; [done|].
      rewrite Forall_forall in Hf. by apply Hf.
    + destruct a as [babelState|e]; unfold proceed; cbn [activate].
      * apply babel_noEvaluate; [apply Ha|done].
      * by apply noEvaluate_handle.
    + destruct a as [babelState|e]; unfold proceed; cbn [activate].
      * apply babel_consistent; [apply Ha|done].
      * by apply keeps_handle.
Qed.

(** X17.  The constructor returns when the persisted state is an
    object whose [presets], if truthy, is a string, and the env config
    made from it is an object.  The state it builds has exactly the
    fields of the [State] type, with [null] in the five that [_compile]
    fills; no load is in flight, the counter of loading plugins is 0 and
    no compilation is owed.  After the callback of Babel's load and
    any events, in any order and number, with a [babelState] that has no
    own property [plugins] or [evaluate], the state still has the fields
    of the [State] type and no [evaluate] field, and the counter still
    counts the plugin loads in flight. *)
Theorem constructor_establishes_invariants (persistedState : Val) (page : World) :
  nullish persistedState = false ->
  (forall presets,
      getProp (heap page) persistedState "presets" = Ok presets ->
      truthy presets = true -> exists s, presets = VString s) ->
  nullish (persistedStateToEnvConfig persistedState) = false ->
  exists w,
    constructor persistedState page = Ok w
    /\ (forall k, is_Some (state w !! k) <-> In k State_fields)
    /\ Forall (fun k => field (state w) k = VNull) compiled_fields
    /\ _numLoadingPlugins w = 0%Z /\ loading w = [] /\ timer w = None
    /\ localStorage w = localStorage page /\ query w = query page
    /\ forall activations,
         Forall plain_babelState activations ->
         let w' := history activations w in
         (forall k, In k State_fields -> is_Some (state w' !! k))
         /\ state w' !! "evaluate" = None
         /\ Consistent w'.
Proof.
  intros Hn Hp He. unfold constructor.
  destruct (getProp_Ok (heap page) persistedState "babili" Hn) as [babili ->].
  destruct (getProp_Ok (heap page) persistedState "prettier" Hn) as [prettier ->].
  cbn [obind].
  assert (Hd : exists defaults, defaultPresets persistedState (heap page) = Ok defaults).
  { unfold defaultPresets.
    destruct (getProp_Ok (heap page) persistedState "presets" Hn) as [presets Hpresets].
    rewrite Hpresets. cbn [obind]. destruct (truthy presets) eqn:Ht; [|by eexists].
    destruct (Hp presets Hpresets Ht) as [s ->]. by eexists. }
  destruct Hd as [defaults ->]. cbn [obind].
  destruct (getProp_Ok (heap page) persistedState "builtIns" Hn) as [builtIns ->].
  destruct (getProp_Ok (heap page) persistedState "code" Hn) as [code ->].
  destruct (getProp_Ok (heap page) persistedState "debug" Hn) as [debug ->].
  cbn [obind].
  destruct (getProp_Ok (heap page) (persistedStateToEnvConfig persistedState)
                       "isEnvPresetEnabled" He) as [envEnabled ->].
  destruct (getProp_Ok (heap page) persistedState "showSidebar" Hn) as [showSidebar ->].
  destruct (getProp_Ok (heap page) persistedState "lineWrap" Hn) as [lineWrap ->].
  destruct (getProp_Ok (heap page) persistedState "evaluate" Hn) as [evaluate ->].
  cbn [obind].
  destruct (allocate 1 _ _) as [pluginEntries h2].
  destruct (allocate _ _ h2) as [presetEntries h3].
  eexists. split; [reflexivity|].
  assert (Hfields : forall k,
    is_Some (state (mkWorld
      (list_to_map
         [("babel", persistedStateToBabelState persistedState);
          ("builtIns", builtIns); ("code", code); ("compiled", VNull);
          ("compileError", VNull); ("debugEnvPreset", debug);
          ("envConfig", persistedStateToEnvConfig persistedState);
          ("envPresetDebugInfo", VNull); ("envPresetState", VPluginState 0);
          ("evalError", VNull); ("isSidebarExpanded", showSidebar);
          ("lineWrap", lineWrap); ("plugins", VPluginMap pluginEntries);
          ("presets", VPluginMap presetEntries);
          ("runtimePolyfillState",
           VPluginState
             (1 + length (configArrayToStateMap pluginConfigs
                            (VObject [("babili-standalone", babili);
                                      ("prettier", prettier)]))
              + length (configArrayToStateMap presetPluginConfigs (VObject defaults))));
          ("sourceMap", VNull)])
      (heap_set h3
         (1 + length (configArrayToStateMap pluginConfigs
                        (VObject [("babili-standalone", babili); ("prettier", prettier)]))
          + length (configArrayToStateMap presetPluginConfigs (VObject defaults)))
         (configToState runtimePolyfillConfig evaluate))
      0 [] None (now page) (localStorage page) (query page) (trace page)) !! k)
    <-> In k State_fields).
  { intros k. cbn [state]. rewrite lookup_list_to_map_assoc, assoc_is_Some. reflexivity. }
  split; [exact Hfields|]. split.
  { repeat constructor. }
  do 5 (split; [reflexivity|]).
  intros activations Hplain. cbn zeta.
  set (w := mkWorld _ _ _ _ _ _ _ _ _) in *.
  apply (history_invariant activations w Hplain). split; [|split].
  - apply Forall_forall. intros k Hk. apply Hfields. by apply list_elem_of_In.
  - apply eq_None_not_Some. rewrite Hfields. cbn. intuition discriminate.
  - split; [reflexivity| |constructor].
    unfold field. subst w. cbn [state]. rewrite lookup_list_to_map_assoc. cbn. exact I.
Qed.

Lemma Typed_union (S : Shape) (st partial : gmap string Val) (h : Heap) :
  Typed S st h ->
  (forall k, In k object_fields -> partial !! k = None) ->
  Typed S (partial ∪ st) h.
Proof.
  intros [] Hnone.
  assert (Hf : forall k, In k object_fields -> field (partial ∪ st) k = field st k).
  { intros k Hk. unfold field. by rewrite (lookup_union_r _ _ _ (Hnone k Hk)). }
  split; try done; rewrite Hf; try done; cbn; tauto.
Qed.

Lemma compiled_not_objects (info : Val) (r : CompileResult) (merged : gmap string Val) :
  (forall k, In k object_fields -> merged !! k = None) ->
  forall k, In k object_fields ->
    ((<["envPresetDebugInfo" := info]> (result_object r)) ∪ merged) !! k = None.
Proof.
  intros Hm k Hk. apply lookup_union_None. split; [|by apply Hm].
  apply eq_None_not_Some. intros Hs. apply compiled_keys in Hs.
  cbn in Hk, Hs. intuition (subst; discriminate).
Qed.

(** X18.  The callback of Babel's own load.  When [babelState.isLoaded]
    is falsy it merges the fields of [babelState] into the state and
    does nothing else.  When it is truthy, from a well-typed state, it
    calls [compile] at once on the current code, without the debounce,
    merges the fields of [babelState] and then the result into the
    state, and runs the check for unloaded plugins.  In neither case is
    the state persisted or the debounce touched. *)
Theorem babel_loaded_compiles_at_once (babelState : Val) (w : World) (isLoaded : Val) :
  getProp (heap w) babelState "isLoaded" = Ok isLoaded ->
  let merged : gmap string Val := list_to_map (own_props (heap w) babelState) in
  let w' := snd (on_babel_loaded babelState w) in
  (truthy isLoaded = false ->
   on_babel_loaded babelState w = (Ok tt, set_state (merged ∪ state w) w))
  /\ (truthy isLoaded = true ->
      forall S,
        Typed S (state w) (heap w) ->
        (forall k, In k object_fields -> merged !! k = None) ->
        exists config,
          _compile_config (state w) (heap w) = Ok config
          /\ fst (on_babel_loaded babelState w) = Ok tt
          /\ trace w'
             = trace w ++ CallCompile (field (state w) "code") config
                          :: map (fun p => CallLoadPlugin (target p))
                                 (pass_loads S (heap w))
          /\ loading w' = loading w ++ pass_loads S (heap w)
          /\ state w'
             = ((<["envPresetDebugInfo" := debugInfo_after (field (state w) "code") config]>
                   (result_object (compile (field (state w) "code") config)))
                ∪ merged) ∪ state w
          /\ timer w' = timer w
          /\ localStorage w' = localStorage w
          /\ query w' = query w).
Proof.
  intros Hl. cbn zeta. split.
  - intros Hf. unfold on_babel_loaded, setState_with, bind, getState, read, ret, update.
    rewrite Hl, Hf. cbn. rewrite Hl, Hf. cbn. by rewrite (left_id_L ∅ (∪)).
  - intros Ht S HT Hm.
    destruct (compile_config_typed S _ _ HT) as [tg Hcfg].
    eexists. split; [exact Hcfg|].
    unfold on_babel_loaded, setState_with, bind, getState, read, ret, update.
    rewrite Hl, Ht. unfold _compile, bind, read, emit, update, ret. rewrite Hcfg.
    cbn [fst snd heap set_state set_trace]. rewrite Hl, Ht. cbn [when].
    match goal with |- context [_checkForUnloadedPlugins ?x] => set (w1 := x) end.
    assert (HT1 : Typed S (state w1) (heap w1)).
    { apply Typed_union; [done|]. by apply compiled_not_objects. }
    rewrite (pass_typed S w1 HT1). cbn [fst snd].
    destruct (after_pass_spec S w1 HT1) as (Hld & _ & Hst & Htm & _ & Hls & Hq & _).
    rewrite (after_pass_trace S w1 HT1), Hld, Hst, Htm, Hls, Hq. cbn.
    rewrite <- app_assoc. done.
Qed.

(** X19.  Edits that follow one another with no time in between leave
    the world of the last edit alone: the state holds the last code, and
    one debounced compilation, of that code, is owed. *)
Theorem last_edit_wins (w : World) (codes : list string) (code : string) :
  run (map EditorChange (codes ++ [code])) w = step w (EditorChange code).
Proof.
  revert w. induction codes as [|c codes IH]; intros w; [done|].
  cbn [map app]. rewrite run_cons, IH, !step_EditorChange.
  unfold code_updated, set_timer, set_state. cbn. f_equal. apply insert_insert_eq.
Qed.

(** X20.  What [_persistState] writes, the constructor reads back: from
    the configuration persisted from a well-typed state it builds a state
    with the same [builtIns], [code], [debugEnvPreset],
    [isSidebarExpanded] and [lineWrap], and a runtime polyfill state made
    by [configToState] from the persisted [isEnabled] of the runtime
    polyfill. *)
Theorem persisted_settings_read_back (S : Shape) (st : gmap string Val) (h : Heap)
    (persisted : Val) (page : World) :
  Typed S st h ->
  persisted_configuration st h = Ok persisted ->
  nullish (persistedStateToEnvConfig persisted) = false ->
  exists w l,
    constructor persisted page = Ok w
    /\ field (state w) "builtIns" = field st "builtIns"
    /\ field (state w) "code" = field st "code"
    /\ field (state w) "debugEnvPreset" = field st "debugEnvPreset"
    /\ field (state w) "isSidebarExpanded" = field st "isSidebarExpanded"
    /\ field (state w) "lineWrap" = field st "lineWrap"
    /\ field (state w) "runtimePolyfillState" = VPluginState l
    /\ heap w l = configToState runtimePolyfillConfig
                    (VBool (isEnabled (h (sh_runtimePolyfillState S)))).
Proof.
  intros HT Hp He. rewrite (persisted_configuration_typed S st h HT) in Hp.
  injection Hp as <-. unfold constructor.
  assert (Hd : exists defaults,
    defaultPresets
      (VObject
         [("babili", VBool (isEnabled (h (sh_babili S))));
          ("browsers", prop (sh_envConfig S) "browsers");
          ("build", prop (sh_babel S) "build");
          ("builtIns", field st "builtIns");
          ("circleciRepo", prop (sh_babel S) "circleciRepo");
          ("code", field st "code");
          ("debug", field st "debugEnvPreset");
          ("evaluate", VBool (isEnabled (h (sh_runtimePolyfillState S))));
          ("lineWrap", field st "lineWrap");
          ("presets", VString (Array_join "," (persisted_presets S h)));
          ("prettier", VBool (isEnabled (h (sh_prettier S))));
          ("showSidebar", field st "isSidebarExpanded");
          ("targets", envConfigToTargetsString (VObject (sh_envConfig S)));
          ("version", prop (sh_babel S) "version")]) (heap page) = Ok defaults).
  { unfold defaultPresets. rewrite getProp_object. unfold prop at 1. cbn.
    destruct (negb _); by eexists. }
  destruct Hd as [defaults ->].
  rewrite !getProp_object. cbn [obind].
  destruct (getProp_Ok (heap page) _ "isEnvPresetEnabled" He) as [envEnabled ->].
  cbn [obind].
  destruct (allocate 1 _ _) as [pluginEntries h2].
  destruct (allocate _ _ h2) as [presetEntries h3].
  eexists. eexists. split; [reflexivity|].
  cbn [state heap]. unfold field at 1 3 5 7 9 11. rewrite !lookup_list_to_map_assoc.
  cbn. repeat (split; [reflexivity|]). by rewrite heap_set_same.
Qed.

End Further.

(** ** The further properties on the concrete playground *)

Lemma bare_typed : Typed bare_shape bare_state bare_heap.
Proof.
  split; try reflexivity.
  - apply (bool_decide_unpack _). vm_compute. exact I.
  - apply (bool_decide_unpack _). vm_compute. exact I.
  - apply (bool_decide_unpack _). vm_compute. exact I.
  - exists "". reflexivity.
Defined.

Lemma envPreset_enabled_starts_its_load_witness :
  Typed example_shape (state example_world) (heap example_world)
  /\ fst (@handle example_collaborators
            (EnvPresetSettingChange "isEnvPresetEnabled" (VBool true)) example_world)
     = Ok tt.
Proof.
  split; [exact example_typed|].
  exact (proj1 (@envPreset_enabled_starts_its_load example_collaborators
                  example_shape example_world (VBool true) example_typed)).
Defined.

(** The env preset's load completes: its module's [default] is
    registered and a compilation is armed. *)
Lemma envPreset_callback_registers_witness :
  let w := snd (@_checkForUnloadedPlugins example_collaborators example_world) in
  let pending := mkPendingLoad 6 (EnvPresetLoaded (VPluginState 6)) in
  loading w !! 2 = Some pending
  /\ callback pending = EnvPresetLoaded (VPluginState 6)
  /\ fst (@handle example_collaborators (LoadCompleted 2 true) w) = Ok tt.
Proof.
  intros w pending.
  assert (H1 : loading w !! 2 = Some pending) by reflexivity.
  assert (H2 : callback pending = EnvPresetLoaded (VPluginState 6)) by reflexivity.
  split; [exact H1|]. split; [exact H2|].
  pose proof (@envPreset_callback_registers example_collaborators w 2 true pending 6 H1 H2)
    as H.
  cbn in H. destruct H as (preset & _ & H). exact (f_equal fst H).
Defined.

Lemma compile_hands_over_selection_witness :
  Typed example_shape example_state (heap loaded_world)
  /\ prop (sh_envConfig example_shape) "browsers" = VString "ie 11"
  /\ exists config,
       trace (snd (@_compile example_collaborators (VString "x") example_state loaded_world))
       = [CallCompile (VString "x") config]
       /\ prettify config = VBool false.
Proof.
  split; [exact loaded_typed|]. split; [reflexivity|].
  destruct (@compile_hands_over_selection example_collaborators example_shape (VString "x")
              example_state loaded_world "ie 11" loaded_typed eq_refl)
    as (config & Hc & _ & Hp & _).
  exists config. rewrite Hc. split; [reflexivity|exact Hp].
Defined.

Lemma compile_without_babili_throws_witness :
  @_presetsToArray (state clobbered_world) (heap clobbered_world)
  = Ok [VString "es2015"; VString "react"]
  /\ getProp (heap clobbered_world) (field (state clobbered_world) "plugins")
             "babili-standalone" = Ok VUndefined
  /\ exists what,
       @handle example_collaborators TimerFired clobbered_world
       = (Throw (TypeError what), set_timer None clobbered_world).
Proof.
  assert (H1 : @_presetsToArray (state clobbered_world) (heap clobbered_world)
               = Ok [VString "es2015"; VString "react"]) by reflexivity.
  assert (H2 : getProp (heap clobbered_world) (field (state clobbered_world) "plugins")
                       "babili-standalone" = Ok VUndefined) by reflexivity.
  split; [exact H1|]. split; [exact H2|].
  destruct (@compile_without_babili_throws example_collaborators clobbered_world _ H1 H2)
    as (what & _ & Ht & _).
  exists what. apply (Ht (VString "x") 0); [reflexivity|].
  unfold DEBOUNCE_DELAY. cbn. lia.
Defined.

(** The preset stage-2 is baked in and switched off; switching it on
    adds its label after those of es2015 and react. *)
Lemma toggled_preset_selection_witness :
  let w' := @step example_collaborators example_world
              (SettingChange "babel-preset-stage-2" true) in
  Typed example_shape (state example_world) (heap example_world)
  /\ "babel-preset-stage-2" <> "babel-polyfill"
  /\ state example_world !! "hasOwnProperty" = None
  /\ state example_world !! "babel-preset-stage-2" = None
  /\ assoc "hasOwnProperty" example_plugins = None
  /\ assoc "babel-preset-stage-2" example_plugins = None
  /\ assoc "hasOwnProperty" example_presets = None
  /\ assoc "babel-preset-stage-2" example_presets = Some 4
  /\ @_presetsToArray (state w') (heap w')
     = Ok [VString "es2015"; VString "react"; VString "stage-2"].
Proof.
  intros w'.
  assert (Hne : "babel-preset-stage-2" <> "babel-polyfill") by discriminate.
  split; [exact example_typed|]. split; [exact Hne|].
  do 6 (split; [reflexivity|]).
  pose proof (@toggled_preset_selection example_collaborators example_shape example_world
                "babel-preset-stage-2" true 4 example_typed Hne
                eq_refl eq_refl eq_refl eq_refl eq_refl eq_refl) as H.
  cbn zeta in H. fold w' in H. rewrite H. vm_compute. reflexivity.
Defined.

Lemma sidebar_change_only_persists_witness :
  let w' := @step example_collaborators example_world (SidebarExpandedChange false) in
  Typed example_shape (state example_world) (heap example_world)
  /\ trace w' = trace example_world
  /\ exists props,
       query w' = Some (VObject props)
       /\ prop props "showSidebar" = VBool false.
Proof.
  intros w'.
  destruct (@sidebar_change_only_persists example_collaborators example_world false)
    as (_ & _ & Ht & _ & _ & _ & Hp).
  split; [exact example_typed|]. split; [exact Ht|].
  destruct (Hp example_shape example_typed) as (props & _ & Hq & Hs & _).
  exists props. by split.
Defined.

Lemma render_loader_until_loaded_witness :
  field example_state "babel" = VObject example_babel
  /\ exists options input output,
       render example_state example_heap = Ok (Panels options input output)
       /\ panel_code input = VString "const f = x => x".
Proof.
  split; [reflexivity|].
  destruct (render_loader_until_loaded example_state example_heap example_babel eq_refl)
    as (view & Hr & Hv).
  vm_compute in Hr. injection Hr as <-.
  do 3 eexists. split; [reflexivity|]. exact (proj1 (proj2 Hv)).
Defined.

(** A first visit, and a visit after everything was switched off: the
    three default presets either way. *)
Lemma defaultPresets_fallback_witness :
  getProp example_heap example_firstVisit "presets" = Ok VUndefined
  /\ truthy VUndefined = false
  /\ defaultPresets example_firstVisit example_heap = Ok fallback_presets
  /\ Typed bare_shape bare_state bare_heap
  /\ persisted_names bare_shape bare_heap = []
  /\ exists props,
       @persisted_configuration example_collaborators bare_state bare_heap
       = Ok (VObject props)
       /\ defaultPresets (VObject props) example_heap = Ok fallback_presets.
Proof.
  pose proof (@defaultPresets_fallback example_collaborators) as [H1 H2].
  split; [reflexivity|]. split; [reflexivity|].
  split; [exact (H1 example_firstVisit example_heap VUndefined eq_refl eq_refl)|].
  split; [exact bare_typed|]. split; [reflexivity|].
  destruct (H2 bare_shape bare_state bare_heap example_heap bare_typed eq_refl)
    as (props & Hp & _ & Hd).
  exists props. by split.
Defined.

Lemma persisted_presets_read_back_witness :
  Typed example_shape example_state example_heap
  /\ persisted_names example_shape example_heap = ["es2015"; "react"; "babili"; "env"]
  /\ exists props defaults,
       @persisted_configuration example_collaborators example_state example_heap
       = Ok (VObject props)
       /\ defaultPresets (VObject props) example_heap = Ok defaults
       /\ assoc "babel-preset-babili" defaults = Some (VBool true).
Proof.
  split; [exact example_typed|]. split; [reflexivity|].
  assert (Hfree : Forall (fun n => has_char "," n = false)
                         (persisted_names example_shape example_heap)).
  { repeat constructor. }
  assert (Hne : String.concat "," (persisted_names example_shape example_heap) <> "")
    by discriminate.
  destruct (@persisted_presets_read_back example_collaborators example_shape example_state
              example_heap example_heap example_typed Hfree Hne)
    as (props & defaults & Hp & Hd & Hin & _).
  exists props, defaults. split; [exact Hp|]. split; [exact Hd|].
  apply (Hin "babili"). cbn. tauto.
Defined.

Lemma persists_only_on_timer_and_sidebar_witness :
  EditorChange "x" <> TimerFired
  /\ (forall isExpanded, EditorChange "x" <> SidebarExpandedChange isExpanded)
  /\ query (@step example_collaborators example_world (EditorChange "x"))
     = query example_world.
Proof.
  assert (H1 : EditorChange "x" <> TimerFired) by discriminate.
  assert (H2 : forall isExpanded, EditorChange "x" <> SidebarExpandedChange isExpanded)
    by discriminate.
  split; [exact H1|]. split; [exact H2|].
  exact (proj2 (@persists_only_on_timer_and_sidebar example_collaborators example_world
                  (EditorChange "x") H1 H2)).
Defined.

Lemma storage_and_url_agree_witness :
  let events := [SettingChange "lineWrap" true; Elapse 500; TimerFired;
                 SidebarExpandedChange false] in
  InSync example_world
  /\ InSync (@run example_collaborators events example_world).
Proof.
  intros events.
  assert (H : InSync example_world) by reflexivity.
  split; [exact H|].
  exact (proj2 (proj2 (@storage_and_url_agree example_collaborators example_world events))
           H).
Defined.

Lemma example_configs (l : loc) : nullish (config (example_heap l)) = false.
Proof. do 7 (destruct l as [|l]; [reflexivity|]). reflexivity. Defined.

(** [loadPlugin] leaves the config alone, so every [PluginState] keeps
    one. *)
Lemma pluginStates_written_through_isEnabled_and_loadPlugin_witness :
  let I := fun (_ : loc) p => nullish (config p) = false in
  let events := [SettingChange "prettier" true; LoadCompleted 0 false; Elapse 500;
                 TimerFired] in
  (forall l p b, I l p -> I l (with_isEnabled b p))
  /\ (forall l p, I l p -> I l (@loadPlugin_begin example_collaborators p))
  /\ (forall l p success, I l p -> I l (@loadPlugin_end example_collaborators success p))
  /\ (forall l, I l (heap example_world l))
  /\ forall l, I l (heap (@run example_collaborators events example_world) l).
Proof.
  intros I events.
  assert (H1 : forall l p b, I l p -> I l (with_isEnabled b p)) by (intros ? ? ? H; exact H).
  assert (H2 : forall l p, I l p -> I l (@loadPlugin_begin example_collaborators p))
    by (intros ? ? H; exact H).
  assert (H3 : forall l p success,
               I l p -> I l (@loadPlugin_end example_collaborators success p))
    by (intros ? ? ? H; exact H).
  assert (H4 : forall l, I l (heap example_world l)) by exact example_configs.
  split; [exact H1|]. split; [exact H2|]. split; [exact H3|]. split; [exact H4|].
  exact (@pluginStates_written_through_isEnabled_and_loadPlugin example_collaborators
           I example_world events H1 H2 H3 H4).
Defined.

Lemma only_settings_switch_witness :
  (forall p, isEnabled (@loadPlugin_begin example_collaborators p) = isEnabled p)
  /\ (forall p success,
        isEnabled (@loadPlugin_end example_collaborators success p) = isEnabled p)
  /\ (forall name isEnabled, EditorChange "x" <> SettingChange name isEnabled)
  /\ isEnabled (heap (@step example_collaborators example_world (EditorChange "x")) 0)
     = true.
Proof.
  assert (H1 : forall p, isEnabled (@loadPlugin_begin example_collaborators p) = isEnabled p)
    by reflexivity.
  assert (H2 : forall p success,
               isEnabled (@loadPlugin_end example_collaborators success p) = isEnabled p)
    by reflexivity.
  assert (H3 : forall name isEnabled, EditorChange "x" <> SettingChange name isEnabled)
    by discriminate.
  split; [exact H1|]. split; [exact H2|]. split; [exact H3|].
  exact (@only_settings_switch example_collaborators example_world (EditorChange "x") 0
           H1 H2 H3).
Defined.

Lemma example_fields : Forall (fun k => is_Some (state example_world !! k)) State_fields.
Proof. repeat constructor; by eexists. Defined.

Lemma state_fields_preserved_witness :
  let events := [SettingChange "lineWrap" true; Elapse 500; TimerFired;
                 LoadCompleted 1 true] in
  Forall (fun k => is_Some (state example_world !! k)) State_fields
  /\ state (@run example_collaborators events example_world) !! "evaluate" = None.
Proof.
  intros events. split; [exact example_fields|].
  apply eq_None_not_Some.
  rewrite (proj1 (proj2 (@state_fields_preserved example_collaborators example_world
                           example_fields)) events "evaluate").
  intros [v Hv]. discriminate Hv.
Defined.

(** A visit to the persisted playground: the component is constructed,
    Babel arrives, a setting is changed. *)
Lemma constructor_establishes_invariants_witness :
  let babelState := VObject [("isLoaded", VBool true); ("isLoading", VBool false)] in
  let activations := [BabelLoaded babelState; Handled (SettingChange "prettier" true)] in
  nullish example_persistedState = false
  /\ (forall presets,
        getProp (heap example_page) example_persistedState "presets" = Ok presets ->
        truthy presets = true -> exists s, presets = VString s)
  /\ nullish (@persistedStateToEnvConfig example_replUtils example_persistedState) = false
  /\ Forall plain_babelState activations
  /\ exists w,
       @constructor example_replUtils example_persistedState example_page = Ok w
       /\ field (state w) "compiled" = VNull
       /\ Consistent (@history example_collaborators activations w).
Proof.
  intros babelState activations.
  assert (H2 : forall presets,
            getProp (heap example_page) example_persistedState "presets" = Ok presets ->
            truthy presets = true -> exists s, presets = VString s).
  { intros presets H _. vm_compute in H. injection H as <-. by eexists. }
  assert (Hplain : Forall plain_babelState activations).
  { repeat constructor; intros h; reflexivity. }
  split; [reflexivity|]. split; [exact H2|]. split; [reflexivity|].
  split; [exact Hplain|].
  destruct (@constructor_establishes_invariants example_collaborators example_replUtils
              example_persistedState example_page eq_refl H2 eq_refl)
    as (w & Hw & _ & Hnull & _ & _ & _ & _ & _ & Hrun).
  exists w. split; [exact Hw|]. split.
  - by apply Forall_cons in Hnull as [Hnull _].
  - exact (proj2 (proj2 (Hrun activations Hplain))).
Defined.

(** Babel arrives: the code is compiled at once and the three modules
    still missing start to load. *)
Lemma babel_loaded_compiles_at_once_witness :
  let babelState := VObject [("isLoaded", VBool true); ("isLoading", VBool false)] in
  let w' := snd (@on_babel_loaded example_collaborators babelState example_world) in
  getProp (heap example_world) babelState "isLoaded" = Ok (VBool true)
  /\ Typed example_shape (state example_world) (heap example_world)
  /\ (forall k, In k object_fields ->
        (list_to_map (own_props (heap example_world) babelState) : gmap string Val) !! k
        = None)
  /\ timer w' = None
  /\ length (loading w') = 3.
Proof.
  intros babelState w'.
  assert (Hm : forall k, In k object_fields ->
             (list_to_map (own_props (heap example_world) babelState) : gmap string Val) !! k
             = None).
  { intros k Hk. cbn in Hk.
    destruct Hk as [<-|[<-|[<-|[<-|[<-|[<-|[]]]]]]]; reflexivity. }
  split; [reflexivity|]. split; [exact example_typed|]. split; [exact Hm|].
  destruct (proj2 (@babel_loaded_compiles_at_once example_collaborators babelState
                     example_world (VBool true) eq_refl) eq_refl example_shape
                  example_typed Hm)
    as (config & _ & _ & _ & Hl & _ & Ht & _).
  split; [exact Ht|]. fold w' in Hl. rewrite Hl. reflexivity.
Defined.

Lemma persisted_settings_read_back_witness :
  Typed example_shape example_state example_heap
  /\ @persisted_configuration example_collaborators example_state example_heap
     = Ok example_persistedState
  /\ nullish (@persistedStateToEnvConfig example_replUtils example_persistedState) = false
  /\ exists w,
       @constructor example_replUtils example_persistedState example_page = Ok w
       /\ field (state w) "code" = VString "const f = x => x".
Proof.
  assert (Hp : @persisted_configuration example_collaborators example_state example_heap
               = Ok example_persistedState) by reflexivity.
  split; [exact example_typed|]. split; [exact Hp|]. split; [reflexivity|].
  destruct (@persisted_settings_read_back example_collaborators example_replUtils
              example_shape example_state example_heap example_persistedState example_page
              example_typed Hp eq_refl)
    as (w & l & Hw & _ & Hc & _).
  exists w. split; [exact Hw|]. exact Hc.
Defined.
